(** * chanlun back-testing: risk control, pattern heuristics and the runner

    A shallow embedding of [chanlun/backtesting/base.py] and
    [chanlun/backtesting/backtest.py], and the properties of their
    specification that hold (or fail) on it.

    Conventions of the embedding.
    - Python floats that are only compared, added, subtracted, multiplied
      and divided are exact rationals [Q]; a Python division is partial and
      raises [ZeroDivisionError] on a zero divisor.
    - numpy floats ([talib]/[pandas] results) are [npfloat]: a rational, an
      infinity or NaN; numpy division never raises.
    - A Python call that may raise returns [result]; a method that mutates
      its argument returns the object after the call next to the outcome.
    - [str] is [string]; ['x' in s] is [py_in]. *)

From Stdlib Require Import QArith Qminmax Qreals Reals Lra Lqa Sorted.
From stdpp Require Import gmap strings list.

Local Open Scope string_scope.
Local Open Scope Q_scope.

(** ** Python outcomes *)

Inductive exn : Type :=
  | AttributeError (what : string)
  | ZeroDivisionError
  | IndexError
  | KeyError (key : string)
  | Exception (message : string).

Inductive result (A : Type) : Type :=
  | Ok (a : A)
  | Raise (e : exn).

Arguments Ok {A} a.
Arguments Raise {A} e.

(** Sequencing: an exception of the first call skips the rest. *)
#[global] Instance result_bind : MBind result := fun A B f r =>
  match r with
  | Ok a => f a
  | Raise e => Raise e
  end.

#[global] Instance result_ret : MRet result := fun A a => Ok a.

(** ['sub' in s] on Python strings. *)
Fixpoint py_in (sub s : string) : bool :=
  String.prefix sub s ||
  match s with
  | EmptyString => false
  | String _ s' => py_in sub s'
  end.

(** ** Python float arithmetic on exact rationals *)

Definition Qlt_bool (a b : Q) : bool := negb (Qle_bool b a).

(** [a / b]: raises on a zero divisor. *)
Definition py_div (a b : Q) : result Q :=
  if Qeq_bool b 0 then Raise ZeroDivisionError else Ok (a / b).

(** [max(a, b)] keeps the first argument unless the second is larger;
    [min(a, b)] keeps it unless the second is smaller. *)
Definition py_max (a b : Q) : Q := if Qlt_bool a b then b else a.
Definition py_min (a b : Q) : Q := if Qlt_bool b a then b else a.

(** ** numpy floats *)

Inductive npfloat : Type :=
  | Fin (q : Q)
  | PInf
  | NInf
  | NaN.

(** Comparisons are false as soon as one side is NaN. *)
Definition np_le (a b : npfloat) : bool :=
  match a, b with
  | NaN, _ | _, NaN => false
  | NInf, _ => true
  | _, PInf => true
  | Fin x, Fin y => Qle_bool x y
  | _, _ => false
  end.

Definition np_ge (a b : npfloat) : bool := np_le b a.

Definition np_lt (a b : npfloat) : bool :=
  match a, b with
  | NaN, _ | _, NaN => false
  | _, NInf => false
  | PInf, _ => false
  | Fin x, Fin y => Qlt_bool x y
  | _, _ => true
  end.

Definition np_neg (a : npfloat) : npfloat :=
  match a with
  | Fin x => Fin (- x)
  | PInf => NInf
  | NInf => PInf
  | NaN => NaN
  end.

Definition np_add (a b : npfloat) : npfloat :=
  match a, b with
  | NaN, _ | _, NaN => NaN
  | Fin x, Fin y => Fin (x + y)
  | PInf, NInf | NInf, PInf => NaN
  | PInf, _ | _, PInf => PInf
  | NInf, _ | _, NInf => NInf
  end.

Definition np_sub (a b : npfloat) : npfloat := np_add a (np_neg b).

(** The sign of a rational as an infinity; a zero has no sign to give. *)
Definition np_signed_inf (x : Q) : npfloat :=
  if Qlt_bool 0 x then PInf else if Qlt_bool x 0 then NInf else NaN.

Definition np_mul (a b : npfloat) : npfloat :=
  match a, b with
  | NaN, _ | _, NaN => NaN
  | Fin x, Fin y => Fin (x * y)
  | PInf, Fin y | Fin y, PInf => np_signed_inf y
  | NInf, Fin y | Fin y, NInf => np_signed_inf (- y)
  | PInf, PInf | NInf, NInf => PInf
  | PInf, NInf | NInf, PInf => NInf
  end.

(** numpy true division: a zero divisor yields an infinity (NaN for 0/0)
    with a warning, never an exception.  The sign of a zero is not tracked:
    a zero divisor counts as +0.0, which is what [x - x] produces. *)
Definition np_div (a b : npfloat) : npfloat :=
  match a, b with
  | NaN, _ | _, NaN => NaN
  | Fin x, Fin y => if Qeq_bool y 0 then np_signed_inf x else Fin (x / y)
  | Fin _, _ => Fin 0
  | PInf, Fin y => if Qlt_bool y 0 then NInf else PInf
  | NInf, Fin y => if Qlt_bool y 0 then PInf else NInf
  | _, _ => NaN
  end.

Definition is_finite (a : npfloat) : bool :=
  match a with Fin _ => true | _ => false end.

(** ** base.py: data classes *)

(** [POSITION] (持仓对象). *)
Record POSITION : Type := mkPOSITION {
  code : string;
  mmd : string;
  pos_type : option string;
  balance : Q;
  price : Q;
  amount : Q;
  loss_price : option Q;
  open_date : option string;
  open_datetime : option string;
  close_datetime : option string;
  profit_rate : Q;
  max_profit_rate : Q;
  max_loss_rate : Q;
  open_msg : string;
  close_msg : string;
  info : option (list (string * string))
}.

(** [POSITION(code, mmd)] with the dataclass defaults. *)
Definition new_POSITION (c m : string) : POSITION :=
  mkPOSITION c m None 0 0 0 None None None None 0 0 0 "" "" None.

(** [pos.loss_price = v]. *)
Definition set_loss_price (pos : POSITION) (v : Q) : POSITION :=
  mkPOSITION (code pos) (mmd pos) (pos_type pos) (balance pos) (price pos)
    (amount pos) (Some v) (open_date pos) (open_datetime pos)
    (close_datetime pos) (profit_rate pos) (max_profit_rate pos)
    (max_loss_rate pos) (open_msg pos) (close_msg pos) (info pos).

(** [Operation] (策略返回的操作指示对象). *)
Record Operation : Type := mkOperation {
  opt : string;
  op_mmd : string;
  op_loss_price : option Q;
  op_info : option (list (string * string));
  msg : string
}.

(** [Operation(opt, mmd, msg=m)]. *)
Definition new_Operation (o m message : string) : Operation :=
  mkOperation o m None None message.

(** ** cl_interface: bars, fractals, strokes *)

(** A sequence that has a last element: [init ++ [last]]. *)
Record seq1 (A : Type) : Type := mkSeq1 {
  seq1_init : list A;
  seq1_last : A
}.

Arguments mkSeq1 {A} _ _.
Arguments seq1_init {A} _.
Arguments seq1_last {A} _.

(** Modelled from the spec: the bar of the data model, declared in
    [chanlun.cl_interface] ([Kline]); the fields are the ones base.py reads. *)
Record Kline : Type := mkKline {
  k_index : Z;
  k_o : Q;
  k_c : Q;
  k_h : Q;
  k_l : Q
}.

(** Modelled from the spec: a merged bar ([CLKline]) with its own index in
    the merged series and the bars it stands for, of which there is at
    least one. *)
Record CLKline : Type := mkCLKline {
  clk_index : Z;
  clk_klines : seq1 Kline
}.

(** Modelled from the spec: the fractal ([FX]) with its kind
    (['ding'] peak, ['di'] trough), its confirmation flag, its supporting
    merged bars (at least one) and the two band-threshold methods
    [low(qj)] and [high(qj)]. *)
Record FX : Type := mkFX {
  fx_type : string;
  fx_done : bool;
  fx_val : Q;
  fx_index : Z;
  fx_klines : seq1 CLKline;
  fx_low : string -> Q;
  fx_high : string -> Q
}.

(** Modelled from the spec: the stroke ([BI]) with its direction
    (['up'] or ['down']), its two fractals, its extreme prices and the
    completion flag answered by [is_done()]. *)
Record BI : Type := mkBI {
  bi_type : string;
  bi_start : FX;
  bi_end : FX;
  bi_high : Q;
  bi_low : Q;
  bi_is_done : bool
}.

(** Modelled from the spec: the pattern structure ([ICL]): the ordered bars
    (at least one, the last being the latest bar) and the configuration
    entry ['fx_qj']. *)
Record ICL : Type := mkICL {
  get_klines : seq1 Kline;
  get_config_fx_qj : string;
  get_bis : list BI
}.

(** ** base.py: Strategy helpers *)

(** [Strategy.check_loss]. *)
Definition check_loss (m : string) (pos : POSITION) (p : Q)
  : option Operation :=
  match loss_price pos with
  | None => None
  | Some lp =>
      if py_in "buy" m then
        if Qlt_bool p lp
        then Some (new_Operation "sell" m (m ++ " 止损"))
        else None
      else if py_in "sell" m then
        if Qlt_bool lp p
        then Some (new_Operation "sell" m (m ++ " 止损"))
        else None
      else None
  end.

(** The [profit_rate] expression of [check_back_return]. *)
Definition back_profit_rate (m : string) (pos : POSITION) (p : Q)
  : result Q :=
  if py_in "sell" m
  then r ← py_div (price pos - p) (price pos); Ok (r * 100)
  else r ← py_div (p - price pos) (price pos); Ok (r * 100).

(** [Strategy.check_back_return]. *)
Definition check_back_return (m : string) (pos : POSITION) (p : Q)
    (max_back_rate : option Q) : result (option Operation) :=
  match max_back_rate with
  | Some rate =>
      pr ← back_profit_rate m pos p;
      if Qlt_bool 0 pr && Qle_bool rate (max_profit_rate pos - pr)
      then Ok (Some (new_Operation "sell" m (m ++ " 回调止损")))
      else Ok None
  | None => Ok None
  end.

(** [Strategy.last_done_bi]: the first completed stroke of [bis[::-1]]. *)
Definition last_done_bi (bis : list BI) : option BI :=
  List.find bi_is_done (rev bis).

(** [x.type] where [x] may be [None]. *)
Definition getattr_type (x : option BI) : result string :=
  match x with
  | Some b => Ok (bi_type b)
  | None => Raise (AttributeError "type")
  end.

Definition getattr_low (x : option BI) : result Q :=
  match x with
  | Some b => Ok (bi_low b)
  | None => Raise (AttributeError "low")
  end.

Definition getattr_high (x : option BI) : result Q :=
  match x with
  | Some b => Ok (bi_high b)
  | None => Raise (AttributeError "high")
  end.

(** [a and b], where [b] is only evaluated when [a] holds. *)
Definition py_and (a : bool) (b : result bool) : result bool :=
  if a then b else Ok false.

(** [Strategy.dynamic_change_loss_by_bi]: the position after the call and
    how the call ended. *)
Definition dynamic_change_loss_by_bi (pos : POSITION) (bis : list BI)
  : POSITION * result unit :=
  match loss_price pos with
  | None => (pos, Ok tt)
  | Some lp =>
      let last := last_done_bi bis in
      match py_and (py_in "buy" (mmd pos))
                   (t ← getattr_type last; Ok (String.eqb t "up")) with
      | Raise e => (pos, Raise e)
      | Ok true =>
          match getattr_low last with
          | Ok low => (set_loss_price pos (py_max lp low), Ok tt)
          | Raise e => (pos, Raise e)
          end
      | Ok false =>
          match py_and (py_in "sell" (mmd pos))
                       (t ← getattr_type last; Ok (String.eqb t "down")) with
          | Raise e => (pos, Raise e)
          | Ok true =>
              match getattr_high last with
              | Ok high => (set_loss_price pos (py_min lp high), Ok tt)
              | Raise e => (pos, Raise e)
              end
          | Ok false => (pos, Ok tt)
          end
      end
  end.

(** [Strategy.bi_qiang_td] (笔的强停顿判断). *)
Definition bi_qiang_td (bi : BI) (cd : ICL) : bool :=
  if negb (fx_done (bi_end bi)) then false
  else
    let last_k := seq1_last (get_klines cd) in
    if (k_index last_k
        - k_index (seq1_last (clk_klines (seq1_last (fx_klines (bi_end bi)))))
        >? 2)%Z
    then false
    else if (clk_index (seq1_last (fx_klines (bi_end bi))) =? k_index last_k)%Z
    then false
    else if String.eqb (fx_type (bi_end bi)) "ding"
            && Qlt_bool (k_c last_k) (k_o last_k)
            && Qlt_bool (k_c last_k) (fx_low (bi_end bi) (get_config_fx_qj cd))
    then true
    else if String.eqb (fx_type (bi_end bi)) "di"
            && Qlt_bool (k_o last_k) (k_c last_k)
            && Qlt_bool (fx_high (bi_end bi) (get_config_fx_qj cd)) (k_c last_k)
    then true
    else false.

(** ** base.py: Strategy.points_jiaodu *)

(** What [math.atan] and [math.degrees] return: a real, or NaN. *)
Inductive pyreal : Type :=
  | Real (r : R)
  | NotANumber.

Definition math_atan (k : npfloat) : pyreal :=
  match k with
  | Fin q => Real (atan (Q2R q))
  | PInf => Real (PI / 2)
  | NInf => Real (- (PI / 2))
  | NaN => NotANumber
  end.

Definition math_degrees (x : pyreal) : pyreal :=
  match x with
  | Real r => Real (r * (180 / PI))
  | NotANumber => NotANumber
  end.

(** TA-Lib's simple moving average of period 2, [talib.MA(real, 2)]: the
    output has the length of the input, its first entry is NaN and entry
    [i >= 1] is the mean of inputs [i - 1] and [i]. *)
Fixpoint sma2 (prev : Q) (l : list Q) : list npfloat :=
  match l with
  | [] => []
  | x :: l' => Fin ((prev + x) / 2) :: sma2 x l'
  end.

Definition talib_MA_2 (l : list Q) : list npfloat :=
  match l with
  | [] => []
  | p :: l' => NaN :: sma2 p l'
  end.

(** [v is not None] for an entry of a numpy array: a numpy float, NaN
    included, is never the [None] object. *)
Definition py_is_not_None (v : npfloat) : bool := true.

(** The loop building [new_points]: [[i, points[i]]] for every [i] that
    passes the test, [i] counting from [start]. *)
Fixpoint number_points (start : nat) (points : list npfloat)
  : list (nat * npfloat) :=
  match points with
  | [] => []
  | v :: rest =>
      (if py_is_not_None v then [(start, v)] else [])
      ++ number_points (S start) rest
  end.

(** The test of the extraction loop on [p1], [p2] and the optional [p3]. *)
Definition is_fx (position : string) (p1 p2 : nat * npfloat)
    (p3 : option (nat * npfloat)) : bool :=
  if String.eqb position "up" && np_le p1.2 p2.2
     && match p3 with Some q => np_ge p2.2 q.2 | None => true end
  then true
  else if String.eqb position "down" && np_ge p1.2 p2.2
          && match p3 with Some q => np_le p2.2 q.2 | None => true end
  then true
  else false.

(** The body of the extraction loop at index [i]. *)
Definition fx_at (position : string) (nps : list (nat * npfloat)) (i : nat)
  : option (nat * npfloat) :=
  match nps !! (i - 1)%nat, nps !! i with
  | Some p1, Some p2 =>
      if is_fx position p1 p2 (nps !! (i + 1)%nat) then Some p2 else None
  | _, _ => None
  end.

(** [for i in range(1, len(new_points))]. *)
Definition find_fxs (position : string) (nps : list (nat * npfloat))
  : list (nat * npfloat) :=
  omap (fx_at position nps) (seq 1 (length nps - 1)).

(** [sorted]: a stable sort; [before a b] says that [a] sorts strictly
    before [b].  Equal items keep their order, also under [reverse=True]. *)
Fixpoint insert_by {A : Type} (before : A -> A -> bool) (x : A) (l : list A)
  : list A :=
  match l with
  | [] => [x]
  | y :: l' => if before y x then y :: insert_by before x l' else x :: y :: l'
  end.

Fixpoint py_sorted {A : Type} (before : A -> A -> bool) (l : list A)
  : list A :=
  match l with
  | [] => []
  | x :: l' => insert_by before x (py_sorted before l')
  end.

(** [key=lambda f: f[1], reverse=True if position == 'up' else False]. *)
Definition fx_before (position : string) (a b : nat * npfloat) : bool :=
  if String.eqb position "up" then np_lt b.2 a.2 else np_lt a.2 b.2.

(** [l[i]] on a list. *)
Definition py_index {A : Type} (l : list A) (i : nat) : result A :=
  match l !! i with
  | Some x => Ok x
  | None => Raise IndexError
  end.

(** The slope [k] of the inner function [jiaodu]. *)
Definition slope (p1 p2 : nat * npfloat) : npfloat :=
  np_div (np_sub p1.2 p2.2)
         (Fin (inject_Z (Z.of_nat p1.1 - Z.of_nat p2.1))).

Definition jiaodu (p1 p2 : nat * npfloat) : pyreal :=
  math_degrees (math_atan (slope p1 p2)).

(** [Strategy.points_jiaodu]. *)
Definition points_jiaodu (points : list Q) (position : string)
  : result pyreal :=
  if (length points =? 0)%nat then Ok (Real 0)
  else
    let smoothed := talib_MA_2 points in
    let new_points := number_points 0 smoothed in
    let fxs := find_fxs position new_points in
    if (length fxs <? 2)%nat then Ok (Real 0)
    else
      let fxs := py_sorted (fx_before position) fxs in
      p1 ← py_index fxs 0;
      p2 ← py_index fxs 1;
      Ok (jiaodu p1 p2).

(** The extraction as the specification words it: undefined entries are
    dropped first, and each end of what remains counts as an extremum on
    the strength of its only neighbour. *)
Definition spec_retained (smoothed : list npfloat) : list (nat * npfloat) :=
  List.filter (fun p => match p.2 with NaN => false | _ => true end)
              (imap pair smoothed).

Definition spec_is_extremum (position : string)
    (left : option (nat * npfloat)) (p : nat * npfloat)
    (right : option (nat * npfloat)) : bool :=
  match left, right with
  | None, None => false
  | _, _ =>
      if String.eqb position "up" then
        match left with Some l => np_le l.2 p.2 | None => true end
        && match right with Some r => np_ge p.2 r.2 | None => true end
      else if String.eqb position "down" then
        match left with Some l => np_ge l.2 p.2 | None => true end
        && match right with Some r => np_le p.2 r.2 | None => true end
      else false
  end.

Fixpoint spec_extrema_from (position : string)
    (left : option (nat * npfloat)) (l : list (nat * npfloat))
  : list (nat * npfloat) :=
  match l with
  | [] => []
  | p :: rest =>
      (if spec_is_extremum position left p (head rest) then [p] else [])
      ++ spec_extrema_from position (Some p) rest
  end.

Definition spec_extrema (position : string) (points : list Q)
  : list (nat * npfloat) :=
  spec_extrema_from position None (spec_retained (talib_MA_2 points)).

(** ** backtest.py: BackTest.__init__ *)

(** The values a configuration dict holds. *)
Inductive pyval : Type :=
  | VNone
  | VStr (s : string)
  | VNum (q : Q)
  | VBool (b : bool)
  | VList (l : list string)
  | VDict (d : list (string * string))
  | VObj (name : string).

(** Modelled from the spec: the position manager ([BackTestTrader]) as its
    constructor receives it, with the strategy and the market-data provider
    attached by [set_strategy] and [set_data]. *)
Record BackTestTraderArgs : Type := mkTraderArgs {
  ta_name : string;
  ta_mode : pyval;
  ta_is_stock : pyval;
  ta_is_futures : pyval;
  ta_init_balance : pyval;
  ta_fee_rate : pyval;
  ta_max_pos : pyval;
  ta_strategy : pyval
}.

(** Modelled from the spec: the market-data provider ([BackTestKlines]) as
    its constructor receives it. *)
Record BackTestKlinesArgs : Type := mkKlinesArgs {
  ka_market : pyval;
  ka_start_datetime : pyval;
  ka_end_datetime : pyval;
  ka_frequencys : pyval;
  ka_cl_config : pyval
}.

(** What an attribute of a [BackTest] object holds. *)
Inductive attr : Type :=
  | ALogger
  | AVal (v : pyval)
  | ATrader (t : BackTestTraderArgs) (datas : BackTestKlinesArgs)
  | ADatas (d : BackTestKlinesArgs).

Definition check_keys : list string :=
  ["mode"; "market"; "base_code"; "codes"; "frequencys";
   "start_datetime"; "end_datetime";
   "init_balance"; "fee_rate"; "max_pos";
   "cl_config"; "is_stock"; "is_futures"; "strategy"].

(** [d[k]]. *)
Definition py_getitem (d : gmap string pyval) (k : string) : result pyval :=
  match d !! k with
  | Some v => Ok v
  | None => Raise (KeyError k)
  end.

(** [d.get(k)]. *)
Definition py_get (d : gmap string pyval) (k : string) : pyval :=
  match d !! k with
  | Some v => v
  | None => VNone
  end.

(** [BackTest.__init__]: the attributes of the object built, or the
    exception that leaves the constructor. *)
Definition BackTest_init (config : option (gmap string pyval))
  : result (gmap string attr) :=
  let self : gmap string attr := {[ "log" := ALogger ]} in
  match config with
  | None => Ok self
  | Some config =>
      match List.find (fun k => bool_decide (config !! k = None)) check_keys with
      | Some k => Raise (Exception ("回测配置缺少必要参数:" ++ k))
      | None =>
          mode ← py_getitem config "mode";
          market ← py_getitem config "market";
          base_code ← py_getitem config "base_code";
          codes ← py_getitem config "codes";
          frequencys ← py_getitem config "frequencys";
          start_datetime ← py_getitem config "start_datetime";
          end_datetime ← py_getitem config "end_datetime";
          init_balance ← py_getitem config "init_balance";
          fee_rate ← py_getitem config "fee_rate";
          max_pos ← py_getitem config "max_pos";
          cl_config ← py_getitem config "cl_config";
          is_stock ← py_getitem config "is_stock";
          is_futures ← py_getitem config "is_futures";
          strategy ← py_getitem config "strategy";
          let save_file := py_get config "save_file" in
          let datas :=
            mkKlinesArgs market start_datetime end_datetime frequencys cl_config in
          let trader :=
            mkTraderArgs "回测" mode is_stock is_futures init_balance fee_rate
                         max_pos strategy in
          Ok (<[ "next_frequency" := AVal VNone ]>
              (<[ "datas" := ADatas datas ]>
              (<[ "trader" := ATrader trader datas ]>
              (<[ "save_file" := AVal save_file ]>
              (<[ "strategy" := AVal strategy ]>
              (<[ "is_futures" := AVal is_futures ]>
              (<[ "is_stock" := AVal is_stock ]>
              (<[ "cl_config" := AVal cl_config ]>
              (<[ "max_pos" := AVal max_pos ]>
              (<[ "fee_rate" := AVal fee_rate ]>
              (<[ "init_balance" := AVal init_balance ]>
              (<[ "end_datetime" := AVal end_datetime ]>
              (<[ "start_datetime" := AVal start_datetime ]>
              (<[ "frequencys" := AVal frequencys ]>
              (<[ "codes" := AVal codes ]>
              (<[ "base_code" := AVal base_code ]>
              (<[ "market" := AVal market ]>
              (<[ "mode" := AVal mode ]> self))))))))))))))))))
      end
  end.

(** ** backtest.py: BackTest.run *)

(** Modelled from the spec: what [run] asks of the market-data provider
    ([BackTestKlines]) and of the position manager ([BackTestTrader]),
    neither of which is part of the two files.  [K] is a tick of the
    replayed stream, [T] the state of the position manager.
    - [klines_load base_code frequency]: the ticks that [datas.init] lines
      up and [datas.next()] then hands out one by one until it answers
      [False];
    - [update_position_record]: mark every open position at the tick;
    - [trader_run tick code]: the strategy pipeline of one instrument; it
      returns the manager as the call leaves it and, when the call raised
      an [Exception], the text [traceback.format_exc()] gives for it;
    - [trader_end]: close what is still open at the last tick seen;
    - [open_positions], [balance_history]: two views of the manager. *)
Record Collaborators (K T : Type) : Type := mkCollaborators {
  klines_load : string -> string -> list K;
  update_position_record : K -> T -> T;
  trader_run : K -> string -> T -> T * option string;
  trader_end : option K -> T -> T;
  open_positions : T -> list (string * string);
  balance_history : T -> list (string * Q)
}.

Arguments klines_load {K T} _ _ _.
Arguments update_position_record {K T} _ _ _.
Arguments trader_run {K T} _ _ _ _.
Arguments trader_end {K T} _ _ _.
Arguments open_positions {K T} _ _.
Arguments balance_history {K T} _ _.

(** Modelled from the spec: the two promises of the position manager that
    [run] relies on: [forceCloseAll] leaves no live position, and the
    balance history of a tick is written when positions are marked, not by
    the strategy pipeline of an instrument. *)
Record TraderContract {K T : Type} (ops : Collaborators K T) : Prop :=
  mkTraderContract {
  end_closes_all :
    forall now tr, open_positions ops (trader_end ops now tr) = [];
  run_keeps_balance_history :
    forall k c tr,
      balance_history ops (trader_run ops k c tr).1 = balance_history ops tr
}.

(** The attributes of a [BackTest] object that [run] reads and writes;
    [bt_now] is the tick the market-data provider stands on, [bt_pending]
    the ticks it has not handed out yet, [bt_trader_datas] tells whether
    [trader.datas] still refers to the provider. *)
Record BackTest (K T : Type) : Type := mkBackTest {
  bt_frequencys : list string;
  bt_base_code : string;
  bt_codes : list string;
  bt_next_frequency : option string;
  bt_pending : list K;
  bt_now : option K;
  bt_trader : T;
  bt_trader_datas : bool;
  bt_log : list string
}.

Arguments mkBackTest {K T} _ _ _ _ _ _ _ _ _.
Arguments bt_frequencys {K T} _.
Arguments bt_base_code {K T} _.
Arguments bt_codes {K T} _.
Arguments bt_next_frequency {K T} _.
Arguments bt_pending {K T} _.
Arguments bt_now {K T} _.
Arguments bt_trader {K T} _.
Arguments bt_trader_datas {K T} _.
Arguments bt_log {K T} _.

(** One call of [trader.run]: the tick, the instrument, and the traceback
    when the call raised. *)
Definition call (K : Type) : Type := K * string * option string.

(** The two lines logged for a call that raised. *)
Definition failure_log (c : string) (tb : option string) : list string :=
  match tb with
  | Some trace => ["执行 " ++ c ++ " 异常"; trace]
  | None => []
  end.

Section Run.
Context {K T : Type} (ops : Collaborators K T).

(** [for code in self.codes: try: self.trader.run(code) except Exception:
    log]; the calls made are recorded next to the state. *)
Fixpoint run_codes (k : K) (cs : list string) (tr : T)
    (lg : list string) (calls : list (call K))
  : T * list string * list (call K) :=
  match cs with
  | [] => (tr, lg, calls)
  | c :: rest =>
      match trader_run ops k c tr with
      | (tr', None) =>
          run_codes k rest tr' lg (calls ++ [(k, c, None)])
      | (tr', Some trace) =>
          run_codes k rest tr'
            (lg ++ ["执行 " ++ c ++ " 异常"; trace])
            (calls ++ [(k, c, Some trace)])
      end
  end.

(** [while True]: one round per tick that [datas.next()] hands out; the
    loop breaks when none is pending. *)
Fixpoint run_ticks (cs : list string) (pending : list K) (now : option K)
    (tr : T) (lg : list string) (calls : list (call K))
  : option K * T * list string * list (call K) :=
  match pending with
  | [] => (now, tr, lg, calls)
  | k :: pending' =>
      let tr1 := update_position_record ops k tr in
      let '(tr2, lg2, calls2) := run_codes k cs tr1 lg calls in
      run_ticks cs pending' (Some k) tr2 lg2 calls2
  end.

(** [BackTest.run]: the object after the run, the value returned and the
    calls of [trader.run] made; [elapsed] is the running time printed in
    the last log line. *)
Definition run (bt : BackTest K T) (next_frequency : option string)
    (elapsed : string)
  : result (BackTest K T * bool * list (call K)) :=
  nf ← match next_frequency with
       | Some f => Ok f
       | None =>
           match last (bt_frequencys bt) with
           | Some f => Ok f
           | None => Raise IndexError
           end
       end;
  let pending := klines_load ops (bt_base_code bt) nf in
  let '(now, tr, lg, calls) :=
    run_ticks (bt_codes bt) pending None (bt_trader bt) (bt_log bt) [] in
  let tr := trader_end ops now tr in
  Ok (mkBackTest (bt_frequencys bt) (bt_base_code bt) (bt_codes bt)
        (Some nf) [] now tr false
        (lg ++ ["运行完成，执行时间：" ++ elapsed]),
      true, calls).
End Run.

(** ** backtest.py: BackTest.result *)

(** Modelled from the spec: the win/loss aggregates the position manager
    keeps per signal type ([trader.results[k]]): two counts and the two
    gross amounts. *)
Record MmdResult : Type := mkMmdResult {
  win_num : N;
  loss_num : N;
  win_balance : Q;
  loss_balance : Q
}.

Definition Q_of_N (n : N) : Q := inject_Z (Z.of_N n).

(** The ratios of one row of the table, in the order the loop computes
    them. *)
Definition shenglv (r : MmdResult) : result Q :=
  if (win_num r =? 0)%N && (loss_num r =? 0)%N then Ok 0
  else q ← py_div (Q_of_N (win_num r)) (Q_of_N (win_num r + loss_num r));
       Ok (q * 100).

Definition back_rate (r : MmdResult) : result Q :=
  if Qeq_bool (win_balance r) 0 then Ok 0
  else q ← py_div (loss_balance r) (win_balance r); Ok (q * 100).

Definition win_mean_balance (r : MmdResult) : result Q :=
  if (win_num r =? 0)%N then Ok 0
  else py_div (win_balance r) (Q_of_N (win_num r)).

Definition loss_mean_balance (r : MmdResult) : result Q :=
  if (loss_num r =? 0)%N then Ok 0
  else py_div (loss_balance r) (Q_of_N (loss_num r)).

Definition ykb (r : MmdResult) : result Q :=
  win_mean ← win_mean_balance r;
  loss_mean ← loss_mean_balance r;
  if Qeq_bool loss_mean 0 || Qeq_bool win_mean 0 then Ok 0
  else py_div win_mean loss_mean.

(** The values of a table row before rounding. *)
Record Row : Type := mkRow {
  row_shenglv : Q;
  row_net_balance : Q;
  row_back_rate : Q;
  row_win_mean_balance : Q;
  row_loss_mean_balance : Q;
  row_ykb : Q
}.

Definition result_row (r : MmdResult) : result Row :=
  s ← shenglv r;
  b ← back_rate r;
  wm ← win_mean_balance r;
  lm ← loss_mean_balance r;
  y ← ykb r;
  Ok (mkRow s (win_balance r - loss_balance r) b wm lm y).

(** The statistics of the ['trade'] mode.  [df["balance"]] is the list of
    day balances in date order. *)

(** [annual_days]; the list of the source reads ['a', 'us', 'hk' 'futures'],
    whose last two literals Python joins into one. *)
Definition annual_days (market : string) : Q :=
  if bool_decide (market ∈ ["a"; "us"; "hkfutures"]) then 240 else 365.

Definition risk_free : Q := 3 # 100.

(** [df["balance"].rolling(min_periods=1, window=len(df)).max()]: the
    running maximum. *)
Fixpoint running_max (high : Q) (l : list Q) : list Q :=
  match l with
  | [] => []
  | b :: rest => let h := Qmax high b in h :: running_max h rest
  end.

Definition highlevel (balances : list Q) : list Q :=
  match balances with
  | [] => []
  | b :: rest => b :: running_max b rest
  end.

(** [df["drawdown"] / df["highlevel"] * 100]. *)
Definition ddpercent (balances : list Q) : list npfloat :=
  zip_with (fun b h => np_mul (np_div (Fin (b - h)) (Fin h)) (Fin 100))
           balances (highlevel balances).

(** [Series.min()]: the least entry, NaN entries skipped; NaN when nothing
    is left. *)
Definition series_min (l : list npfloat) : npfloat :=
  foldr (fun x acc =>
           match x, acc with
           | NaN, _ => acc
           | _, NaN => x
           | _, _ => if np_lt x acc then x else acc
           end) NaN l.

Definition max_ddpercent (balances : list Q) : npfloat :=
  series_min (ddpercent balances).

(** [(end_balance / self.init_balance - 1) * 100]; [end_balance] comes out
    of the data frame, so the division is numpy's. *)
Definition total_return (end_balance init_balance : Q) : npfloat :=
  np_mul (np_sub (np_div (Fin end_balance) (Fin init_balance)) (Fin 1))
         (Fin 100).

(** [if x:] on a numpy float: only zero is false. *)
Definition np_truthy (x : npfloat) : bool :=
  match x with
  | Fin q => negb (Qeq_bool q 0)
  | _ => true
  end.

(** [sharpe_ratio]; [np_sqrt] is [np.sqrt] on the day count, [daily_return]
    and [return_std] the mean and the deviation of the log returns. *)
Definition sharpe_ratio (np_sqrt : Q -> npfloat) (market : string)
    (daily_return return_std : npfloat) : npfloat :=
  if np_truthy return_std then
    let daily_risk_free := np_div (Fin risk_free) (np_sqrt (annual_days market)) in
    np_mul (np_div (np_sub daily_return daily_risk_free) return_std)
           (np_sqrt (annual_days market))
  else Fin 0.

(** [return_drawdown_ratio = -total_return / max_ddpercent]. *)
Definition return_drawdown_ratio (balances : list Q) (init_balance : Q)
  : result npfloat :=
  match last balances with
  | None => Raise IndexError
  | Some end_balance =>
      Ok (np_div (np_neg (total_return end_balance init_balance))
                 (max_ddpercent balances))
  end.

(** [mmds] of [BackTest.result]: the signal types the report knows, with
    their display names. *)
Definition mmds : list (string * string) :=
  [("1buy", "一类买点"); ("2buy", "二类买点"); ("l2buy", "类二类买点");
   ("3buy", "三类买点"); ("l3buy", "类三类买点");
   ("down_pz_bc_buy", "下跌盘整背驰"); ("down_qs_bc_buy", "下跌趋势背驰");
   ("1sell", "一类卖点"); ("2sell", "二类卖点"); ("l2sell", "类二类卖点");
   ("3sell", "三类卖点"); ("l3sell", "类三类卖点");
   ("up_pz_bc_sell", "上涨盘整背驰"); ("up_qs_bc_sell", "上涨趋势背驰")].

(** ** The vocabulary of the properties *)

(** The side of a signal label.  The code reads it off the label with
    ['buy' in mmd] and ['sell' in mmd]; a label is long when it carries
    ['buy'] and not ['sell'], short when it carries ['sell'] and not
    ['buy'], as every label of [mmds] is one or the other. *)
Definition is_long (m : string) : bool :=
  py_in "buy" m && negb (py_in "sell" m).

Definition is_short (m : string) : bool :=
  py_in "sell" m && negb (py_in "buy" m).

(** The bars [bi_qiang_td] looks at. *)
Definition latest_bar (cd : ICL) : Kline := seq1_last (get_klines cd).

Definition fx_last_clk (fx : FX) : CLKline := seq1_last (fx_klines fx).

Definition fx_last_bar (fx : FX) : Kline :=
  seq1_last (clk_klines (fx_last_clk fx)).

(** The conditions of a strong pause, as the specification lists them. *)
Definition strong_pause (bi : BI) (cd : ICL) : Prop :=
  let fx := bi_end bi in
  let last_k := latest_bar cd in
  fx_done fx = true
  /\ (k_index last_k - k_index (fx_last_bar fx) <= 2)%Z
  /\ clk_index (fx_last_clk fx) <> k_index last_k
  /\ ((fx_type fx = "ding"
       /\ k_c last_k < k_o last_k
       /\ k_c last_k < fx_low fx (get_config_fx_qj cd))
      \/ (fx_type fx = "di"
          /\ k_o last_k < k_c last_k
          /\ fx_high fx (get_config_fx_qj cd) < k_c last_k)).

(** The instantaneous profit rate of [check_back_return], in percent of
    the entry price. *)
Definition profit_rate_at (m : string) (pos : POSITION) (p : Q) : Q :=
  if py_in "sell" m
  then (price pos - p) / price pos * 100
  else (p - price pos) / price pos * 100.

(** The close instruction of [check_back_return]. *)
Definition back_return_close (m : string) : Operation :=
  new_Operation "sell" m (m ++ " 回调止损").

(** ** Sample data *)

Definition sample_kline (i : Z) (o c : Q) : Kline := mkKline i o c 0 0.

Definition sample_fx (t : string) (done : bool) (clk_i raw_i : Z) (low high : Q)
  : FX :=
  mkFX t done 0 0
    (mkSeq1 [] (mkCLKline clk_i (mkSeq1 [] (sample_kline raw_i 0 0))))
    (fun _ => low) (fun _ => high).

Definition sample_bi (t : string) (high low : Q) (done : bool) : BI :=
  mkBI t (sample_fx "di" true 0 0 0 0) (sample_fx "ding" true 0 0 0 0)
       high low done.

(** A long position opened at 100 with its stop at 95. *)
Definition long_100_95 : POSITION :=
  mkPOSITION "SH.600519" "1buy" None 10000 100 100 (Some 95)
             None None None 0 0 0 "" "" None.

(** A short position opened at 100 with its stop at 105. *)
Definition short_100_105 : POSITION :=
  mkPOSITION "SH.600519" "1sell" None 10000 100 100 (Some 105)
             None None None 0 0 0 "" "" None.

(** The first required key that a configuration lacks. *)
Definition first_missing (config : gmap string pyval) : option string :=
  List.find (fun k => bool_decide (config !! k = None)) check_keys.


(** A complete configuration. *)
Definition sample_config : gmap string pyval :=
  list_to_map
    [("mode", VStr "signal"); ("market", VStr "a");
     ("base_code", VStr "SH.000001"); ("codes", VList ["SH.600519"]);
     ("frequencys", VList ["d"; "30m"]);
     ("start_datetime", VStr "2022-01-01 00:00:00");
     ("end_datetime", VStr "2022-06-01 00:00:00");
     ("init_balance", VNum 1000000); ("fee_rate", VNum (6 # 10000));
     ("max_pos", VNum 3); ("cl_config", VDict []);
     ("is_stock", VBool true); ("is_futures", VBool false);
     ("strategy", VObj "StrategyA")].

(** A small position manager to run the loop on: its state is the list of
    live positions and the balance history; the strategy of the instrument
    ["BAD"] raises, any other instrument opens a position; two ticks are
    replayed. *)
Definition toy_ops : Collaborators nat (list (string * string) * list (string * Q)) :=
  mkCollaborators nat (list (string * string) * list (string * Q))
    (fun _ _ => [1%nat; 2%nat])
    (fun k tr => (tr.1, (tr.2 ++ [("tick", 100)])%list))
    (fun k c tr =>
       if String.eqb c "BAD"
       then (tr, Some "Traceback (most recent call last): ValueError")
       else (((c, "1buy") :: tr.1, tr.2), None))
    (fun _ tr => ([], tr.2))
    fst
    snd.

Definition toy_backtest : BackTest nat (list (string * string) * list (string * Q)) :=
  mkBackTest ["d"; "30m"] "SH.000001" ["SH.600519"; "BAD"; "SZ.000001"]
             None [] None ([], []) true [].

(** The calls that a run over [ticks] and [cs] is to make, in order. *)
Definition all_calls {K : Type} (ticks : list K) (cs : list string)
  : list (K * string) :=
  flat_map (fun k => map (pair k) cs) ticks.

(** The log lines that a list of calls leaves. *)
Definition calls_log {K : Type} (calls : list (call K)) : list string :=
  flat_map (fun c => failure_log c.1.2 c.2) calls.

(** The cadence [run] replays at: the one asked for, else the last of the
    configured frequencies. *)
Definition resolves_to {K T : Type} (bt : BackTest K T)
    (next_frequency : option string) (f : string) : Prop :=
  next_frequency = Some f
  \/ (next_frequency = None /\ last (bt_frequencys bt) = Some f).

(** The conditions under which the smoothed value at [i] is extracted. *)
Definition extracted (position : string) (s : list npfloat) (i : nat)
    (v : npfloat) : Prop :=
  exists x1 x2,
    (1 <= i)%nat
    /\ s !! (i - 1)%nat = Some (Fin x1)
    /\ s !! i = Some (Fin x2)
    /\ v = Fin x2
    /\ ((position = "up" /\ x1 <= x2
         /\ forall x3, s !! (i + 1)%nat = Some (Fin x3) -> x3 <= x2)
        \/ (position = "down" /\ x2 <= x1
            /\ forall x3, s !! (i + 1)%nat = Some (Fin x3) -> x2 <= x3)).

(** [may_precede before a b]: in the order that [before] sorts by, nothing
    forbids [a] from standing before [b]. *)
Definition may_precede {A : Type} (before : A -> A -> bool) (a b : A) : Prop :=
  before b a = false.

(** A point whose value is a rational. *)
Definition finite_point (p : nat * npfloat) : Prop := exists x, p.2 = Fin x.

(** The slope between two points ([v1] at index [i1], [v2] at [i2]) as a
    rational. *)
Definition rational_slope (v1 v2 : Q) (i1 i2 : nat) : Q :=
  (v1 - v2) / inject_Z (Z.of_nat i1 - Z.of_nat i2).

(** [math.degrees(math.atan(k))] on a rational slope. *)
Definition angle_of (k : Q) : R := (atan (Q2R k) * (180 / PI))%R.

(** The four ways a call can end, read off the code. *)
Inductive ratchet_outcome (pos : POSITION) (bis : list BI) (lp : Q)
  : POSITION * result unit -> Prop :=
  | ratchet_raised (b : BI) :
      last_done_bi bis = Some b -> py_in "buy" (mmd pos) = true ->
      bi_type b = "up" ->
      ratchet_outcome pos bis lp
        (set_loss_price pos (py_max lp (bi_low b)), Ok tt)
  | ratchet_lowered (b : BI) :
      last_done_bi bis = Some b -> py_in "sell" (mmd pos) = true ->
      bi_type b = "down" ->
      (py_in "buy" (mmd pos) = true -> bi_type b <> "up") ->
      ratchet_outcome pos bis lp
        (set_loss_price pos (py_min lp (bi_high b)), Ok tt)
  | ratchet_kept :
      (forall b, last_done_bi bis = Some b ->
         (py_in "buy" (mmd pos) = true -> bi_type b <> "up")
         /\ (py_in "sell" (mmd pos) = true -> bi_type b <> "down")) ->
      (last_done_bi bis = None ->
         py_in "buy" (mmd pos) = false /\ py_in "sell" (mmd pos) = false) ->
      ratchet_outcome pos bis lp (pos, Ok tt)
  | ratchet_failed :
      last_done_bi bis = None ->
      ratchet_outcome pos bis lp (pos, Raise (AttributeError "type")).

(** ** base.py: the remaining Strategy helpers *)

(** The close instruction of [check_loss]. *)
Definition stop_loss_close (m : string) : Operation :=
  new_Operation "sell" m (m ++ " 止损").

(** Modelled from the spec: what [bi_yanzhen_fx] reads of the pattern
    structure beyond the records above: the ordered fractals ([get_fxs()])
    and, of a fractal, the index [k.k_index] of its middle bar in the bar
    structure. *)
Record FXS : Type := mkFXS {
  get_fxs : list FX;
  fx_k_k_index : FX -> Z
}.

(** [Strategy.bi_yanzhen_fx] (笔验证分型). *)
Definition bi_yanzhen_fx (fs : FXS) (bi : BI) (cd : ICL) : bool :=
  let last_k := seq1_last (get_klines cd) in
  let p := k_c last_k in
  let next_fxs :=
    List.filter
      (fun fx => (fx_index (bi_end bi) <? fx_index fx)%Z
                 && String.eqb (fx_type fx) (fx_type (bi_end bi)))
      (get_fxs fs) in
  match next_fxs with
  | [] => false
  | next_fx :: _ =>
      if (fx_k_k_index fs next_fx - fx_k_k_index fs (bi_end bi) >? 3)%Z
      then false
      else if String.eqb (bi_type bi) "up" then
        if fx_done next_fx
           && Qlt_bool (fx_val next_fx) (fx_val (bi_end bi))
           && Qlt_bool p (fx_low (bi_end bi) (get_config_fx_qj cd))
        then true else false
      else if String.eqb (bi_type bi) "down" then
        if fx_done next_fx
           && Qlt_bool (fx_val (bi_end bi)) (fx_val next_fx)
           && Qlt_bool (fx_high (bi_end bi) (get_config_fx_qj cd)) p
        then true else false
      else false
  end.

(** Modelled from the spec: a line (stroke or segment) as
    [check_datetime_mmd] reads it: the time of its first bar
    ([start.k.date], a point on the time axis) and the signal types
    [line_mmds()] reports for it. *)
Record LINE : Type := mkLINE {
  line_start_date : Z;
  line_mmds : list string
}.

(** Modelled from the spec: the strokes ([get_bis()]) and the segments
    ([get_xds()]) of a pattern structure, as lines. *)
Record LINES : Type := mkLINES {
  lines_bis : list LINE;
  lines_xds : list LINE
}.

(** The inner loop of [check_datetime_mmd]: one more occurrence of each
    signal type of a line. *)
Definition count_mmds (ms : list string) (mmd_infos : gmap string nat)
  : gmap string nat :=
  foldl (fun acc m =>
           match acc !! m with
           | None => <[ m := 1%nat ]> acc
           | Some n => <[ m := (n + 1)%nat ]> acc
           end) mmd_infos ms.

(** The outer loop of [check_datetime_mmd] over [lines[::-1]]: it breaks
    at the first line that starts before [start_datetime]. *)
Fixpoint count_lines (start_datetime : Z) (reversed : list LINE)
    (mmd_infos : gmap string nat) : gmap string nat :=
  match reversed with
  | [] => mmd_infos
  | l :: rest =>
      if (start_datetime <=? line_start_date l)%Z
      then count_lines start_datetime rest (count_mmds (line_mmds l) mmd_infos)
      else mmd_infos
  end.

(** [Strategy.check_datetime_mmd]. *)
Definition check_datetime_mmd (start_datetime : Z) (cd : LINES)
    (check_line : string) : gmap string nat :=
  let lines := if String.eqb check_line "bi" then lines_bis cd else lines_xds cd in
  count_lines start_datetime (rev lines) ∅.

(** ** The vocabulary of the further properties of base.py *)

(** A fractal that [bi_yanzhen_fx] takes for a candidate: later than the
    ending fractal of the stroke and of its kind. *)
Definition follows_end (bi : BI) (fx : FX) : bool :=
  (fx_index (bi_end bi) <? fx_index fx)%Z
  && String.eqb (fx_type fx) (fx_type (bi_end bi)).

(** What the candidate [nx] has to show to confirm the end of the stroke. *)
Definition confirms_end (fs : FXS) (bi : BI) (cd : ICL) (nx : FX) : Prop :=
  (fx_k_k_index fs nx - fx_k_k_index fs (bi_end bi) <= 3)%Z
  /\ fx_done nx = true
  /\ ((bi_type bi = "up"
       /\ fx_val nx < fx_val (bi_end bi)
       /\ k_c (latest_bar cd) < fx_low (bi_end bi) (get_config_fx_qj cd))
      \/ (bi_type bi = "down"
          /\ fx_val (bi_end bi) < fx_val nx
          /\ fx_high (bi_end bi) (get_config_fx_qj cd) < k_c (latest_bar cd))).

(** A line that starts at [start_datetime] or later. *)
Definition recent (start_datetime : Z) (l : LINE) : Prop :=
  (start_datetime <= line_start_date l)%Z.

(** How often the signal type [m] occurs among [ms]. *)
Definition occurrences (m : string) (ms : list string) : nat :=
  length (filter (fun x => x = m) ms).

(** The count a dict of counts holds for [m], 0 for a missing key. *)
Definition tally (counts : gmap string nat) (m : string) : nat :=
  default 0%nat (counts !! m).

(** A dict of counts holds no zero. *)
Definition counted (counts : gmap string nat) : Prop :=
  forall m n, counts !! m = Some n -> (0 < n)%nat.

(** ** backtest.py: BackTest.save and BackTest.load *)

(** [self.name]: an attribute that was never assigned raises. *)
Definition getattr (self : gmap string attr) (name : string) : result attr :=
  match self !! name with
  | Some a => Ok a
  | None => Raise (AttributeError name)
  end.

(** [self.log.info(line)]: the line logged. *)
Definition log_info (self : gmap string attr) (line : string)
  : result (list string) :=
  lg ← getattr self "log";
  match lg with
  | ALogger => Ok [line]
  | _ => Raise (AttributeError "info")
  end.

(** The keys of [save_dict], in the order of the dict display. *)
Definition saved_names : list string :=
  ["save_file"; "mode"; "market"; "base_code"; "codes"; "frequencys";
   "start_datetime"; "end_datetime"; "init_balance"; "fee_rate"; "max_pos";
   "cl_config"; "is_stock"; "is_futures"; "strategy"; "trader";
   "next_frequency"].

(** The dict display of [save]: each value is read off the object in turn,
    and the first attribute that is missing raises. *)
Fixpoint read_attrs (self : gmap string attr) (names : list string)
  : result (list (string * attr)) :=
  match names with
  | [] => Ok []
  | n :: rest =>
      a ← getattr self n;
      more ← read_attrs self rest;
      Ok ((n, a) :: more)
  end.

(** The files pickled dicts are kept in: a path holds the dict last dumped
    to it.  The store is taken to be writable; an exception class for which
    [exn] has no constructor is an [Exception] whose message starts with
    the name of the class. *)
Definition files : Type := gmap string (gmap string attr).

(** [BackTest.save]: the files after the call and the lines logged.  Of a
    [save_file] that is neither [None] nor a string the embedding keeps
    only that [open] rejects it. *)
Definition save (self : gmap string attr) (fs : files)
  : result (files * list string) :=
  sf ← getattr self "save_file";
  match sf with
  | AVal VNone => Ok (fs, [])
  | _ =>
      entries ← read_attrs self saved_names;
      match sf with
      | AVal (VStr path) =>
          lg ← log_info self ("save to : " ++ path);
          Ok (<[ path := list_to_map entries ]> fs, lg)
      | _ =>
          _ ← log_info self "save to : ";
          Raise (Exception "TypeError: expected str, bytes or os.PathLike object")
      end
  end.

(** The value a constructor receives when it is handed an attribute. *)
Definition attr_value (a : attr) : pyval :=
  match a with
  | AVal v => v
  | ALogger => VObj "Logger"
  | ATrader _ _ => VObj "BackTestTrader"
  | ADatas _ => VObj "BackTestKlines"
  end.

(** The assignments [self.name = config_dict['name']] of [load], in their
    order: the object as the assignments leave it, and the key that was
    missing if one was. *)
Fixpoint assign_from (config_dict : gmap string attr) (names : list string)
    (self : gmap string attr) : gmap string attr * result unit :=
  match names with
  | [] => (self, Ok tt)
  | n :: rest =>
      match config_dict !! n with
      | Some a => assign_from config_dict rest (<[ n := a ]> self)
      | None => (self, Raise (KeyError n))
      end
  end.

(** [BackTest.load]: the object after the call, and the lines logged or
    the exception. *)
Definition load (self : gmap string attr) (fs : files) (_file : string)
  : gmap string attr * result (list string) :=
  match fs !! _file with
  | None => (self, Raise (Exception ("FileNotFoundError: " ++ _file)))
  | Some config_dict =>
      match assign_from config_dict saved_names self with
      | (self1, Raise e) => (self1, Raise e)
      | (self1, Ok _) =>
          match
            (market ← getattr self1 "market";
             start_datetime ← getattr self1 "start_datetime";
             end_datetime ← getattr self1 "end_datetime";
             frequencys ← getattr self1 "frequencys";
             cl_config ← getattr self1 "cl_config";
             Ok (mkKlinesArgs (attr_value market) (attr_value start_datetime)
                              (attr_value end_datetime) (attr_value frequencys)
                              (attr_value cl_config)))
          with
          | Raise e => (self1, Raise e)
          | Ok datas =>
              let self2 := <[ "datas" := ADatas datas ]> self1 in
              (self2, log_info self2 "Load OK")
          end
      end
  end.

(** A complete configuration that names a file to save to, the object
    built from it, and the object [BackTest()] builds. *)
Definition saved_config : gmap string pyval :=
  <[ "save_file" := VStr "backtest.pkl" ]> sample_config.

Definition object_of (r : result (gmap string attr)) : gmap string attr :=
  match r with
  | Ok obj => obj
  | Raise _ => ∅
  end.

Definition saved_object : gmap string attr :=
  object_of (BackTest_init (Some saved_config)).

Definition bare_object : gmap string attr :=
  object_of (BackTest_init None).

(** The names of the attributes [__init__] assigns. *)
Definition init_names : list string :=
  ["log"; "save_file"; "trader"; "datas"; "next_frequency"] ++ check_keys.

(** ** backtest.py: the table of BackTest.result *)

(** [mmds[k]]. *)
Definition mmd_name (k : string) : result string :=
  match List.find (fun p => String.eqb p.1 k) mmds with
  | Some p => Ok p.2
  | None => Raise (KeyError k)
  end.

(** The loop over [self.trader.results.keys()]: [results] lists the items of
    the dict in its order; a row is the display name of the signal type with
    the values computed for it (the counts and the two gross amounts are
    copied into the row as they are). *)
Fixpoint result_table (results : list (string * MmdResult))
  : result (list (string * Row)) :=
  match results with
  | [] => Ok []
  | (k, r) :: rest =>
      name ← mmd_name k;
      row ← result_row r;
      tb ← result_table rest;
      Ok ((name, row) :: tb)
  end.

(** The percentage drawdown of a balance under the high [h]. *)
Definition dd_value (b h : Q) : Q := (b - h) / h * 100.

(** ** backtest.py: BackTest.positions *)

(** The values a row of the positions table holds. *)
Inductive cell : Type :=
  | CStr (s : string)
  | CNum (q : Q)
  | CStrOpt (s : option string)
  | CNumOpt (q : option Q).

(** [p_obj] as the dict display builds it: ['code'] is the key of
    [positions_history] the position is listed under. *)
Definition p_obj (_code : string) (p : POSITION) : gmap string cell :=
  list_to_map
    [("code", CStr _code); ("mmd", CStr (mmd p));
     ("open_datetime", CStrOpt (open_datetime p));
     ("close_datetime", CStrOpt (close_datetime p));
     ("type", CStrOpt (pos_type p)); ("price", CNum (price p));
     ("amount", CNum (amount p)); ("loss_price", CNumOpt (loss_price p));
     ("profit_rate", CNum (profit_rate p));
     ("max_profit_rate", CNum (max_profit_rate p));
     ("max_loss_rate", CNum (max_loss_rate p));
     ("open_msg", CStr (open_msg p)); ("close_msg", CStr (close_msg p))].

(** [p.info[_col]]; [info] lists the items of the dict, [None] cannot be
    subscripted. *)
Definition info_getitem (info : option (list (string * string)))
    (_col : string) : result string :=
  match info with
  | None => Raise (Exception "TypeError: 'NoneType' object is not subscriptable")
  | Some d =>
      match List.find (fun kv => String.eqb kv.1 _col) d with
      | Some kv => Ok kv.2
      | None => Raise (KeyError _col)
      end
  end.

(** [for _col in add_columns: p_obj[_col] = p.info[_col]]. *)
Fixpoint add_info (p : POSITION) (add_columns : list string)
    (obj : gmap string cell) : result (gmap string cell) :=
  match add_columns with
  | [] => Ok obj
  | _col :: rest =>
      v ← info_getitem (info p) _col;
      add_info p rest (<[ _col := CStr v ]> obj)
  end.

Definition position_row (_code : string) (p : POSITION)
    (add_columns : option (list string)) : result (gmap string cell) :=
  match add_columns with
  | None => Ok (p_obj _code p)
  | Some cols => add_info p cols (p_obj _code p)
  end.

Fixpoint position_rows (_code : string) (ps : list POSITION)
    (add_columns : option (list string)) : result (list (gmap string cell)) :=
  match ps with
  | [] => Ok []
  | p :: rest =>
      row ← position_row _code p add_columns;
      more ← position_rows _code rest add_columns;
      Ok (row :: more)
  end.

(** [BackTest.positions]: [positions_history] lists the items of
    [trader.positions_history] in the order of the dict; the result is the
    list of rows the data frame is built from. *)
Fixpoint positions (positions_history : list (string * list POSITION))
    (code : option string) (add_columns : option (list string))
  : result (list (gmap string cell)) :=
  match positions_history with
  | [] => Ok []
  | (_code, ps) :: rest =>
      if match code with
         | Some c => negb (String.eqb _code c)
         | None => false
         end
      then positions rest code add_columns
      else
        rows ← position_rows _code ps add_columns;
        more ← positions rest code add_columns;
        Ok (rows ++ more)%list
  end.

(** The positions of every code, in the order of the history. *)
Definition all_positions (positions_history : list (string * list POSITION))
  : list POSITION :=
  flat_map snd positions_history.

(** A position carries every column asked for. *)
Definition has_columns (cols : list string) (p : POSITION) : Prop :=
  forall col, In col cols -> exists v, info_getitem (info p) col = Ok v.

(** A file that holds a dict with the single key [save_file]. *)
Definition truncated_file : files :=
  {[ "old.pkl" := {[ "save_file" := AVal VNone ]} ]}.

(** ** backtest.py: BackTest.backtest_charts *)

(** A series of the chart: the two lists ['datetime'] and ['val']. *)
Record Series (V : Type) : Type := mkSeries {
  sr_datetime : list string;
  sr_val : list V
}.

Arguments mkSeries {V} sr_datetime sr_val.
Arguments sr_datetime {V} s.
Arguments sr_val {V} s.

(** The two [append] calls on a series. *)
Definition push {V : Type} (s : Series V) (_dt : string) (v : V) : Series V :=
  mkSeries (sr_datetime s ++ [_dt])%list (sr_val s ++ [v])%list.

(** [sorted(positions, key=lambda p: p.close_datetime)]: the keys are
    strings or [None], and [None] cannot be compared; a list of fewer than
    two positions is returned without a comparison. *)
Definition close_before (a b : POSITION) : bool :=
  match close_datetime a, close_datetime b with
  | Some x, Some y => String.ltb x y
  | _, _ => false
  end.

Definition sorted_by_close (ps : list POSITION) : result (list POSITION) :=
  match ps with
  | [] | [_] => Ok ps
  | _ =>
      if forallb (fun p => match close_datetime p with
                           | Some _ => true
                           | None => false
                           end) ps
      then Ok (py_sorted close_before ps)
      else Raise (Exception
             "TypeError: '<' not supported between instances of 'NoneType' and 'str'")
  end.

(** [(_p.profit_rate / 100) * _p.balance]. *)
Definition net_profit (p : POSITION) : Q := (profit_rate p / 100) * balance p.

(** A dict that sums per key, listed in the order of its keys:
    [d[k] = v] when [k] is new, [d[k] += v] otherwise. *)
Fixpoint dict_add {K V : Type} `{EqDecision K} (add : V -> V -> V)
    (d : list (K * V)) (k : K) (v : V) : list (K * V) :=
  match d with
  | [] => [(k, v)]
  | (k', v') :: rest =>
      if decide (k' = k) then (k', add v' v) :: rest
      else (k', v') :: dict_add add rest k v
  end.

(** [d[k]] where [k in d.keys()]. *)
Fixpoint dict_get {K V : Type} `{EqDecision K} (d : list (K * V)) (k : K)
  : option V :=
  match d with
  | [] => None
  | (k', v') :: rest => if decide (k' = k) then Some v' else dict_get rest k
  end.

(** [dts_total_nps]: the net profit closed at each time. *)
Definition total_nps (positions : list POSITION) : list (option string * Q) :=
  foldl (fun d p => dict_add Qplus d (close_datetime p) (net_profit p))
        [] positions.

(** [_hold_profit_sums] and [_hold_num_sums], which have the same keys:
    per time, the sum of the open profit of the codes and the number of
    codes whose open profit is not 0. *)
Definition hold_sums (hold_profit_history : list (string * list (string * Q)))
  : list (string * (Q * Z)) :=
  foldl (fun d dp =>
           dict_add (fun a b => (a.1 + b.1, (a.2 + b.2)%Z)) d dp.1
                    (dp.2, if Qeq_bool dp.2 0 then 0%Z else 1%Z))
        [] (flat_map snd hold_profit_history).

(** The state of the loop over the dates. *)
Record ChartState : Type := mkChartState {
  cs_base_datetime : list string;
  cs_balance : Series Q;
  cs_net_profit : Series Q;
  cs_hold_profit : Series Q;
  cs_hold_num : Series Z;
  cs_total_np : Q
}.

Definition chart_start : ChartState :=
  mkChartState [] (mkSeries [] []) (mkSeries [] []) (mkSeries [] [])
               (mkSeries [] []) 0.

(** One round of [for _dt in dts]. *)
Definition chart_step (balance_history : gmap string Q)
    (dts_total_nps : list (option string * Q))
    (sums : list (string * (Q * Z))) (st : ChartState) (_dt : string)
  : ChartState :=
  let b :=
    match balance_history !! _dt with
    | Some b => b
    | None => match last (sr_val (cs_balance st)) with
              | Some prev => prev
              | None => 0
              end
    end in
  let total_np :=
    match dict_get dts_total_nps (Some _dt) with
    | Some np => cs_total_np st + np
    | None => cs_total_np st
    end in
  let hold := match dict_get sums _dt with
              | Some s => s
              | None => (0, 0%Z)
              end in
  mkChartState (cs_base_datetime st ++ [_dt])%list
               (push (cs_balance st) _dt b)
               (push (cs_net_profit st) _dt total_np)
               (push (cs_hold_profit st) _dt hold.1)
               (push (cs_hold_num st) _dt hold.2)
               total_np.

(** The state after the rounds of the dates [dts]. *)
Definition chart_after (balance_history : gmap string Q)
    (dts_total_nps : list (option string * Q))
    (sums : list (string * (Q * Z))) (dts : list string) : ChartState :=
  foldl (chart_step balance_history dts_total_nps sums) chart_start dts.

(** The five series handed to the chart builder. *)
Record Charts : Type := mkCharts {
  ch_base_prices : Series Q;
  ch_balance_history : Series Q;
  ch_net_profit_history : Series Q;
  ch_hold_profit_history : Series Q;
  ch_hold_num_history : Series Z
}.

(** [BackTest.backtest_charts] up to the call of the chart builder.
    [base_klines] lists the bars of the base code by date (as [strftime]
    prints it) and close; the three histories are the trader's. *)
Definition backtest_charts (base_klines : list (string * Q))
    (positions_history : list (string * list POSITION))
    (hold_profit_history : list (string * list (string * Q)))
    (balance_history : gmap string Q) : result Charts :=
  positions ← sorted_by_close (all_positions positions_history);
  let st :=
    chart_after balance_history (total_nps positions)
                (hold_sums hold_profit_history) (map fst base_klines) in
  Ok (mkCharts (mkSeries (cs_base_datetime st) (map snd base_klines))
               (cs_balance st) (cs_net_profit st) (cs_hold_profit st)
               (cs_hold_num st)).

(** The sum of a list of numbers. *)
Definition Qsum (l : list Q) : Q := foldr Qplus 0 l.

(** The net profit of the positions closed at a time. *)
Definition closed_at (ps : list POSITION) (_dt : string) : Q :=
  Qsum (map net_profit
          (List.filter (fun p => bool_decide (close_datetime p = Some _dt)) ps)).

(** A position closed at [close] with [rate] percent on a balance of
    1000. *)
Definition closed_position (c : string) (close : string) (rate : Q) : POSITION :=
  mkPOSITION c "1buy" None 1000 0 0 None None None (Some close) rate 0 0
             "" "" None.

(** Three bars, one position closed at the second with 10 percent on 1000,
    and a balance recorded at the first bar only. *)
Definition sample_klines : list (string * Q) :=
  [("2023-01-03 00:00:00", 10); ("2023-01-04 00:00:00", 11);
   ("2023-01-05 00:00:00", 12)].

Definition sample_history : list (string * list POSITION) :=
  [("SH.600519", [closed_position "SH.600519" "2023-01-04 00:00:00" 10])].

Definition sample_balances : gmap string Q :=
  {[ "2023-01-03 00:00:00" := 1000 ]}.

Definition sample_charts : Charts :=
  match backtest_charts sample_klines sample_history [] sample_balances with
  | Ok ch => ch
  | Raise _ =>
      mkCharts (mkSeries [] []) (mkSeries [] []) (mkSeries [] [])
               (mkSeries [] []) (mkSeries [] [])
  end.

(** The records of the open profit at a time, over all codes. *)
Definition held_at (hold_profit_history : list (string * list (string * Q)))
    (_dt : string) : list Q :=
  map snd (List.filter (fun dp => bool_decide (dp.1 = _dt))
                       (flat_map snd hold_profit_history)).

(** * Properties *)

(** ** Rational comparisons *)

Lemma Qlt_bool_iff (a b : Q) : Qlt_bool a b = true <-> a < b.
Proof.
  unfold Qlt_bool. rewrite negb_true_iff.
  destruct (Qle_bool b a) eqn:E.
  - apply Qle_bool_iff in E. split; [discriminate | intros H].
    exfalso. exact (Qlt_not_le _ _ H E).
  - split; [intros _ | reflexivity].
    apply Qnot_le_lt. intros H. apply Qle_bool_iff in H. congruence.
Qed.

Lemma Qlt_bool_false (a b : Q) : Qlt_bool a b = false <-> b <= a.
Proof.
  unfold Qlt_bool. rewrite negb_false_iff. apply Qle_bool_iff.
Qed.

Lemma py_max_lower (a b : Q) : a <= py_max a b.
Proof.
  unfold py_max. destruct (Qlt_bool a b) eqn:E.
  - apply Qlt_bool_iff in E. apply Qlt_le_weak, E.
  - apply Qle_refl.
Qed.

Lemma py_min_upper (a b : Q) : py_min a b <= a.
Proof.
  unfold py_min. destruct (Qlt_bool b a) eqn:E.
  - apply Qlt_bool_iff in E. apply Qlt_le_weak, E.
  - apply Qle_refl.
Qed.

(** [max] moves off its first argument only to a larger second one. *)
Lemma py_max_moves (a b : Q) : a < py_max a b -> py_max a b = b.
Proof.
  unfold py_max. destruct (Qlt_bool a b); [reflexivity | intros H].
  exfalso. exact (Qlt_irrefl _ H).
Qed.

Lemma py_min_moves (a b : Q) : py_min a b < a -> py_min a b = b.
Proof.
  unfold py_min. destruct (Qlt_bool b a); [reflexivity | intros H].
  exfalso. exact (Qlt_irrefl _ H).
Qed.

(** ** The trailing stop *)

Lemma loss_price_set (pos : POSITION) (v : Q) :
  loss_price (set_loss_price pos v) = Some v.
Proof. reflexivity. Qed.

Lemma mmd_set_loss_price (pos : POSITION) (v : Q) :
  mmd (set_loss_price pos v) = mmd pos.
Proof. reflexivity. Qed.

Lemma dynamic_change_loss_cases (pos : POSITION) (bis : list BI) (lp : Q) :
  loss_price pos = Some lp ->
  ratchet_outcome pos bis lp (dynamic_change_loss_by_bi pos bis).
Proof.
  intros Hlp. unfold dynamic_change_loss_by_bi. rewrite Hlp.
  destruct (last_done_bi bis) as [b|] eqn:Hb; simpl.
  - destruct (py_in "buy" (mmd pos)) eqn:Hbuy; simpl.
    + destruct (String.eqb (bi_type b) "up") eqn:Hup.
      * apply String.eqb_eq in Hup. now apply ratchet_raised.
      * apply String.eqb_neq in Hup.
        destruct (py_in "sell" (mmd pos)) eqn:Hsell; simpl.
        -- destruct (String.eqb (bi_type b) "down") eqn:Hdn.
           ++ apply String.eqb_eq in Hdn. now apply ratchet_lowered.
           ++ apply String.eqb_neq in Hdn.
              apply ratchet_kept; [| congruence].
              intros b' Hb'; assert (b' = b) as -> by congruence. now split.
        -- apply ratchet_kept; [| congruence].
           intros b' Hb'; assert (b' = b) as -> by congruence. split; [(intros; congruence) | (intros; congruence)].
    + destruct (py_in "sell" (mmd pos)) eqn:Hsell; simpl.
      * destruct (String.eqb (bi_type b) "down") eqn:Hdn.
        -- apply String.eqb_eq in Hdn.
           apply ratchet_lowered; auto. (intros; congruence).
        -- apply String.eqb_neq in Hdn.
           apply ratchet_kept; [| congruence].
           intros b' Hb'; assert (b' = b) as -> by congruence. split; [(intros; congruence) | (intros; congruence)].
      * apply ratchet_kept; [| congruence].
        intros b' _. split; (intros; congruence).
  - destruct (py_in "buy" (mmd pos)) eqn:Hbuy; simpl.
    + now apply ratchet_failed.
    + destruct (py_in "sell" (mmd pos)) eqn:Hsell; simpl.
      * now apply ratchet_failed.
      * apply ratchet_kept; [intros; congruence | intros; split; congruence].
Qed.

Lemma is_long_inv (m : string) :
  is_long m = true -> py_in "buy" m = true /\ py_in "sell" m = false.
Proof.
  unfold is_long. intros H. apply andb_true_iff in H as [H1 H2].
  apply negb_true_iff in H2. now split.
Qed.

Lemma is_short_inv (m : string) :
  is_short m = true -> py_in "sell" m = true /\ py_in "buy" m = false.
Proof.
  unfold is_short. intros H. apply andb_true_iff in H as [H1 H2].
  apply negb_true_iff in H2. now split.
Qed.

(** Every signal type of the report table has exactly one side, and the
    side is the one its ['buy'] or ['sell'] announces. *)
Lemma mmds_have_one_side (m : string) :
  In m (map fst mmds) ->
  is_long m = py_in "buy" m /\ is_short m = py_in "sell" m
  /\ is_long m = negb (is_short m).
Proof.
  simpl. intros H.
  repeat (destruct H as [<- | H]; [vm_compute; auto |]). destruct H.
Qed.



(** The scenario of the specification: the stop at 95 goes to 97 under a
    completed upward stroke with low 97, and a downward stroke that
    completes next leaves it at 97. *)
Example ratchet_scenario :
  let after_up :=
    (dynamic_change_loss_by_bi long_100_95 [sample_bi "up" 105 97 true]).1 in
  let after_down :=
    (dynamic_change_loss_by_bi after_up
       [sample_bi "up" 105 97 true; sample_bi "down" 105 90 true]).1 in
  loss_price after_up = Some 97 /\ loss_price after_down = Some 97.
Proof. split; reflexivity. Qed.

(** [last_done_bi] finds nothing exactly when no stroke is completed. *)
Lemma last_done_bi_None (bis : list BI) :
  last_done_bi bis = None <-> forall b, In b bis -> bi_is_done b = false.
Proof.
  unfold last_done_bi. split.
  - intros H b Hb. apply (find_none _ _ H). now apply in_rev in Hb.
  - intros H. destruct (find bi_is_done (rev bis)) as [b|] eqn:E; [| reflexivity].
    apply find_some in E as [Hin Hdone]. apply in_rev in Hin.
    rewrite (H b Hin) in Hdone. discriminate.
Qed.

(** Without a stop the call returns and changes nothing. *)
Lemma dynamic_change_loss_no_stop (pos : POSITION) (bis : list BI) :
  loss_price pos = None -> dynamic_change_loss_by_bi pos bis = (pos, Ok tt).
Proof. intros H. unfold dynamic_change_loss_by_bi. now rewrite H. Qed.

(** C2. With a stop set and no completed stroke in the list, the call on a
    position whose label carries ['buy'] or ['sell'] does not return: the
    attribute [type] is read on the [None] that [last_done_bi] answered and
    AttributeError leaves the call; the position is as it was. *)
Theorem dynamic_change_loss_no_done_bi_raises
    (pos : POSITION) (bis : list BI) (lp : Q) :
  loss_price pos = Some lp ->
  (forall b, In b bis -> bi_is_done b = false) ->
  py_in "buy" (mmd pos) || py_in "sell" (mmd pos) = true ->
  dynamic_change_loss_by_bi pos bis = (pos, Raise (AttributeError "type")).
Proof.
  intros Hlp Hnone Hside. apply last_done_bi_None in Hnone.
  unfold dynamic_change_loss_by_bi. rewrite Hlp, Hnone. simpl.
  destruct (py_in "buy" (mmd pos)); simpl; [reflexivity |].
  simpl in Hside. now rewrite Hside.
Qed.

(** The long position with its stop at 95 and an empty stroke list. *)
Lemma dynamic_change_loss_no_done_bi_raises_witness :
  dynamic_change_loss_by_bi long_100_95 []
  = (long_100_95, Raise (AttributeError "type")).
Proof.
  apply (dynamic_change_loss_no_done_bi_raises long_100_95 [] 95).
  - reflexivity.
  - intros b Hb. destruct Hb.
  - reflexivity.
Defined.

(** ** The strong pause *)


(** A confirmed peak whose last bar is bar 10, then a bearish bar 11 that
    closes below the band, is a strong pause; the same bar three indices
    further is too far off. *)
Example bi_qiang_td_samples :
  let bi := mkBI "up" (sample_fx "di" true 0 0 0 0)
                 (sample_fx "ding" true 7 10 50 60) 60 40 true in
  bi_qiang_td bi (mkICL (mkSeq1 [] (sample_kline 11 52 49)) "fx_qj_k" []) = true
  /\ bi_qiang_td bi (mkICL (mkSeq1 [] (sample_kline 13 52 49)) "fx_qj_k" [])
     = false
  /\ bi_qiang_td bi (mkICL (mkSeq1 [] (sample_kline 11 49 52)) "fx_qj_k" [])
     = false.
Proof. repeat split; reflexivity. Qed.

(** ** The give-back stop *)

Lemma Qeq_bool_false_iff (a b : Q) : Qeq_bool a b = false <-> ~ a == b.
Proof.
  split.
  - intros H E. apply Qeq_bool_iff in E. congruence.
  - intros H. destruct (Qeq_bool a b) eqn:E; [| reflexivity].
    apply Qeq_bool_iff in E. contradiction.
Qed.

Lemma back_profit_rate_zero_entry (m : string) (pos : POSITION) (p : Q) :
  price pos == 0 -> back_profit_rate m pos p = Raise ZeroDivisionError.
Proof.
  intros H. apply Qeq_bool_iff in H.
  unfold back_profit_rate, py_div. rewrite H. now destruct (py_in "sell" m).
Qed.

Lemma back_profit_rate_defined (m : string) (pos : POSITION) (p : Q) :
  ~ price pos == 0 -> back_profit_rate m pos p = Ok (profit_rate_at m pos p).
Proof.
  intros H. apply Qeq_bool_false_iff in H.
  unfold back_profit_rate, profit_rate_at, py_div. rewrite H.
  now destruct (py_in "sell" m).
Qed.

(** The three ways [check_back_return] ends when a rate is given. *)
Lemma check_back_return_cases (m : string) (pos : POSITION) (p rate : Q) :
  (price pos == 0
   /\ check_back_return m pos p (Some rate) = Raise ZeroDivisionError)
  \/ (~ price pos == 0
      /\ 0 < profit_rate_at m pos p
      /\ rate <= max_profit_rate pos - profit_rate_at m pos p
      /\ check_back_return m pos p (Some rate) = Ok (Some (back_return_close m)))
  \/ (~ price pos == 0
      /\ ~ (0 < profit_rate_at m pos p
            /\ rate <= max_profit_rate pos - profit_rate_at m pos p)
      /\ check_back_return m pos p (Some rate) = Ok None).
Proof.
  destruct (Qeq_dec (price pos) 0) as [Hz | Hnz].
  - left. split; [exact Hz |]. unfold check_back_return.
    now rewrite (back_profit_rate_zero_entry m pos p Hz).
  - right. unfold check_back_return.
    rewrite (back_profit_rate_defined m pos p Hnz). simpl.
    destruct (Qlt_bool 0 (profit_rate_at m pos p)) eqn:E1; simpl.
    + apply Qlt_bool_iff in E1.
      destruct (Qle_bool rate (max_profit_rate pos - profit_rate_at m pos p))
        eqn:E2.
      * apply Qle_bool_iff in E2. left. auto.
      * right. repeat split; auto. intros [_ H].
        apply Qle_bool_iff in H. congruence.
    + right. repeat split; auto. intros [H _].
      apply Qlt_bool_iff in H. congruence.
Qed.


(** Take a goal made of equivalences over outcomes apart and close the
    pieces by discrimination or from the hypotheses. *)
Ltac break_down :=
  repeat match goal with
         | |- _ <-> _ => split
         | |- _ /\ _ => split
         | |- ~ _ => intro
         | |- forall _, _ => intro
         | H : exists _, _ |- _ => destruct H
         | H : _ /\ _ |- _ => destruct H
         | H : Some _ = Some _ |- _ => injection H as H; subst
         | H : Ok _ = Ok _ |- _ => injection H as H; subst
         end;
  try discriminate; try contradiction; try congruence; eauto 8; try tauto;
  try solve [exfalso;
             match goal with H : ~ _ |- _ => apply H; solve [eauto 8] end].


(** A long position entered at 100 whose profit peaked at 12 percent gives
    back 7 points at 105 and is closed under a rate of 5; at 110 it has
    given back 2 and stays open. *)
Example check_back_return_samples :
  let pos := mkPOSITION "SH.600519" "1buy" None 10000 100 100 (Some 95)
                        None None None 0 12 0 "" "" None in
  check_back_return "1buy" pos 105 (Some 5)
  = Ok (Some (back_return_close "1buy"))
  /\ check_back_return "1buy" pos 110 (Some 5) = Ok None
  /\ check_back_return "1buy" pos 105 None = Ok None
  /\ check_back_return "1buy" pos 95 (Some 5) = Ok None.
Proof. repeat split; reflexivity. Qed.

(** ** The ratios of the report *)

Lemma Q_of_N_zero (n : N) : Q_of_N n == 0 <-> n = 0%N.
Proof.
  unfold Q_of_N, Qeq. simpl. rewrite Z.mul_1_r. lia.
Qed.

Lemma py_div_defined (a b : Q) : ~ b == 0 -> py_div a b = Ok (a / b).
Proof.
  intros H. apply Qeq_bool_false_iff in H. unfold py_div. now rewrite H.
Qed.

(** The win rate divides by the number of closed trades and is 0 when
    there is none. *)
Lemma shenglv_guarded (r : MmdResult) :
  (exists q, shenglv r = Ok q)
  /\ ((win_num r + loss_num r)%N = 0%N -> shenglv r = Ok 0).
Proof.
  unfold shenglv.
  destruct (N.eqb_spec (win_num r) 0) as [Hw | Hw];
    destruct (N.eqb_spec (loss_num r) 0) as [Hl | Hl]; simpl;
    try (split; [eauto | reflexivity]);
    (rewrite py_div_defined by (rewrite Q_of_N_zero; lia);
     split; [simpl; eauto | lia]).
Qed.

(** The give-back ratio divides by the gross win and is 0 when that is 0. *)
Lemma back_rate_guarded (r : MmdResult) :
  (exists q, back_rate r = Ok q)
  /\ (win_balance r == 0 -> back_rate r = Ok 0).
Proof.
  unfold back_rate. destruct (Qeq_bool (win_balance r) 0) eqn:E.
  - split; [eauto | reflexivity].
  - apply Qeq_bool_false_iff in E. rewrite py_div_defined by exact E.
    split; [simpl; eauto | contradiction].
Qed.

(** The mean win divides by the win count and is 0 when that is 0. *)
Lemma win_mean_balance_guarded (r : MmdResult) :
  (exists q, win_mean_balance r = Ok q)
  /\ (win_num r = 0%N -> win_mean_balance r = Ok 0).
Proof.
  unfold win_mean_balance. destruct (N.eqb_spec (win_num r) 0) as [H | H].
  - split; [eauto | reflexivity].
  - rewrite py_div_defined by (rewrite Q_of_N_zero; exact H).
    split; [eauto | contradiction].
Qed.

(** The mean loss divides by the loss count and is 0 when that is 0. *)
Lemma loss_mean_balance_guarded (r : MmdResult) :
  (exists q, loss_mean_balance r = Ok q)
  /\ (loss_num r = 0%N -> loss_mean_balance r = Ok 0).
Proof.
  unfold loss_mean_balance. destruct (N.eqb_spec (loss_num r) 0) as [H | H].
  - split; [eauto | reflexivity].
  - rewrite py_div_defined by (rewrite Q_of_N_zero; exact H).
    split; [eauto | contradiction].
Qed.

(** The profit/loss ratio divides by the mean loss and is 0 when that is
    0. *)
Lemma ykb_guarded (r : MmdResult) :
  (exists q, ykb r = Ok q)
  /\ (forall lm, loss_mean_balance r = Ok lm -> lm == 0 -> ykb r = Ok 0).
Proof.
  unfold ykb.
  destruct (win_mean_balance_guarded r) as [[wm Hwm] _].
  destruct (loss_mean_balance_guarded r) as [[lm Hlm] _].
  rewrite Hwm, Hlm. simpl.
  destruct (Qeq_bool lm 0) eqn:E; simpl.
  - split; [eauto |]. reflexivity.
  - apply Qeq_bool_false_iff in E. split.
    + destruct (Qeq_bool wm 0); [eauto |].
      rewrite py_div_defined by exact E. eauto.
    + intros lm' [= <-] Hz. contradiction.
Qed.

(** No row of the table raises. *)
Lemma result_row_total (r : MmdResult) : exists row, result_row r = Ok row.
Proof.
  unfold result_row.
  destruct (shenglv_guarded r) as [[s ->] _].
  destruct (back_rate_guarded r) as [[b ->] _].
  destruct (win_mean_balance_guarded r) as [[wm ->] _].
  destruct (loss_mean_balance_guarded r) as [[lm ->] _].
  destruct (ykb_guarded r) as [[y ->] _].
  simpl. eauto.
Qed.

(** The Sharpe-like ratio divides by the deviation of the returns and is 0
    when that is 0. *)
Lemma sharpe_ratio_guarded (np_sqrt : Q -> npfloat) (market : string)
    (daily_return : npfloat) (std : Q) :
  std == 0 -> sharpe_ratio np_sqrt market daily_return (Fin std) = Fin 0.
Proof.
  intros H. apply Qeq_bool_iff in H. unfold sharpe_ratio. simpl.
  now rewrite H.
Qed.

(** The table of the specification: 3 wins of 10, 20 and 30 and 2 losses
    of 5 and 15 under ['1buy']. *)
Example result_row_scenario :
  exists row, result_row (mkMmdResult 3 2 60 20) = Ok row
    /\ row_shenglv row == 60
    /\ row_net_balance row == 40
    /\ row_back_rate row == 100 / 3
    /\ row_win_mean_balance row == 20
    /\ row_loss_mean_balance row == 10
    /\ row_ykb row == 2.
Proof. eexists. split; [reflexivity |]. repeat split; reflexivity. Qed.

Lemma np_signed_inf_not_finite (x : Q) : is_finite (np_signed_inf x) = false.
Proof.
  unfold np_signed_inf.
  destruct (Qlt_bool 0 x); [reflexivity |]. now destruct (Qlt_bool x 0).
Qed.

(** C3. The return/drawdown ratio has no guard: whenever the largest
    percentage drawdown is 0, which it is as soon as the balance never
    falls below an earlier one, [-total_return / max_ddpercent] divides by
    zero and the ratio is an infinity or NaN, not 0. *)
Theorem return_drawdown_ratio_unguarded
    (balances : list Q) (init_balance dd : Q) :
  max_ddpercent balances = Fin dd ->
  dd == 0 ->
  exists v, return_drawdown_ratio balances init_balance = Ok v
            /\ is_finite v = false.
Proof.
  intros Hdd Hz. unfold return_drawdown_ratio. rewrite Hdd.
  destruct (last balances) as [e |] eqn:El.
  - eexists. split; [reflexivity |].
    apply Qeq_bool_iff in Hz.
    destruct (total_return e init_balance) as [x | | |]; simpl;
      try rewrite Hz; try reflexivity.
    + apply np_signed_inf_not_finite.
    + now destruct (Qlt_bool dd 0).
    + now destruct (Qlt_bool dd 0).
  - apply last_None in El. subst balances. discriminate.
Qed.

(** Two day balances 100 and 110 from an initial balance of 100: the
    return is 10 percent, there is no drawdown, the ratio is -10 / 0. *)
Lemma return_drawdown_ratio_unguarded_witness :
  exists v, return_drawdown_ratio [100; 110] 100 = Ok v
            /\ is_finite v = false.
Proof.
  apply (return_drawdown_ratio_unguarded [100; 110] 100 (0 # 110)).
  - reflexivity.
  - reflexivity.
Defined.

Example return_drawdown_ratio_samples :
  return_drawdown_ratio [100; 110] 100 = Ok NInf
  /\ return_drawdown_ratio [100; 100] 100 = Ok NaN
  /\ return_drawdown_ratio [100; 90; 110] 100 = Ok (Fin 1.00000).
Proof. repeat split; reflexivity. Qed.

(** ** The constructor *)

Lemma first_missing_Some (config : gmap string pyval) (k : string) :
  first_missing config = Some k -> In k check_keys /\ config !! k = None.
Proof.
  intros H. apply find_some in H as [Hin Hk].
  apply bool_decide_eq_true in Hk. now split.
Qed.

Lemma first_missing_None (config : gmap string pyval) :
  first_missing config = None <->
  forall k, In k check_keys -> is_Some (config !! k).
Proof.
  split.
  - intros H k Hin. pose proof (find_none _ _ H k Hin) as Hk.
    apply bool_decide_eq_false in Hk.
    destruct (config !! k); [eauto | contradiction].
  - intros H. destruct (first_missing config) as [k |] eqn:E; [| reflexivity].
    apply first_missing_Some in E as [Hin Hk].
    destruct (H k Hin) as [v Hv]. congruence.
Qed.

Lemma py_getitem_Some (config : gmap string pyval) (k : string) :
  is_Some (config !! k) -> exists v, py_getitem config k = Ok v.
Proof. intros [v Hv]. unfold py_getitem. rewrite Hv. eauto. Qed.

Lemma BackTest_init_missing (config : gmap string pyval) (k : string) :
  first_missing config = Some k ->
  BackTest_init (Some config)
  = Raise (Exception ("回测配置缺少必要参数:" ++ k)).
Proof.
  intros H. unfold BackTest_init. fold (first_missing config). now rewrite H.
Qed.

Lemma BackTest_init_complete (config : gmap string pyval) :
  first_missing config = None ->
  exists obj, BackTest_init (Some config) = Ok obj
    /\ obj !! "log" = Some ALogger
    /\ (exists t d, obj !! "trader" = Some (ATrader t d)
                    /\ obj !! "datas" = Some (ADatas d))
    /\ obj !! "next_frequency" = Some (AVal VNone)
    /\ (forall k, In k check_keys ->
          exists v, config !! k = Some v /\ obj !! k = Some (AVal v)).
Proof.
  intros H. unfold BackTest_init. fold (first_missing config). rewrite H.
  pose proof (proj1 (first_missing_None config) H) as Hall. clear H.
  rename Hall into H.
  assert (Hk : forall k, In k check_keys -> exists v, config !! k = Some v).
  { intros k Hin. destruct (H k Hin) as [v Hv]. eauto. }
  unfold py_getitem.
  destruct (Hk "mode") as [v1 E1]; [simpl; tauto |].
  destruct (Hk "market") as [v2 E2]; [simpl; tauto |].
  destruct (Hk "base_code") as [v3 E3]; [simpl; tauto |].
  destruct (Hk "codes") as [v4 E4]; [simpl; tauto |].
  destruct (Hk "frequencys") as [v5 E5]; [simpl; tauto |].
  destruct (Hk "start_datetime") as [v6 E6]; [simpl; tauto |].
  destruct (Hk "end_datetime") as [v7 E7]; [simpl; tauto |].
  destruct (Hk "init_balance") as [v8 E8]; [simpl; tauto |].
  destruct (Hk "fee_rate") as [v9 E9]; [simpl; tauto |].
  destruct (Hk "max_pos") as [v10 E10]; [simpl; tauto |].
  destruct (Hk "cl_config") as [v11 E11]; [simpl; tauto |].
  destruct (Hk "is_stock") as [v12 E12]; [simpl; tauto |].
  destruct (Hk "is_futures") as [v13 E13]; [simpl; tauto |].
  destruct (Hk "strategy") as [v14 E14]; [simpl; tauto |].
  rewrite E1, E2, E3, E4, E5, E6, E7, E8, E9, E10, E11, E12, E13, E14.
  cbv beta iota delta [mbind result_bind]. eexists. split; [reflexivity |].
  split; [reflexivity |].
  split; [eexists _, _; split; reflexivity |].
  split; [reflexivity |].
  intros k Hin. simpl in Hin.
  repeat (destruct Hin as [<- | Hin]; [eexists; split; [eassumption | reflexivity] |]).
  destruct Hin.
Qed.

(** C9. A configuration dict that lacks a required key makes the
    constructor raise, naming the first key missing, so that no object
    exists on which a run could start; a dict that has all required keys
    yields an object with its logger, its trader and its market-data
    provider, and with every required entry stored under its name. *)
Theorem BackTest_init_required_keys (config : gmap string pyval) :
  ((exists k, In k check_keys /\ config !! k = None) ->
   exists k, In k check_keys /\ config !! k = None
     /\ BackTest_init (Some config)
        = Raise (Exception ("回测配置缺少必要参数:" ++ k)))
  /\ ((forall k, In k check_keys -> is_Some (config !! k)) ->
      exists obj, BackTest_init (Some config) = Ok obj
        /\ obj !! "log" = Some ALogger
        /\ (exists t d, obj !! "trader" = Some (ATrader t d)
                        /\ obj !! "datas" = Some (ADatas d))
        /\ (forall k, In k check_keys ->
              exists v, config !! k = Some v /\ obj !! k = Some (AVal v))).
Proof.
  split.
  - intros (k & Hin & Hk).
    destruct (first_missing config) as [k' |] eqn:E.
    + exists k'. destruct (first_missing_Some _ _ E) as [Hin' Hk'].
      repeat split; auto. now apply BackTest_init_missing.
    + destruct (proj1 (first_missing_None config) E k Hin) as [v Hv].
      congruence.
  - intros H. apply (proj2 (first_missing_None config)) in H.
    destruct (BackTest_init_complete config H)
      as (obj & Hobj & Hlog & Htd & _ & Hkeys).
    exists obj. auto.
Qed.

Example BackTest_init_samples :
  (exists obj, BackTest_init (Some sample_config) = Ok obj)
  /\ BackTest_init (Some (delete "fee_rate" sample_config))
     = Raise (Exception "回测配置缺少必要参数:fee_rate")
  /\ BackTest_init (Some (delete "mode" (delete "strategy" sample_config)))
     = Raise (Exception "回测配置缺少必要参数:mode").
Proof.
  split.
  - destruct (BackTest_init_complete sample_config) as (obj & H & _);
      [vm_compute; reflexivity | eauto].
  - split; vm_compute; reflexivity.
Qed.

(** C10. Without a configuration the constructor returns without looking
    for any key: the object it leaves has its logger and nothing else, in
    particular neither trader nor market-data provider; whereas a dict, even
    an empty one, is checked and raises. *)
Theorem BackTest_init_without_config :
  exists obj, BackTest_init None = Ok obj
    /\ obj !! "log" = Some ALogger
    /\ (forall k, k <> "log" -> obj !! k = None)
    /\ obj !! "trader" = None
    /\ obj !! "datas" = None
    /\ exists e, BackTest_init (Some ∅) = Raise e.
Proof.
  exists {[ "log" := ALogger ]}. split; [reflexivity |].
  split; [apply lookup_singleton_eq |].
  split; [intros k Hk; now apply lookup_singleton_ne |].
  split; [reflexivity |]. split; [reflexivity |].
  eexists. reflexivity.
Qed.

(** ** The run *)

Section RunProperties.
Context {K T : Type} (ops : Collaborators K T).

Lemma calls_log_app (a b : list (call K)) :
  calls_log (a ++ b) = (calls_log a ++ calls_log b)%list.
Proof. unfold calls_log. apply flat_map_app. Qed.

(** The instrument loop of one tick calls every instrument, in order,
    whatever the earlier calls did; it hands each call the manager as the
    previous call left it, and it logs two lines per call that raised. *)
Lemma run_codes_spec (k : K) (cs : list string) (tr : T)
    (lg : list string) (calls : list (call K)) :
  exists new_calls,
    run_codes ops k cs tr lg calls
    = (foldl (fun s c => (trader_run ops k c s).1) tr cs,
       (lg ++ calls_log new_calls)%list,
       (calls ++ new_calls)%list)
    /\ map fst new_calls = map (pair k) cs.
Proof.
  revert tr lg calls. induction cs as [| c cs IH]; intros tr lg calls.
  - exists []. simpl. now rewrite !app_nil_r.
  - simpl. destruct (trader_run ops k c tr) as [tr' [trace |]] eqn:E.
    + destruct (IH tr' (lg ++ failure_log c (Some trace))%list
                  (calls ++ [(k, c, Some trace)])%list) as (nc & Hrun & Hmap).
      exists ((k, c, Some trace) :: nc). unfold failure_log in Hrun.
      rewrite Hrun. split.
      * simpl. rewrite <- !app_assoc. reflexivity.
      * simpl. now rewrite Hmap.
    + destruct (IH tr' lg (calls ++ [(k, c, None)])%list) as (nc & Hrun & Hmap).
      exists ((k, c, None) :: nc). rewrite Hrun. split.
      * simpl. rewrite <- !app_assoc. reflexivity.
      * simpl. now rewrite Hmap.
Qed.

(** The tick loop runs the instrument loop once per pending tick and
    stops on the last tick handed out. *)
Lemma run_ticks_spec (cs : list string) (pending : list K) (now : option K)
    (tr : T) (lg : list string) (calls : list (call K)) :
  exists tr' new_calls,
    run_ticks ops cs pending now tr lg calls
    = (from_option Some now (last pending), tr',
       (lg ++ calls_log new_calls)%list, (calls ++ new_calls)%list)
    /\ map fst new_calls = all_calls pending cs.
Proof.
  revert now tr lg calls.
  induction pending as [| k pending IH]; intros now tr lg calls.
  - exists tr, []. simpl. now rewrite !app_nil_r.
  - simpl.
    destruct (run_codes_spec k cs (update_position_record ops k tr) lg calls)
      as (nc1 & Hrun & Hmap1).
    rewrite Hrun.
    destruct (IH (Some k) (foldl (fun s c => (trader_run ops k c s).1)
                                 (update_position_record ops k tr) cs)
                 (lg ++ calls_log nc1)%list (calls ++ nc1)%list)
      as (tr' & nc2 & Hticks & Hmap2).
    exists tr', (nc1 ++ nc2)%list. rewrite Hticks. split.
    + rewrite calls_log_app, <- !app_assoc.
      destruct pending as [| k' pending']; [reflexivity |].
      rewrite last_cons_cons, (last_cons k' pending').
      now destruct (last pending').
    + unfold all_calls in *. simpl. rewrite List.map_app.
      exact (f_equal2 (@app _) Hmap1 Hmap2).
Qed.

(** Without a cadence to replay at, [run] raises before the first tick. *)
Lemma run_without_frequency (bt : BackTest K T) (elapsed : string) :
  bt_frequencys bt = [] -> run ops bt None elapsed = Raise IndexError.
Proof. intros H. unfold run. now rewrite H. Qed.

Hypothesis contract : TraderContract ops.

(** The balance history that the marking of a tick recorded is the one
    the manager still has after the instrument loop of that tick. *)
Lemma run_codes_balance_history (k : K) (cs : list string) (tr : T)
    (lg : list string) (calls : list (call K)) :
  balance_history ops (run_codes ops k cs tr lg calls).1.1
  = balance_history ops tr.
Proof.
  destruct (run_codes_spec k cs tr lg calls) as (nc & -> & _). simpl.
  revert tr. induction cs as [| c cs IH]; intros tr; [reflexivity |].
  simpl. rewrite IH. apply (run_keeps_balance_history ops contract).
Qed.

End RunProperties.

(** The small manager keeps the contract. *)
Lemma toy_ops_contract : TraderContract toy_ops.
Proof.
  constructor.
  - intros now tr. reflexivity.
  - intros k c tr. simpl. now destruct (String.eqb c "BAD").
Defined.


Example run_toy_log :
  exists bt' calls,
    run toy_ops toy_backtest None "0.5" = Ok (bt', true, calls)
    /\ map fst calls
       = [(1%nat, "SH.600519"); (1%nat, "BAD"); (1%nat, "SZ.000001");
          (2%nat, "SH.600519"); (2%nat, "BAD"); (2%nat, "SZ.000001")]
    /\ bt_log bt'
       = ["执行 BAD 异常"; "Traceback (most recent call last): ValueError";
          "执行 BAD 异常"; "Traceback (most recent call last): ValueError";
          "运行完成，执行时间：0.5"]
    /\ bt_trader bt' = ([], [("tick", 100); ("tick", 100)]).
Proof. eexists _, _. repeat split. Qed.

(** ** The divergence angle: smoothing and extraction *)

Lemma sma2_length (prev : Q) (l : list Q) : length (sma2 prev l) = length l.
Proof. revert prev. induction l as [| x l IH]; intros prev; simpl; auto. Qed.

Lemma talib_MA_2_length (l : list Q) : length (talib_MA_2 l) = length l.
Proof. destruct l; simpl; [reflexivity |]. now rewrite sma2_length. Qed.

Lemma sma2_lookup (prev : Q) (l : list Q) (i : nat) :
  sma2 prev l !! i
  = match (prev :: l) !! i, l !! i with
    | Some a, Some b => Some (Fin ((a + b) / 2))
    | _, _ => None
    end.
Proof.
  revert prev i. induction l as [| x l IH]; intros prev i.
  - destruct i as [| i]; [reflexivity |]. now destruct i.
  - destruct i as [| i]; [reflexivity |]. simpl. now rewrite IH.
Qed.

(** The smoothed series: undefined at 0, the mean of two neighbours after. *)
Lemma talib_MA_2_lookup (l : list Q) (i : nat) :
  talib_MA_2 l !! i
  = match i with
    | O => match l with [] => None | _ => Some NaN end
    | S j => match l !! j, l !! S j with
             | Some a, Some b => Some (Fin ((a + b) / 2))
             | _, _ => None
             end
    end.
Proof.
  destruct l as [| p l]; [now destruct i |].
  destruct i as [| j]; [reflexivity |]. simpl. apply sma2_lookup.
Qed.

Lemma number_points_lookup (start : nat) (l : list npfloat) (i : nat) :
  number_points start l !! i = (fun v => ((start + i)%nat, v)) <$> l !! i.
Proof.
  revert start i. induction l as [| v l IH]; intros start i; [now destruct i |].
  simpl. destruct i as [| i]; simpl.
  - now rewrite Nat.add_0_r.
  - rewrite IH. now rewrite Nat.add_succ_r.
Qed.

Lemma number_points_length (start : nat) (l : list npfloat) :
  length (number_points start l) = length l.
Proof.
  revert start. induction l as [| v l IH]; intros start; simpl; auto.
Qed.

(** An entry of [fxs] is the point at the index where the loop found it. *)
Lemma elem_of_find_fxs (position : string) (nps : list (nat * npfloat))
    (p : nat * npfloat) :
  p ∈ find_fxs position nps <->
  exists i, (1 <= i < length nps)%nat /\ fx_at position nps i = Some p.
Proof.
  unfold find_fxs. rewrite list_elem_of_omap. split.
  - intros (i & Hi & Hp). exists i. split; [| exact Hp].
    apply elem_of_seq in Hi. lia.
  - intros (i & Hi & Hp). exists i. split; [| exact Hp].
    apply elem_of_seq. lia.
Qed.

Lemma fx_at_Some (position : string) (nps : list (nat * npfloat)) (i : nat)
    (p : nat * npfloat) :
  fx_at position nps i = Some p <->
  exists p1, nps !! (i - 1)%nat = Some p1 /\ nps !! i = Some p
             /\ is_fx position p1 p (nps !! (i + 1)%nat) = true.
Proof.
  unfold fx_at. split.
  - destruct (nps !! (i - 1)%nat) as [p1 |]; [| discriminate].
    destruct (nps !! i) as [p2 |]; [| discriminate].
    destruct (is_fx position p1 p2 (nps !! (i + 1)%nat)) eqn:E; [| discriminate].
    intros [= <-]. eauto.
  - intros (p1 & -> & -> & ->). reflexivity.
Qed.

(** Comparisons of smoothed values that hold are comparisons of rationals. *)
Lemma np_le_true (a b : npfloat) :
  np_le a b = true ->
  a <> NaN /\ b <> NaN
  /\ forall x y, a = Fin x -> b = Fin y -> x <= y.
Proof.
  destruct a, b; simpl; intros H; try discriminate;
    repeat split; try discriminate; intros x y [= <-] [= <-].
  now apply Qle_bool_iff.
Qed.

Lemma np_le_Fin (x y : Q) : np_le (Fin x) (Fin y) = true <-> x <= y.
Proof. simpl. apply Qle_bool_iff. Qed.

Lemma np_lt_Fin_false (x y : Q) : np_lt (Fin x) (Fin y) = false <-> y <= x.
Proof. simpl. apply Qlt_bool_false. Qed.

(** [is_fx] on rational values, by the kind asked for. *)
Lemma is_fx_Fin (position : string) (i1 i2 : nat) (x1 x2 : Q)
    (p3 : option (nat * npfloat)) :
  is_fx position (i1, Fin x1) (i2, Fin x2) p3 = true <->
  (position = "up" /\ x1 <= x2
   /\ forall q, p3 = Some q -> np_le q.2 (Fin x2) = true)
  \/ (position = "down" /\ x2 <= x1
      /\ forall q, p3 = Some q -> np_le (Fin x2) q.2 = true).
Proof.
  unfold is_fx, np_ge. cbn [fst snd].
  destruct (String.eqb_spec position "up") as [Hup | Hup];
    destruct (String.eqb_spec position "down") as [Hdn | Hdn];
    try (rewrite Hup in Hdn; discriminate); cbn [andb].
  - change (np_le (Fin x1) (Fin x2)) with (Qle_bool x1 x2).
    destruct (Qle_bool x1 x2) eqn:E1; cbn [andb].
    + apply Qle_bool_iff in E1. destruct p3 as [q |].
      * destruct (np_le q.2 (Fin x2)) eqn:E3.
        -- split; [intros _ | reflexivity]. left. repeat split; auto.
           intros q' [= <-]. exact E3.
        -- split; [discriminate |].
           intros [(_ & _ & H) | (H & _)]; [| congruence].
           rewrite (H q eq_refl) in E3. discriminate.
      * split; [intros _ | reflexivity]. left. repeat split; auto.
        intros q' Hq. discriminate.
    + split; [discriminate |].
      intros [(_ & H & _) | (H & _)]; [| congruence].
      apply Qle_bool_iff in H. congruence.
  - change (np_le (Fin x2) (Fin x1)) with (Qle_bool x2 x1).
    destruct (Qle_bool x2 x1) eqn:E1; cbn [andb].
    + apply Qle_bool_iff in E1. destruct p3 as [q |].
      * destruct (np_le (Fin x2) q.2) eqn:E3.
        -- split; [intros _ | reflexivity]. right. repeat split; auto.
           intros q' [= <-]. exact E3.
        -- split; [discriminate |].
           intros [(H & _) | (_ & _ & H)]; [congruence |].
           rewrite (H q eq_refl) in E3. discriminate.
      * split; [intros _ | reflexivity]. right. repeat split; auto.
        intros q' Hq. discriminate.
    + split; [discriminate |].
      intros [(H & _) | (_ & H & _)]; [congruence |].
      apply Qle_bool_iff in H. congruence.
  - split; [discriminate |]. intros [(H & _) | (H & _)]; contradiction.
Qed.

(** With an undefined left neighbour nothing is an extremum. *)
Lemma is_fx_NaN_left (position : string) (i1 : nat) (p2 : nat * npfloat)
    (p3 : option (nat * npfloat)) :
  is_fx position (i1, NaN) p2 p3 = false.
Proof.
  unfold is_fx, np_ge. cbn [fst snd].
  assert (H1 : np_le NaN p2.2 = false) by reflexivity.
  assert (H2 : np_le p2.2 NaN = false) by now destruct p2.2.
  rewrite H1, H2. rewrite !andb_false_r. reflexivity.
Qed.

Lemma talib_MA_2_defined (l : list Q) (i : nat) (v : npfloat) :
  (1 <= i)%nat -> talib_MA_2 l !! i = Some v -> exists x, v = Fin x.
Proof.
  intros Hi. rewrite talib_MA_2_lookup. destruct i as [| j]; [lia |].
  destruct (l !! j); [| discriminate].
  destruct (l !! S j); [| discriminate]. intros [= <-]. eauto.
Qed.

Lemma talib_MA_2_undefined (l : list Q) (v : npfloat) :
  talib_MA_2 l !! 0%nat = Some v -> v = NaN.
Proof.
  rewrite talib_MA_2_lookup. destruct l; [discriminate |]. now intros [= <-].
Qed.

Lemma talib_MA_2_values (l : list Q) (i : nat) (v : npfloat) :
  talib_MA_2 l !! i = Some v -> v = NaN \/ exists x, v = Fin x.
Proof.
  destruct i as [| j].
  - intros H. left. now apply talib_MA_2_undefined in H.
  - intros H. right. apply (talib_MA_2_defined l (S j)); [lia | exact H].
Qed.

(** The right-neighbour test on the numbered series, read on the smoothed
    series. *)
Lemma right_neighbour_le (s : list npfloat) (i : nat) (x2 : Q) :
  (1 <= i)%nat -> (exists l, s = talib_MA_2 l) ->
  (forall q, number_points 0 s !! (i + 1)%nat = Some q ->
             np_le q.2 (Fin x2) = true)
  <-> (forall x3, s !! (i + 1)%nat = Some (Fin x3) -> x3 <= x2).
Proof.
  intros Hi [l ->]. split.
  - intros H x3 Hx3.
    apply np_le_Fin, (H ((0 + (i + 1))%nat, Fin x3)).
    rewrite number_points_lookup, Hx3. reflexivity.
  - intros H q. rewrite number_points_lookup.
    destruct (talib_MA_2 l !! (i + 1)%nat) as [v3 |] eqn:E; [| discriminate].
    intros [= <-]. simpl.
    destruct (talib_MA_2_defined l (i + 1) v3) as [x3 ->]; [lia | exact E |].
    apply np_le_Fin. now apply H.
Qed.

Lemma right_neighbour_ge (s : list npfloat) (i : nat) (x2 : Q) :
  (1 <= i)%nat -> (exists l, s = talib_MA_2 l) ->
  (forall q, number_points 0 s !! (i + 1)%nat = Some q ->
             np_le (Fin x2) q.2 = true)
  <-> (forall x3, s !! (i + 1)%nat = Some (Fin x3) -> x2 <= x3).
Proof.
  intros Hi [l ->]. split.
  - intros H x3 Hx3.
    apply np_le_Fin, (H ((0 + (i + 1))%nat, Fin x3)).
    rewrite number_points_lookup, Hx3. reflexivity.
  - intros H q. rewrite number_points_lookup.
    destruct (talib_MA_2 l !! (i + 1)%nat) as [v3 |] eqn:E; [| discriminate].
    intros [= <-]. simpl.
    destruct (talib_MA_2_defined l (i + 1) v3) as [x3 ->]; [lia | exact E |].
    apply np_le_Fin. now apply H.
Qed.

Lemma find_fxs_extracted (points : list Q) (position : string) (i : nat)
    (v : npfloat) :
  (i, v) ∈ find_fxs position (number_points 0 (talib_MA_2 points))
  <-> extracted position (talib_MA_2 points) i v.
Proof.
  set (s := talib_MA_2 points).
  rewrite elem_of_find_fxs. setoid_rewrite fx_at_Some.
  setoid_rewrite number_points_lookup. rewrite number_points_length.
  split.
  - intros (j & Hj & p1 & H1 & H2 & Hfx).
    destruct (s !! (j - 1)%nat) as [v1 |] eqn:E1; [| discriminate].
    destruct (s !! j) as [v2 |] eqn:E2; [| discriminate].
    simpl in H1, H2. injection H1 as <-. injection H2 as <- <-.
    destruct (talib_MA_2_values points (j - 1) v1 E1) as [-> | [x1 ->]].
    { rewrite is_fx_NaN_left in Hfx. discriminate. }
    destruct (talib_MA_2_defined points j v2) as [x2 ->]; [lia | exact E2 |].
    exists x1, x2. repeat split; [lia | exact E1 | exact E2 |].
    change (fmap (fun v => ((0 + (j + 1))%nat, v)) (s !! (j + 1)%nat))
      with (fmap (M := option) (fun v => ((0 + (j + 1))%nat, v))
                 (s !! (j + 1)%nat)) in Hfx.
    rewrite <- (number_points_lookup 0 s (j + 1)) in Hfx.
    apply is_fx_Fin in Hfx as [(Hp & Hle & Hr) | (Hp & Hle & Hr)].
    + left. repeat split; auto.
      apply (right_neighbour_le s j x2); [lia | now exists points | exact Hr].
    + right. repeat split; auto.
      apply (right_neighbour_ge s j x2); [lia | now exists points | exact Hr].
  - intros (x1 & x2 & Hi & E1 & E2 & -> & Hcond).
    exists i. split.
    { split; [exact Hi |]. apply lookup_lt_Some in E2. exact E2. }
    exists ((i - 1)%nat, Fin x1).
    split; [now rewrite E1 |]. split; [now rewrite E2 |].
    rewrite <- (number_points_lookup 0 s (i + 1)).
    apply is_fx_Fin. destruct Hcond as [(Hp & Hle & Hr) | (Hp & Hle & Hr)].
    + left. repeat split; auto.
      apply (right_neighbour_le s i x2); [lia | now exists points | exact Hr].
    + right. repeat split; auto.
      apply (right_neighbour_ge s i x2); [lia | now exists points | exact Hr].
Qed.


(** The test [is not None] keeps the undefined first entry of the smoothed
    series among the numbered points. *)
Example number_points_keeps_undefined :
  number_points 0 (talib_MA_2 [1; 3])
  = [(0%nat, NaN); (1%nat, Fin ((1 + 3) / 2))].
Proof. reflexivity. Qed.


Example find_fxs_samples :
  find_fxs "up" (number_points 0 (talib_MA_2 [1; 3; 2; 5; 4; 4; 1; 7]))
  = [(4%nat, Fin ((5 + 4) / 2)); (7%nat, Fin ((1 + 7) / 2))]
  /\ find_fxs "down" (number_points 0 (talib_MA_2 [1; 3; 2; 5; 4; 4; 1; 7]))
     = [(6%nat, Fin ((4 + 1) / 2))]
  /\ find_fxs "flat" (number_points 0 (talib_MA_2 [1; 3; 2; 5; 4; 4; 1; 7]))
     = [].
Proof. repeat split; reflexivity. Qed.

(** ** The divergence angle: sorting *)

Section Sorting.
Context {A : Type} (before : A -> A -> bool) (P : A -> Prop).

Lemma insert_by_perm (x : A) (l : list A) : insert_by before x l ≡ₚ x :: l.
Proof.
  induction l as [| y l IH]; simpl; [reflexivity |].
  destruct (before y x); [| reflexivity].
  rewrite IH. apply Permutation_swap.
Qed.

Lemma py_sorted_perm (l : list A) : py_sorted before l ≡ₚ l.
Proof.
  induction l as [| x l IH]; simpl; [reflexivity |].
  rewrite insert_by_perm. now rewrite IH.
Qed.

Hypothesis before_asym :
  forall a b, P a -> P b -> before a b = true -> before b a = false.
Hypothesis may_precede_trans :
  forall a b c, P a -> P b -> P c ->
    may_precede before a b -> may_precede before b c -> may_precede before a c.

Lemma insert_by_sorted (x : A) (l : list A) :
  P x -> Forall P l ->
  StronglySorted (may_precede before) l ->
  StronglySorted (may_precede before) (insert_by before x l).
Proof.
  intros Hx HP Hs. induction Hs as [| y l Hs IH Hy]; simpl.
  - constructor; [constructor | constructor].
  - apply Forall_cons in HP as [Py Pl].
    destruct (before y x) eqn:E.
    + constructor; [now apply IH |].
      rewrite insert_by_perm.
      constructor; [| exact Hy].
      unfold may_precede. now apply before_asym.
    + constructor; [now constructor |].
      constructor; [exact E |].
      rewrite Forall_forall in Hy, Pl |- *. intros z Hz.
      apply (may_precede_trans x y z); auto.
Qed.

Lemma py_sorted_sorted (l : list A) :
  Forall P l -> StronglySorted (may_precede before) (py_sorted before l).
Proof.
  induction l as [| x l IH]; intros HP; simpl; [constructor |].
  apply Forall_cons in HP as [Px Pl].
  apply insert_by_sorted; auto.
  now rewrite py_sorted_perm.
Qed.
End Sorting.

Lemma fx_before_asym (position : string) (a b : nat * npfloat) :
  finite_point a -> finite_point b ->
  fx_before position a b = true -> fx_before position b a = false.
Proof.
  intros [x Hx] [y Hy]. unfold fx_before. rewrite Hx, Hy.
  destruct (String.eqb position "up"); simpl; intros H;
    apply Qlt_bool_iff in H; apply Qlt_bool_false; now apply Qlt_le_weak.
Qed.

Lemma fx_may_precede_trans (position : string) (a b c : nat * npfloat) :
  finite_point a -> finite_point b -> finite_point c ->
  may_precede (fx_before position) a b ->
  may_precede (fx_before position) b c ->
  may_precede (fx_before position) a c.
Proof.
  intros [x Hx] [y Hy] [z Hz]. unfold may_precede, fx_before.
  rewrite Hx, Hy, Hz.
  destruct (String.eqb position "up"); simpl; intros H1 H2;
    apply Qlt_bool_false in H1, H2; apply Qlt_bool_false;
    eapply Qle_trans; eassumption.
Qed.

(** What standing before means on rational values: descending for peaks,
    ascending otherwise. *)
Lemma fx_may_precede_Fin (position : string) (i j : nat) (x y : Q) :
  may_precede (fx_before position) (i, Fin x) (j, Fin y) ->
  (position = "up" -> y <= x) /\ (position <> "up" -> x <= y).
Proof.
  unfold may_precede, fx_before. cbn [fst snd].
  destruct (String.eqb_spec position "up") as [Hp | Hp]; simpl; intros H;
    apply Qlt_bool_false in H; split; intros Hq; congruence || exact H.
Qed.

(** Extracted points are finite and sit at distinct indices. *)
Lemma find_fxs_finite (points : list Q) (position : string) :
  Forall finite_point
         (find_fxs position (number_points 0 (talib_MA_2 points))).
Proof.
  apply Forall_forall. intros [i v] Hin.
  apply find_fxs_extracted in Hin as (x1 & x2 & _ & _ & _ & -> & _).
  now exists x2.
Qed.

Lemma find_fxs_position (points : list Q) (position : string)
    (p : nat * npfloat) :
  p ∈ find_fxs position (number_points 0 (talib_MA_2 points)) ->
  position = "up" \/ position = "down".
Proof.
  destruct p as [i v]. intros Hin.
  apply find_fxs_extracted in Hin
    as (x1 & x2 & _ & _ & _ & _ & [(H & _) | (H & _)]); auto.
Qed.

Lemma NoDup_omap_index {B : Type} (f : nat -> option B) (g : B -> nat)
    (l : list nat) :
  (forall i p, f i = Some p -> g p = i) ->
  NoDup l -> NoDup (map g (omap f l)).
Proof.
  intros Hfg Hl. induction Hl as [| i l Hi Hl IH]; simpl; [constructor |].
  destruct (f i) as [p |] eqn:E; [| exact IH].
  simpl. constructor; [| exact IH].
  rewrite (Hfg i p E). intros Hin.
  apply list_elem_of_In, in_map_iff in Hin as (q & Hq & Hin).
  apply list_elem_of_In, list_elem_of_omap in Hin as (j & Hj & Hfj).
  rewrite (Hfg j q Hfj) in Hq. subst j. contradiction.
Qed.

Lemma find_fxs_NoDup (position : string) (s : list npfloat) :
  NoDup (map fst (find_fxs position (number_points 0 s))).
Proof.
  unfold find_fxs. apply NoDup_omap_index; [| apply NoDup_seq].
  intros i p Hp. apply fx_at_Some in Hp as (_ & _ & Hi & _).
  rewrite number_points_lookup in Hi.
  destruct (s !! i); [| discriminate]. now injection Hi as <-.
Qed.

(** ** The divergence angle: the angle *)

Lemma degrees_factor_pos : (0 < 180 / PI)%R.
Proof.
  apply Rdiv_lt_0_compat; [Lra.lra | apply PI_RGT_0].
Qed.

Lemma angle_of_pos (k : Q) : 0 < k -> (0 < angle_of k)%R.
Proof.
  intros H. unfold angle_of. apply Rmult_lt_0_compat; [| apply degrees_factor_pos].
  rewrite <- atan_0. apply atan_increasing.
  rewrite <- RMicromega.Q2R_0. now apply Qlt_Rlt.
Qed.

Lemma angle_of_neg (k : Q) : k < 0 -> (angle_of k < 0)%R.
Proof.
  intros H. unfold angle_of.
  assert (Ha : (atan (Q2R k) < 0)%R).
  { rewrite <- atan_0. apply atan_increasing.
    rewrite <- RMicromega.Q2R_0. now apply Qlt_Rlt. }
  rewrite <- (Rmult_0_l (180 / PI)).
  apply Rmult_lt_compat_r; [apply degrees_factor_pos | exact Ha].
Qed.

Lemma angle_of_zero (k : Q) : k == 0 -> angle_of k = 0%R.
Proof.
  intros H. unfold angle_of. rewrite (Qeq_eqR _ _ H), RMicromega.Q2R_0, atan_0.
  apply Rmult_0_l.
Qed.

Lemma angle_of_nonneg (k : Q) : 0 <= k -> (0 <= angle_of k)%R.
Proof.
  intros H. apply Qle_lt_or_eq in H as [H | H].
  - left. now apply angle_of_pos.
  - right. symmetry. apply angle_of_zero. now symmetry.
Qed.

Lemma angle_of_nonpos (k : Q) : k <= 0 -> (angle_of k <= 0)%R.
Proof.
  intros H. apply Qle_lt_or_eq in H as [H | H].
  - left. now apply angle_of_neg.
  - right. now apply angle_of_zero.
Qed.

Lemma index_gap_pos (i1 i2 : nat) :
  (i2 < i1)%nat -> 0 < inject_Z (Z.of_nat i1 - Z.of_nat i2).
Proof. intros H. unfold Qlt. simpl. lia. Qed.

Lemma index_gap_neg (i1 i2 : nat) :
  (i1 < i2)%nat -> inject_Z (Z.of_nat i1 - Z.of_nat i2) < 0.
Proof. intros H. unfold Qlt. simpl. lia. Qed.

Lemma index_gap_nonzero (i1 i2 : nat) :
  i1 <> i2 -> Qeq_bool (inject_Z (Z.of_nat i1 - Z.of_nat i2)) 0 = false.
Proof.
  intros H. apply Qeq_bool_false_iff. unfold Qeq. simpl. lia.
Qed.

Lemma Qdiv_sign_pos (n d : Q) : 0 < d -> (0 <= n -> 0 <= n / d) /\ (n <= 0 -> n / d <= 0).
Proof.
  intros Hd. split; intros Hn.
  - apply Qle_shift_div_l; [exact Hd |]. now rewrite Qmult_0_l.
  - apply Qle_shift_div_r; [exact Hd |]. now rewrite Qmult_0_l.
Qed.

Lemma Qdiv_sign_neg (n d : Q) : d < 0 -> (0 <= n -> n / d <= 0) /\ (n <= 0 -> 0 <= n / d).
Proof.
  intros Hd.
  assert (Hd' : 0 < - d) by lra.
  assert (E : n / d == (- n) / (- d)).
  { field. intros H. rewrite H in Hd. exact (Qlt_irrefl _ Hd). }
  destruct (Qdiv_sign_pos (- n) (- d) Hd') as [H1 H2].
  split; intros Hn; rewrite E; [apply H2 | apply H1]; lra.
Qed.

(** The sign of the slope between the two most extreme points, from the
    order of their values and of their indices. *)
Lemma rational_slope_sign (v1 v2 : Q) (i1 i2 : nat) :
  (v2 <= v1 ->
     ((i2 < i1)%nat -> 0 <= rational_slope v1 v2 i1 i2)
     /\ ((i1 < i2)%nat -> rational_slope v1 v2 i1 i2 <= 0))
  /\ (v1 <= v2 ->
        ((i2 < i1)%nat -> rational_slope v1 v2 i1 i2 <= 0)
        /\ ((i1 < i2)%nat -> 0 <= rational_slope v1 v2 i1 i2)).
Proof.
  unfold rational_slope. split; intros Hv; split; intros Hi.
  - apply (Qdiv_sign_pos _ _ (index_gap_pos i1 i2 Hi)). lra.
  - apply (Qdiv_sign_neg _ _ (index_gap_neg i1 i2 Hi)). lra.
  - apply (Qdiv_sign_pos _ _ (index_gap_pos i1 i2 Hi)). lra.
  - apply (Qdiv_sign_neg _ _ (index_gap_neg i1 i2 Hi)). lra.
Qed.

(** [jiaodu] on two finite points at distinct indices. *)
Lemma jiaodu_finite (i1 i2 : nat) (v1 v2 : Q) :
  i1 <> i2 ->
  jiaodu (i1, Fin v1) (i2, Fin v2)
  = Real (angle_of (rational_slope v1 v2 i1 i2)).
Proof.
  intros H. unfold jiaodu, slope. cbn [fst snd np_sub np_neg np_add np_div].
  rewrite (index_gap_nonzero i1 i2 H). reflexivity.
Qed.

(** The sorted extrema: a permutation of the extracted ones, finite, at
    distinct indices, each standing rightly before all that follow. *)
Lemma sorted_fxs_facts (points : list Q) (position : string) :
  let fxs := find_fxs position (number_points 0 (talib_MA_2 points)) in
  let sorted := py_sorted (fx_before position) fxs in
  sorted ≡ₚ fxs
  /\ Forall finite_point sorted
  /\ NoDup (map fst sorted)
  /\ StronglySorted (may_precede (fx_before position)) sorted.
Proof.
  cbv zeta.
  pose proof (py_sorted_perm (fx_before position)
                (find_fxs position (number_points 0 (talib_MA_2 points))))
    as Hperm.
  split; [exact Hperm |]. split; [| split].
  - rewrite Hperm. apply find_fxs_finite.
  - rewrite Hperm. apply find_fxs_NoDup.
  - apply (py_sorted_sorted (fx_before position) finite_point).
    + apply fx_before_asym.
    + apply fx_may_precede_trans.
    + apply find_fxs_finite.
Qed.


(** Peaks of a series whose highest smoothed peak, 9/2 at index 4, comes
    before the next highest, 4 at index 7: the slope is (9/2 - 4)/(4 - 7);
    and the troughs of a series that has one only. *)
Example points_jiaodu_samples :
  points_jiaodu [1; 3; 2; 5; 4; 4; 1; 7] "up"
  = Ok (Real (angle_of (rational_slope ((5 + 4) / 2) ((1 + 7) / 2) 4 7)))
  /\ rational_slope ((5 + 4) / 2) ((1 + 7) / 2) 4 7 == - (1 # 6)
  /\ points_jiaodu [1; 3; 2; 5; 4; 4; 1; 7] "down" = Ok (Real 0)
  /\ points_jiaodu [] "up" = Ok (Real 0)
  /\ points_jiaodu [1] "up" = Ok (Real 0).
Proof.
  split.
  - unfold points_jiaodu. cbv zeta.
    replace (find_fxs "up" (number_points 0 (talib_MA_2 [1; 3; 2; 5; 4; 4; 1; 7])))
      with [(4%nat, Fin ((5 + 4) / 2)); (7%nat, Fin ((1 + 7) / 2))]
      by reflexivity.
    simpl. now rewrite jiaodu_finite.
  - repeat split; reflexivity.
Qed.

(** * Further properties of base.py *)

(** ** The stop-loss check *)

(** X1. [check_loss] answers with a close instruction exactly when a stop
    is set and the price is strictly beyond it: below it for a label that
    carries 'buy', above it for a label that carries 'sell' and not 'buy'.
    A price equal to the stop never triggers, a label with neither word
    never triggers, and the instruction is always the 'sell' of the label
    with the stop-loss message, for a short position too. *)
Theorem check_loss_spec (m : string) (pos : POSITION) (p : Q) :
  ((exists op, check_loss m pos p = Some op) <->
   exists lp, loss_price pos = Some lp
     /\ ((py_in "buy" m = true /\ p < lp)
         \/ (py_in "buy" m = false /\ py_in "sell" m = true /\ lp < p)))
  /\ (forall op, check_loss m pos p = Some op -> op = stop_loss_close m)
  /\ (loss_price pos = Some p -> check_loss m pos p = None)
  /\ (py_in "buy" m = false -> py_in "sell" m = false ->
      check_loss m pos p = None).
Proof.
  assert (Hlong : forall lp, loss_price pos = Some lp -> py_in "buy" m = true ->
            check_loss m pos p
            = if Qlt_bool p lp then Some (stop_loss_close m) else None).
  { intros lp Hlp Hb. unfold check_loss. now rewrite Hlp, Hb. }
  assert (Hshort : forall lp, loss_price pos = Some lp ->
            py_in "buy" m = false -> py_in "sell" m = true ->
            check_loss m pos p
            = if Qlt_bool lp p then Some (stop_loss_close m) else None).
  { intros lp Hlp Hb Hs. unfold check_loss. now rewrite Hlp, Hb, Hs. }
  assert (Hnone : py_in "buy" m = false -> py_in "sell" m = false ->
            check_loss m pos p = None).
  { intros Hb Hs. unfold check_loss. rewrite Hb, Hs.
    now destruct (loss_price pos). }
  assert (Hunset : loss_price pos = None -> check_loss m pos p = None).
  { intros H. unfold check_loss. now rewrite H. }
  split; [| split; [| split]].
  - split.
    + intros [op Hop].
      destruct (loss_price pos) as [lp |] eqn:Hlp;
        [| rewrite Hunset in Hop by reflexivity; discriminate].
      exists lp. split; [reflexivity |].
      destruct (py_in "buy" m) eqn:Hb.
      * left. split; [reflexivity |].
        rewrite (Hlong lp eq_refl eq_refl) in Hop.
        destruct (Qlt_bool p lp) eqn:E; [| discriminate].
        now apply Qlt_bool_iff.
      * right. destruct (py_in "sell" m) eqn:Hs;
          [| rewrite Hnone in Hop by reflexivity; discriminate].
        repeat split.
        rewrite (Hshort lp eq_refl eq_refl eq_refl) in Hop.
        destruct (Qlt_bool lp p) eqn:E; [| discriminate].
        now apply Qlt_bool_iff.
    + intros (lp & Hlp & [[Hb Hlt] | (Hb & Hs & Hlt)]);
        apply Qlt_bool_iff in Hlt.
      * rewrite (Hlong lp Hlp Hb), Hlt. eauto.
      * rewrite (Hshort lp Hlp Hb Hs), Hlt. eauto.
  - intros op Hop.
    destruct (loss_price pos) as [lp |] eqn:Hlp;
      [| rewrite Hunset in Hop by reflexivity; discriminate].
    destruct (py_in "buy" m) eqn:Hb.
    + rewrite (Hlong lp eq_refl eq_refl) in Hop.
      destruct (Qlt_bool p lp); congruence.
    + destruct (py_in "sell" m) eqn:Hs;
        [| rewrite Hnone in Hop by reflexivity; discriminate].
      rewrite (Hshort lp eq_refl eq_refl eq_refl) in Hop.
      destruct (Qlt_bool lp p); congruence.
  - intros Hlp.
    assert (E : Qlt_bool p p = false) by (apply Qlt_bool_false, Qle_refl).
    destruct (py_in "buy" m) eqn:Hb.
    + now rewrite (Hlong p Hlp eq_refl), E.
    + destruct (py_in "sell" m) eqn:Hs; [| now apply Hnone].
      now rewrite (Hshort p Hlp eq_refl eq_refl), E.
  - exact Hnone.
Qed.

Lemma check_loss_long (m : string) (pos : POSITION) (p lp : Q) :
  is_long m = true -> loss_price pos = Some lp ->
  check_loss m pos p = if Qlt_bool p lp then Some (stop_loss_close m) else None.
Proof.
  intros Hl Hlp. apply is_long_inv in Hl as [Hb _].
  unfold check_loss. now rewrite Hlp, Hb.
Qed.

Lemma check_loss_short (m : string) (pos : POSITION) (p lp : Q) :
  is_short m = true -> loss_price pos = Some lp ->
  check_loss m pos p = if Qlt_bool lp p then Some (stop_loss_close m) else None.
Proof.
  intros Hs Hlp. apply is_short_inv in Hs as [Hs Hb].
  unfold check_loss. now rewrite Hlp, Hb, Hs.
Qed.

(** The stop after one call of [dynamic_change_loss_by_bi], for a label
    with one side. *)
Lemma ratchet_stop_bounds (pos : POSITION) (bis : list BI) (lp : Q) :
  loss_price pos = Some lp ->
  exists lp',
    loss_price (dynamic_change_loss_by_bi pos bis).1 = Some lp'
    /\ mmd (dynamic_change_loss_by_bi pos bis).1 = mmd pos
    /\ (is_long (mmd pos) = true -> lp <= lp')
    /\ (is_short (mmd pos) = true -> lp' <= lp).
Proof.
  intros Hlp.
  destruct (dynamic_change_loss_cases pos bis lp Hlp)
    as [b Hb Hbuy Hup | b Hb Hsell Hdn Hnot | Hsome Hnone | Hnone]; simpl.
  - exists (py_max lp (bi_low b)). repeat split.
    + intros _. apply py_max_lower.
    + intros Hs. apply is_short_inv in Hs as [_ Hs]. congruence.
  - exists (py_min lp (bi_high b)). repeat split.
    + intros Hl. apply is_long_inv in Hl as [_ Hl]. congruence.
    + intros _. apply py_min_upper.
  - exists lp. repeat split; auto using Qle_refl.
  - exists lp. repeat split; auto using Qle_refl.
Qed.

(** X2. Moving the stop by the strokes never takes back a stop-loss: for a
    long or a short position, a price at which [check_loss] closes the
    position before a call of [dynamic_change_loss_by_bi] closes it after
    the call as well, with the same instruction. *)
Theorem ratchet_keeps_stop_triggered
    (pos : POSITION) (bis : list BI) (p : Q) (op : Operation) :
  is_long (mmd pos) = true \/ is_short (mmd pos) = true ->
  check_loss (mmd pos) pos p = Some op ->
  check_loss (mmd pos) (dynamic_change_loss_by_bi pos bis).1 p = Some op.
Proof.
  intros Hside Hop.
  destruct (loss_price pos) as [lp |] eqn:Hlp.
  2: { unfold check_loss in Hop. rewrite Hlp in Hop. discriminate. }
  destruct (ratchet_stop_bounds pos bis lp Hlp) as (lp' & Hlp' & _ & Hup & Hdn).
  destruct Hside as [Hl | Hs].
  - rewrite (check_loss_long _ _ _ lp Hl Hlp) in Hop.
    rewrite (check_loss_long _ _ _ lp' Hl Hlp').
    destruct (Qlt_bool p lp) eqn:E; [| discriminate].
    apply Qlt_bool_iff in E.
    assert (E' : Qlt_bool p lp' = true).
    { apply Qlt_bool_iff. eapply Qlt_le_trans; [exact E | now apply Hup]. }
    now rewrite E'.
  - rewrite (check_loss_short _ _ _ lp Hs Hlp) in Hop.
    rewrite (check_loss_short _ _ _ lp' Hs Hlp').
    destruct (Qlt_bool lp p) eqn:E; [| discriminate].
    apply Qlt_bool_iff in E.
    assert (E' : Qlt_bool lp' p = true).
    { apply Qlt_bool_iff. eapply Qle_lt_trans; [now apply Hdn | exact E]. }
    now rewrite E'.
Qed.

(** The long position with its stop at 95, at the price 94, before and
    after the stop went to 97. *)
Lemma ratchet_keeps_stop_triggered_witness :
  check_loss (mmd long_100_95)
    (dynamic_change_loss_by_bi long_100_95 [sample_bi "up" 105 97 true]).1 94
  = Some (stop_loss_close "1buy").
Proof.
  apply (ratchet_keeps_stop_triggered long_100_95
           [sample_bi "up" 105 97 true] 94 (stop_loss_close "1buy")).
  - left. reflexivity.
  - reflexivity.
Defined.

(** X3. With the stop on the losing side of the entry price (at or below
    it for a long position, at or above it for a short one) the two exits
    exclude each other: a price at which [check_loss] closes the position
    is never one at which [check_back_return] closes it, whatever the
    give-back rate. *)
Theorem stop_loss_excludes_give_back
    (m : string) (pos : POSITION) (p lp rate : Q) :
  0 < price pos ->
  loss_price pos = Some lp ->
  (is_long m = true /\ lp <= price pos)
  \/ (is_short m = true /\ price pos <= lp) ->
  (exists op, check_loss m pos p = Some op) ->
  check_back_return m pos p (Some rate) = Ok None.
Proof.
  intros Hentry Hlp Hside [op Hop].
  assert (Hnz : ~ price pos == 0).
  { intros H. rewrite H in Hentry. exact (Qlt_irrefl _ Hentry). }
  assert (Hloss : profit_rate_at m pos p <= 0).
  { destruct Hside as [[Hl Hle] | [Hs Hle]].
    - rewrite (check_loss_long m pos p lp Hl Hlp) in Hop.
      destruct (Qlt_bool p lp) eqn:E; [| discriminate].
      apply Qlt_bool_iff in E. apply is_long_inv in Hl as [_ Hl].
      unfold profit_rate_at. rewrite Hl.
      assert (H : (p - price pos) / price pos <= 0).
      { apply (Qdiv_sign_pos _ _ Hentry). lra. }
      lra.
    - rewrite (check_loss_short m pos p lp Hs Hlp) in Hop.
      destruct (Qlt_bool lp p) eqn:E; [| discriminate].
      apply Qlt_bool_iff in E. apply is_short_inv in Hs as [Hs _].
      unfold profit_rate_at. rewrite Hs.
      assert (H : (price pos - p) / price pos <= 0).
      { apply (Qdiv_sign_pos _ _ Hentry). lra. }
      lra. }
  destruct (check_back_return_cases m pos p rate)
    as [(Hz & _) | [(_ & Hpos & _) | (_ & _ & Hr)]].
  - contradiction.
  - exfalso. exact (Qlt_not_le _ _ Hpos Hloss).
  - exact Hr.
Qed.

(** The long position entered at 100 with its stop at 95, at the price 94. *)
Lemma stop_loss_excludes_give_back_witness :
  check_back_return "1buy" long_100_95 94 (Some 5) = Ok None.
Proof.
  apply (stop_loss_excludes_give_back "1buy" long_100_95 94 95 5).
  - reflexivity.
  - reflexivity.
  - left. split; [reflexivity | discriminate].
  - exists (stop_loss_close "1buy"). reflexivity.
Defined.

(** ** The last completed stroke *)

Lemma find_rev_last {A : Type} (f : A -> bool) (l : list A) (b : A) :
  List.find f (rev l) = Some b <->
  exists l1 l2, l = (l1 ++ b :: l2)%list /\ f b = true
                /\ Forall (fun x => f x = false) l2.
Proof.
  induction l as [| x l IH] using rev_ind.
  - simpl. split; [discriminate |].
    intros (l1 & l2 & H & _). now destruct l1.
  - rewrite rev_unit. simpl. destruct (f x) eqn:Hx.
    + split.
      * intros [= <-]. exists l, []. auto.
      * intros (l1 & l2 & Hl & Hb & Hall).
        destruct l2 as [| y l2] using rev_ind.
        -- apply app_inj_tail in Hl as [_ ->]. reflexivity.
        -- clear IHl2. rewrite app_comm_cons, app_assoc in Hl.
           apply app_inj_tail in Hl as [_ ->].
           apply Forall_app in Hall as [_ Hy].
           apply Forall_inv in Hy. congruence.
    + rewrite IH. split.
      * intros (l1 & l2 & -> & Hb & Hall).
        exists l1, (l2 ++ [x])%list. rewrite <- app_assoc. simpl.
        repeat split; auto. apply Forall_app. auto.
      * intros (l1 & l2 & Hl & Hb & Hall).
        destruct l2 as [| y l2] using rev_ind.
        -- apply app_inj_tail in Hl as [_ ->]. congruence.
        -- clear IHl2. rewrite app_comm_cons, app_assoc in Hl.
           apply app_inj_tail in Hl as [-> ->].
           apply Forall_app in Hall as [Hall _].
           exists l1, l2. auto.
Qed.

(** X4. [last_done_bi] returns the completed stroke that no completed
    stroke follows: it answers [b] exactly when the list is some strokes,
    then [b], completed, then strokes that are all uncompleted. *)
Theorem last_done_bi_spec (bis : list BI) (b : BI) :
  last_done_bi bis = Some b <->
  exists l1 l2, bis = (l1 ++ b :: l2)%list /\ bi_is_done b = true
                /\ Forall (fun x => bi_is_done x = false) l2.
Proof. apply find_rev_last. Qed.

(** ** The confirming fractal *)

Lemma filter_head {A : Type} (f : A -> bool) (l : list A) (x : A)
    (rest : list A) :
  List.filter f l = x :: rest <->
  exists l1 l2, l = (l1 ++ x :: l2)%list
                /\ Forall (fun y => f y = false) l1
                /\ f x = true /\ rest = List.filter f l2.
Proof.
  induction l as [| y l IH]; simpl.
  - split; [discriminate |]. intros (l1 & l2 & H & _). now destruct l1.
  - destruct (f y) eqn:Hy.
    + split.
      * intros [= <- <-]. exists [], l. auto.
      * intros (l1 & l2 & Hl & Hall & Hx & ->).
        destruct l1 as [| z l1]; simpl in Hl.
        -- now injection Hl as <- <-.
        -- injection Hl as <- _. apply Forall_inv in Hall. congruence.
    + rewrite IH. split.
      * intros (l1 & l2 & -> & Hall & Hx & ->).
        exists (y :: l1), l2. auto.
      * intros (l1 & l2 & Hl & Hall & Hx & ->).
        destruct l1 as [| z l1]; simpl in Hl.
        -- injection Hl as <- _. congruence.
        -- injection Hl as <- ->. apply Forall_inv_tail in Hall.
           exists l1, l2. auto.
Qed.

Lemma filter_nil_iff {A : Type} (f : A -> bool) (l : list A) :
  List.filter f l = [] <-> Forall (fun y => f y = false) l.
Proof.
  induction l as [| y l IH]; simpl; [split; auto |].
  destruct (f y) eqn:Hy.
  - split; [discriminate |]. intros H. apply Forall_inv in H. congruence.
  - rewrite IH. split; [auto | apply Forall_inv_tail].
Qed.

(** What [bi_yanzhen_fx] answers once the first candidate is known. *)
Lemma bi_yanzhen_fx_on_candidate (fs : FXS) (bi : BI) (cd : ICL)
    (l1 l2 : list FX) (nx : FX) :
  get_fxs fs = (l1 ++ nx :: l2)%list ->
  Forall (fun fx => follows_end bi fx = false) l1 ->
  follows_end bi nx = true ->
  bi_yanzhen_fx fs bi cd = true <-> confirms_end fs bi cd nx.
Proof.
  intros Hfxs Hl1 Hnx.
  assert (Hfilter : List.filter (follows_end bi) (get_fxs fs)
                    = nx :: List.filter (follows_end bi) l2).
  { apply filter_head. exists l1, l2. auto. }
  unfold bi_yanzhen_fx, confirms_end, latest_bar.
  fold (follows_end bi). rewrite Hfilter.
  destruct (Z.gtb_spec (fx_k_k_index fs nx - fx_k_k_index fs (bi_end bi)) 3)
    as [Hfar | Hnear].
  { split; [discriminate | intros [H _]; lia]. }
  destruct (fx_done nx); cbn [andb].
  2: { destruct (String.eqb (bi_type bi) "up");
         [| destruct (String.eqb (bi_type bi) "down")];
         (split; [discriminate | intros (_ & H & _); discriminate]). }
  destruct (String.eqb_spec (bi_type bi) "up") as [Hup | Hup];
    [| destruct (String.eqb_spec (bi_type bi) "down") as [Hdn | Hdn]].
  - destruct (Qlt_bool (fx_val nx) (fx_val (bi_end bi))) eqn:E1; cbn [andb].
    + destruct (Qlt_bool (k_c (seq1_last (get_klines cd)))
                         (fx_low (bi_end bi) (get_config_fx_qj cd))) eqn:E2.
      * apply Qlt_bool_iff in E1, E2. split; [intros _ | reflexivity].
        repeat split; auto.
      * apply Qlt_bool_false in E2. split; [discriminate |].
        intros (_ & _ & [(_ & _ & H) | (H & _)]); [| congruence].
        exfalso. exact (Qlt_not_le _ _ H E2).
    + apply Qlt_bool_false in E1. split; [discriminate |].
      intros (_ & _ & [(_ & H & _) | (H & _)]); [| congruence].
      exfalso. exact (Qlt_not_le _ _ H E1).
  - destruct (Qlt_bool (fx_val (bi_end bi)) (fx_val nx)) eqn:E1; cbn [andb].
    + destruct (Qlt_bool (fx_high (bi_end bi) (get_config_fx_qj cd))
                         (k_c (seq1_last (get_klines cd)))) eqn:E2.
      * apply Qlt_bool_iff in E1, E2. split; [intros _ | reflexivity].
        repeat split; auto.
      * apply Qlt_bool_false in E2. split; [discriminate |].
        intros (_ & _ & [(H & _) | (_ & _ & H)]); [congruence |].
        exfalso. exact (Qlt_not_le _ _ H E2).
    + apply Qlt_bool_false in E1. split; [discriminate |].
      intros (_ & _ & [(H & _) | (_ & H & _)]); [congruence |].
      exfalso. exact (Qlt_not_le _ _ H E1).
  - split; [discriminate |].
    intros (_ & _ & [(H & _) | (H & _)]); contradiction.
Qed.

(** X5. [bi_yanzhen_fx] judges by the first fractal after the end of the
    stroke that is of the same kind, and by no other: it answers True
    exactly when there is such a first candidate and that one is at most 3
    bar-structure indices away, is confirmed, and for an upward stroke lies
    strictly below the ending fractal with the latest close below the low
    band (for a downward stroke strictly above, with the close above the
    high band).  Without a candidate the answer is False, and what follows
    the first candidate in the list has no influence. *)
Theorem bi_yanzhen_fx_spec (fs : FXS) (bi : BI) (cd : ICL) :
  (bi_yanzhen_fx fs bi cd = true <->
   exists l1 nx l2,
     get_fxs fs = (l1 ++ nx :: l2)%list
     /\ Forall (fun fx => follows_end bi fx = false) l1
     /\ follows_end bi nx = true
     /\ confirms_end fs bi cd nx)
  /\ (Forall (fun fx => follows_end bi fx = false) (get_fxs fs) ->
      bi_yanzhen_fx fs bi cd = false)
  /\ (forall l1 nx l2 l2',
        get_fxs fs = (l1 ++ nx :: l2)%list ->
        Forall (fun fx => follows_end bi fx = false) l1 ->
        follows_end bi nx = true ->
        bi_yanzhen_fx (mkFXS (l1 ++ nx :: l2') (fx_k_k_index fs)) bi cd
        = bi_yanzhen_fx fs bi cd).
Proof.
  split; [| split].
  - destruct (List.filter (follows_end bi) (get_fxs fs)) as [| nx rest] eqn:E.
    + assert (Hf : bi_yanzhen_fx fs bi cd = false).
      { unfold bi_yanzhen_fx. fold (follows_end bi). now rewrite E. }
      rewrite Hf. split; [discriminate |].
      intros (l1 & nx & l2 & Hfxs & Hl1 & Hnx & _).
      assert (H : List.filter (follows_end bi) (get_fxs fs)
                  = nx :: List.filter (follows_end bi) l2)
        by (apply filter_head; exists l1, l2; auto).
      congruence.
    + apply filter_head in E as (l1 & l2 & Hfxs & Hl1 & Hnx & _).
      rewrite (bi_yanzhen_fx_on_candidate fs bi cd l1 l2 nx Hfxs Hl1 Hnx).
      split.
      * intros H. exists l1, nx, l2. auto.
      * intros (l1' & nx' & l2' & Hfxs' & Hl1' & Hnx' & Hc).
        assert (H1 : List.filter (follows_end bi) (get_fxs fs)
                     = nx :: List.filter (follows_end bi) l2)
          by (apply filter_head; exists l1, l2; auto).
        assert (H2 : List.filter (follows_end bi) (get_fxs fs)
                     = nx' :: List.filter (follows_end bi) l2')
          by (apply filter_head; exists l1', l2'; auto).
        rewrite H1 in H2. injection H2 as -> _. exact Hc.
  - intros H. apply filter_nil_iff in H.
    unfold bi_yanzhen_fx. fold (follows_end bi). now rewrite H.
  - intros l1 nx l2 l2' Hfxs Hl1 Hnx.
    destruct (bi_yanzhen_fx fs bi cd) eqn:E.
    + apply (bi_yanzhen_fx_on_candidate fs bi cd l1 l2 nx Hfxs Hl1 Hnx) in E.
      apply (bi_yanzhen_fx_on_candidate
               (mkFXS (l1 ++ nx :: l2') (fx_k_k_index fs)) bi cd l1 l2' nx);
        auto.
    + destruct (bi_yanzhen_fx (mkFXS (l1 ++ nx :: l2') (fx_k_k_index fs)) bi cd)
        eqn:E'; [| reflexivity].
      apply (bi_yanzhen_fx_on_candidate
               (mkFXS (l1 ++ nx :: l2') (fx_k_k_index fs)) bi cd l1 l2' nx)
        in E'; auto.
      apply (bi_yanzhen_fx_on_candidate fs bi cd l1 l2 nx Hfxs Hl1 Hnx) in E'.
      congruence.
Qed.

(** ** The signal types since a time *)

Lemma occurrences_cons (m x : string) (ms : list string) :
  occurrences m (x :: ms)
  = ((if decide (x = m) then 1 else 0) + occurrences m ms)%nat.
Proof.
  unfold occurrences. rewrite filter_cons. now destruct (decide (x = m)).
Qed.

Lemma occurrences_app (m : string) (a b : list string) :
  occurrences m (a ++ b) = (occurrences m a + occurrences m b)%nat.
Proof. unfold occurrences. now rewrite filter_app, length_app. Qed.

Lemma count_mmds_tally (ms : list string) (counts : gmap string nat)
    (m : string) :
  tally (count_mmds ms counts) m = (tally counts m + occurrences m ms)%nat.
Proof.
  revert counts. induction ms as [| x ms IH]; intros counts.
  - unfold occurrences. simpl. lia.
  - unfold count_mmds in *. simpl. rewrite IH, occurrences_cons.
    unfold tally.
    destruct (counts !! x) as [n |] eqn:E; destruct (decide (x = m)) as [-> | Hne].
    + rewrite lookup_insert_eq, E. simpl. lia.
    + rewrite lookup_insert_ne by exact Hne. lia.
    + rewrite lookup_insert_eq, E. simpl. lia.
    + rewrite lookup_insert_ne by exact Hne. lia.
Qed.

Lemma count_mmds_counted (ms : list string) (counts : gmap string nat) :
  counted counts -> counted (count_mmds ms counts).
Proof.
  revert counts. induction ms as [| x ms IH]; intros counts Hc; [exact Hc |].
  unfold count_mmds in *. simpl. apply IH.
  intros m n. destruct (counts !! x) as [k |] eqn:E;
    (destruct (decide (x = m)) as [-> | Hne];
     [rewrite lookup_insert_eq; intros [= <-]; lia
     | rewrite lookup_insert_ne by exact Hne; apply Hc]).
Qed.

(** The outer loop counts the lines up to the first old one. *)
Lemma count_lines_spec (start : Z) (reversed : list LINE)
    (counts : gmap string nat) :
  exists r1 r2,
    reversed = (r1 ++ r2)%list
    /\ Forall (recent start) r1
    /\ (forall l, head r2 = Some l -> ~ recent start l)
    /\ (forall m, tally (count_lines start reversed counts) m
                  = (tally counts m
                     + occurrences m (flat_map line_mmds r1))%nat)
    /\ (counted counts -> counted (count_lines start reversed counts)).
Proof.
  revert counts. induction reversed as [| l rest IH]; intros counts.
  - exists [], [].
    split; [reflexivity |]. split; [constructor |].
    split; [intros l H; discriminate |].
    split; [| auto]. intros m. unfold occurrences. simpl. lia.
  - simpl. destruct (Z.leb_spec start (line_start_date l)) as [Hrec | Hold].
    + destruct (IH (count_mmds (line_mmds l) counts))
        as (r1 & r2 & -> & Hr1 & Hr2 & Htally & Hcounted).
      exists (l :: r1), r2.
      split; [reflexivity |]. split; [now constructor |].
      split; [exact Hr2 |]. split.
      * intros m. rewrite Htally, count_mmds_tally. simpl.
        rewrite occurrences_app. lia.
      * intros Hc. apply Hcounted. now apply count_mmds_counted.
    + exists [], (l :: rest).
      split; [reflexivity |]. split; [constructor |].
      split; [intros l' [= <-]; unfold recent; lia |].
      split; [| auto]. intros m. unfold occurrences. simpl. lia.
Qed.

Lemma occurrences_flat_map_rev (m : string) (ls : list LINE) :
  occurrences m (flat_map line_mmds (rev ls))
  = occurrences m (flat_map line_mmds ls).
Proof.
  induction ls as [| l ls IH]; [reflexivity |].
  simpl. rewrite flat_map_app, !occurrences_app, IH. simpl.
  rewrite app_nil_r. lia.
Qed.

(** X6. [check_datetime_mmd] counts over the trailing run of lines that
    start at [start_datetime] or later: the lines split into a front part
    that is empty or ends with a line older than that, and a tail of recent
    lines; every signal type that occurs in the tail is a key, with the
    number of its occurrences there, and nothing else is a key.  A line
    older than the time hides every line before it, recent or not. *)
Theorem check_datetime_mmd_spec (start : Z) (cd : LINES) (check_line : string) :
  let lines := if String.eqb check_line "bi" then lines_bis cd
               else lines_xds cd in
  exists front tail,
    lines = (front ++ tail)%list
    /\ Forall (recent start) tail
    /\ (forall l, last front = Some l -> ~ recent start l)
    /\ forall m,
         check_datetime_mmd start cd check_line !! m
         = match occurrences m (flat_map line_mmds tail) with
           | O => None
           | S n => Some (S n)
           end.
Proof.
  cbv zeta. unfold check_datetime_mmd.
  set (lines := if String.eqb check_line "bi" then lines_bis cd
                else lines_xds cd).
  destruct (count_lines_spec start (rev lines) ∅)
    as (r1 & r2 & Hrev & Hr1 & Hr2 & Htally & Hcounted).
  exists (rev r2), (rev r1).
  split; [| split; [| split]].
  - rewrite <- rev_app_distr, <- Hrev. now rewrite rev_involutive.
  - now apply Forall_rev.
  - intros l Hl. apply Hr2. rewrite <- Hl.
    destruct r2 as [| x r2]; [reflexivity |]. simpl. now rewrite last_snoc.
  - intros m. rewrite occurrences_flat_map_rev.
    specialize (Htally m). unfold tally in Htally.
    rewrite lookup_empty in Htally. simpl in Htally.
    assert (Hc : counted (count_lines start (rev lines) ∅)).
    { apply Hcounted. intros k n H. rewrite lookup_empty in H. discriminate. }
    destruct (count_lines start (rev lines) ∅ !! m) as [n |] eqn:E.
    + simpl in Htally. specialize (Hc m n E).
      rewrite <- Htally. destruct n; [lia | reflexivity].
    + simpl in Htally. now rewrite <- Htally.
Qed.

(** Three strokes, the middle one older than the time asked for: only the
    last one is counted, the first one is hidden. *)
Example check_datetime_mmd_sample :
  check_datetime_mmd 100
    (mkLINES [mkLINE 120 ["1buy"]; mkLINE 90 ["2buy"];
              mkLINE 130 ["3buy"; "l3buy"; "3buy"]] [])
    "bi"
  = {[ "3buy" := 2%nat; "l3buy" := 1%nat ]}.
Proof. vm_compute. reflexivity. Qed.

(** ** The divergence angle: what it can return *)

(** The computation of [points_jiaodu] on two or more extrema. *)
Lemma points_jiaodu_two (points : list Q) (position : string) :
  (2 <= length (find_fxs position (number_points 0 (talib_MA_2 points))))%nat ->
  exists i1 v1 i2 v2,
    i1 <> i2
    /\ points_jiaodu points position
       = Ok (Real (angle_of (rational_slope v1 v2 i1 i2))).
Proof.
  set (fxs := find_fxs position (number_points 0 (talib_MA_2 points))).
  intros Hlen.
  destruct (sorted_fxs_facts points position) as (Hperm & Hfin & Hnd & _).
  fold fxs in Hperm, Hfin, Hnd.
  destruct (py_sorted (fx_before position) fxs) as [| [i1 w1] [| [i2 w2] rest]]
    eqn:Esorted.
  { apply Permutation_length in Hperm. simpl in Hperm. lia. }
  { apply Permutation_length in Hperm. simpl in Hperm. lia. }
  apply Forall_cons in Hfin as [[v1 Hv1] Hfin].
  apply Forall_cons in Hfin as [[v2 Hv2] _].
  simpl in Hv1, Hv2. subst w1 w2.
  assert (Hi : i1 <> i2).
  { simpl in Hnd. apply NoDup_cons in Hnd as [Hnot _].
    intros ->. apply Hnot. left. }
  exists i1, v1, i2, v2. split; [exact Hi |].
  unfold points_jiaodu. destruct points as [| q points'].
  { subst fxs. simpl in Hlen. lia. }
  change (length (q :: points') =? 0)%nat with false. cbv zeta. fold fxs.
  apply Nat.ltb_ge in Hlen. rewrite Hlen, Esorted.
  simpl. now rewrite jiaodu_finite.
Qed.

Lemma angle_of_bounds (k : Q) : (-90 < angle_of k < 90)%R.
Proof.
  unfold angle_of. destruct (atan_bound (Q2R k)) as [Hlo Hhi].
  pose proof PI_RGT_0 as Hpi. pose proof degrees_factor_pos as Hd.
  assert (E : (PI / 2 * (180 / PI) = 90)%R) by (field; Lra.lra).
  assert (E' : (- (PI / 2) * (180 / PI) = -90)%R) by (field; Lra.lra).
  split.
  - rewrite <- E'. apply Rmult_lt_compat_r; [exact Hd | Lra.lra].
  - rewrite <- E. apply Rmult_lt_compat_r; [exact Hd | Lra.lra].
Qed.


(** Extracted indices lie from 2 up to the last index of the input. *)
Lemma find_fxs_index_range (points : list Q) (position : string)
    (p : nat * npfloat) :
  p ∈ find_fxs position (number_points 0 (talib_MA_2 points)) ->
  (2 <= p.1 < length points)%nat.
Proof.
  destruct p as [i v]. intros Hin.
  apply find_fxs_extracted in Hin as (x1 & x2 & Hi & E1 & E2 & _ & _).
  simpl. split.
  - destruct (i - 1)%nat as [| k] eqn:Ek; [| lia].
    apply talib_MA_2_undefined in E1. discriminate.
  - apply lookup_lt_Some in E2. now rewrite talib_MA_2_length in E2.
Qed.

Lemma find_fxs_length (points : list Q) (position : string) :
  (length (find_fxs position (number_points 0 (talib_MA_2 points)))
   <= length points - 2)%nat.
Proof.
  set (fxs := find_fxs position (number_points 0 (talib_MA_2 points))).
  assert (H : (length (map fst fxs)
               <= length (seq 2 (length points - 2)))%nat).
  { apply submseteq_length, NoDup_submseteq; [apply find_fxs_NoDup |].
    intros i Hi. apply list_elem_of_In, in_map_iff in Hi as (p & <- & Hp).
    apply list_elem_of_In in Hp.
    apply find_fxs_index_range in Hp. apply elem_of_seq. lia. }
  now rewrite length_seq, length_map in H.
Qed.

(** X8. A series of n points has at most n - 2 extrema, so that fewer than
    four points always give the angle 0; and so does every kind other than
    'up' and 'down'. *)
Theorem points_jiaodu_needs_four_points (points : list Q) (position : string) :
  (length (find_fxs position (number_points 0 (talib_MA_2 points)))
   <= length points - 2)%nat
  /\ ((length points < 4)%nat -> points_jiaodu points position = Ok (Real 0))
  /\ (position <> "up" -> position <> "down" ->
      points_jiaodu points position = Ok (Real 0)).
Proof.
  assert (Hzero : (length (find_fxs position
                             (number_points 0 (talib_MA_2 points))) < 2)%nat ->
                  points_jiaodu points position = Ok (Real 0)).
  { intros Hlt. unfold points_jiaodu.
    destruct (length points =? 0)%nat; [reflexivity |]. cbv zeta.
    apply Nat.ltb_lt in Hlt. now rewrite Hlt. }
  split; [apply find_fxs_length |]. split.
  - intros Hlen. apply Hzero.
    pose proof (find_fxs_length points position). lia.
  - intros Hup Hdn. apply Hzero.
    destruct (find_fxs position (number_points 0 (talib_MA_2 points)))
      as [| p rest] eqn:E; [simpl; lia |].
    destruct (find_fxs_position points position p) as [H | H];
      [rewrite E; left | contradiction | contradiction].
Qed.

(** * Further properties of backtest.py *)

(** ** Saving and loading *)

Lemma getattr_Some (self : gmap string attr) (n : string) (a : attr) :
  self !! n = Some a -> getattr self n = Ok a.
Proof. intros H. unfold getattr. now rewrite H. Qed.

Lemma getattr_None (self : gmap string attr) (n : string) :
  self !! n = None -> getattr self n = Raise (AttributeError n).
Proof. intros H. unfold getattr. now rewrite H. Qed.

(** The dict display holds, under each of its keys, the attribute of that
    name. *)
Lemma read_attrs_lookup (self : gmap string attr) (names : list string) :
  (forall n, n ∈ names -> is_Some (self !! n)) ->
  exists entries,
    read_attrs self names = Ok entries
    /\ forall k, (list_to_map entries : gmap string attr) !! k
                 = if decide (k ∈ names) then self !! k else None.
Proof.
  induction names as [| n names IH]; intros Hall.
  - exists []. split; [reflexivity |]. intros k.
    rewrite decide_False by apply not_elem_of_nil. reflexivity.
  - destruct (Hall n) as [a Ha]; [left |].
    destruct IH as (entries & Hread & Hlook).
    { intros k Hk. apply Hall. now right. }
    exists ((n, a) :: entries). split.
    + simpl. rewrite (getattr_Some _ _ _ Ha). simpl. now rewrite Hread.
    + intros k. simpl. destruct (decide (n = k)) as [<- | Hne].
      * rewrite lookup_insert_eq, decide_True by left. now symmetry.
      * rewrite lookup_insert_ne by exact Hne. rewrite Hlook.
        destruct (decide (k ∈ names)) as [Hin | Hnot].
        -- rewrite decide_True by now right. reflexivity.
        -- rewrite decide_False; [reflexivity |].
           intros [-> | H]%elem_of_cons; contradiction.
Qed.

(** The assignments of [load] put every key of the list on the object and
    touch nothing else. *)
Lemma assign_from_lookup (d : gmap string attr) (names : list string)
    (self : gmap string attr) :
  (forall n, n ∈ names -> is_Some (d !! n)) ->
  exists self',
    assign_from d names self = (self', Ok tt)
    /\ forall k, self' !! k
                 = if decide (k ∈ names) then d !! k else self !! k.
Proof.
  revert self. induction names as [| n names IH]; intros self Hall.
  - exists self. split; [reflexivity |]. intros k.
    rewrite decide_False by apply not_elem_of_nil. reflexivity.
  - destruct (Hall n) as [a Ha]; [left |].
    destruct (IH (<[ n := a ]> self)) as (self' & Hassign & Hlook).
    { intros k Hk. apply Hall. now right. }
    exists self'. split.
    + simpl. now rewrite Ha.
    + intros k. rewrite Hlook.
      destruct (decide (k ∈ names)) as [Hin | Hnot].
      * rewrite decide_True by now right. reflexivity.
      * destruct (decide (n = k)) as [<- | Hne].
        -- rewrite lookup_insert_eq, decide_True by left. now symmetry.
        -- rewrite lookup_insert_ne by exact Hne.
           rewrite decide_False; [reflexivity |].
           intros [-> | H]%elem_of_cons; contradiction.
Qed.

(** Membership of a given string in a given list of strings. *)
Ltac in_names := apply list_elem_of_In; simpl; auto 30.
Ltac not_in_names :=
  let H := fresh in
  intros H; apply list_elem_of_In in H; simpl in H;
  repeat (destruct H as [H | H]; [discriminate H |]); exact H.

(** X9. What [save] wrote, [load] brings back.  For an object that has its
    logger, all the attributes [save] reads and a string for [save_file],
    [save] writes one file, at that path, and leaves every other file as it
    was; [load] of that file into any object with a logger then returns
    normally, gives each of the seventeen saved attributes the value it had
    on the saved object, sets [datas] to a provider rebuilt from the
    restored market, time range, frequencies and pattern configuration,
    and leaves every other attribute of the loading object alone. *)
Theorem save_load_round_trip
    (self other : gmap string attr) (fs : files) (path : string) :
  self !! "save_file" = Some (AVal (VStr path)) ->
  self !! "log" = Some ALogger ->
  (forall n, n ∈ saved_names -> is_Some (self !! n)) ->
  other !! "log" = Some ALogger ->
  exists fs',
    save self fs = Ok (fs', [("save to : " ++ path)%string])
    /\ (forall p, p <> path -> fs' !! p = fs !! p)
    /\ exists loaded datas,
         load other fs' path = (loaded, Ok ["Load OK"])
         /\ (forall n, n ∈ saved_names -> loaded !! n = self !! n)
         /\ loaded !! "datas" = Some (ADatas datas)
         /\ (forall v, self !! "market" = Some (AVal v) -> ka_market datas = v)
         /\ (forall v, self !! "start_datetime" = Some (AVal v) ->
                       ka_start_datetime datas = v)
         /\ (forall v, self !! "end_datetime" = Some (AVal v) ->
                       ka_end_datetime datas = v)
         /\ (forall v, self !! "frequencys" = Some (AVal v) ->
                       ka_frequencys datas = v)
         /\ (forall v, self !! "cl_config" = Some (AVal v) ->
                       ka_cl_config datas = v)
         /\ (forall k, k ∉ saved_names -> k <> "datas" ->
                       loaded !! k = other !! k).
Proof.
  unfold files in *. intros Hsf Hlog Hall Hlog'.
  destruct (read_attrs_lookup self saved_names Hall) as (entries & Hread & Hd).
  set (d := (list_to_map entries : gmap string attr)) in *.
  exists (<[ path := d ]> fs). split; [| split].
  - unfold save. rewrite (getattr_Some _ _ _ Hsf).
    cbv beta iota delta [mbind result_bind]. rewrite Hread.
    cbv beta iota. unfold log_info.
    rewrite (getattr_Some _ _ _ Hlog). reflexivity.
  - intros p Hp. now rewrite lookup_insert_ne.
  - assert (Hd_all : forall n, n ∈ saved_names -> is_Some (d !! n)).
    { intros n Hn. rewrite Hd, decide_True by exact Hn. now apply Hall. }
    destruct (assign_from_lookup d saved_names other Hd_all)
      as (self1 & Hassign & H1).
    assert (Hrestored : forall n, n ∈ saved_names -> self1 !! n = self !! n).
    { intros n Hn. rewrite H1, decide_True by exact Hn.
      rewrite Hd, decide_True by exact Hn. reflexivity. }
    assert (Hget : forall n, n ∈ saved_names ->
              exists a, self !! n = Some a /\ getattr self1 n = Ok a).
    { intros n Hn. destruct (Hall n Hn) as [a Ha]. exists a.
      split; [exact Ha |]. apply getattr_Some. now rewrite Hrestored. }
    destruct (Hget "market") as (a1 & Ha1 & G1); [in_names |].
    destruct (Hget "start_datetime") as (a2 & Ha2 & G2); [in_names |].
    destruct (Hget "end_datetime") as (a3 & Ha3 & G3); [in_names |].
    destruct (Hget "frequencys") as (a4 & Ha4 & G4); [in_names |].
    destruct (Hget "cl_config") as (a5 & Ha5 & G5); [in_names |].
    eexists _, _. split.
    { unfold load, files. rewrite lookup_insert_eq, Hassign, G1, G2, G3, G4, G5.
      cbv beta iota delta [mbind result_bind]. unfold log_info, getattr.
      rewrite lookup_insert_ne by discriminate.
      rewrite H1, decide_False by not_in_names. rewrite Hlog'. reflexivity. }
    split.
    { intros n Hn. rewrite lookup_insert_ne.
      - now apply Hrestored.
      - intros <-. revert Hn. not_in_names. }
    split; [apply lookup_insert_eq |].
    split; [intros v Hv; rewrite Hv in Ha1; now injection Ha1 as <- |].
    split; [intros v Hv; rewrite Hv in Ha2; now injection Ha2 as <- |].
    split; [intros v Hv; rewrite Hv in Ha3; now injection Ha3 as <- |].
    split; [intros v Hv; rewrite Hv in Ha4; now injection Ha4 as <- |].
    split; [intros v Hv; rewrite Hv in Ha5; now injection Ha5 as <- |].
    intros k Hk Hk'. rewrite lookup_insert_ne by congruence.
    rewrite H1, decide_False by exact Hk. reflexivity.
Qed.

(** The object saved after its construction from [saved_config], loaded
    into the object that [BackTest()] builds. *)
Lemma save_load_round_trip_witness :
  exists fs',
    save saved_object ∅ = Ok (fs', ["save to : backtest.pkl"])
    /\ exists loaded,
         load bare_object fs' "backtest.pkl" = (loaded, Ok ["Load OK"])
         /\ loaded !! "mode" = Some (AVal (VStr "signal"))
         /\ loaded !! "trader" = saved_object !! "trader".
Proof.
  destruct (save_load_round_trip saved_object bare_object ∅ "backtest.pkl")
    as (fs' & Hsave & _ & loaded & datas & Hload & Hnames & _).
  - vm_compute. reflexivity.
  - vm_compute. reflexivity.
  - intros n Hn. apply list_elem_of_In in Hn. simpl in Hn.
    repeat (destruct Hn as [<- | Hn]; [eexists; vm_compute; reflexivity |]).
    destruct Hn.
  - vm_compute. reflexivity.
  - exists fs'. split; [exact Hsave |]. exists loaded.
    split; [exact Hload |]. split.
    + rewrite (Hnames "mode") by (apply list_elem_of_In; simpl; auto 30).
      vm_compute. reflexivity.
    + apply Hnames. apply list_elem_of_In. simpl. auto 30.
Defined.

(** The object that a complete configuration yields, attribute by
    attribute. *)
Lemma BackTest_init_object (config : gmap string pyval)
    (obj : gmap string attr) :
  BackTest_init (Some config) = Ok obj ->
  (forall k, In k check_keys ->
     exists v, config !! k = Some v /\ obj !! k = Some (AVal v))
  /\ obj !! "log" = Some ALogger
  /\ obj !! "save_file" = Some (AVal (py_get config "save_file"))
  /\ obj !! "next_frequency" = Some (AVal VNone)
  /\ is_Some (obj !! "trader")
  /\ is_Some (obj !! "datas")
  /\ (forall k, ~ In k init_names -> obj !! k = None).
Proof.
  intros Hinit.
  destruct (first_missing config) as [k |] eqn:Hmiss.
  { rewrite (BackTest_init_missing config k Hmiss) in Hinit. discriminate. }
  pose proof (proj1 (first_missing_None config) Hmiss) as H.
  assert (Hk : forall k, In k check_keys -> exists v, config !! k = Some v).
  { intros k Hin. destruct (H k Hin) as [v Hv]. eauto. }
  unfold BackTest_init in Hinit. fold (first_missing config) in Hinit.
  rewrite Hmiss in Hinit. unfold py_getitem in Hinit.
  destruct (Hk "mode") as [v1 E1]; [simpl; tauto |].
  destruct (Hk "market") as [v2 E2]; [simpl; tauto |].
  destruct (Hk "base_code") as [v3 E3]; [simpl; tauto |].
  destruct (Hk "codes") as [v4 E4]; [simpl; tauto |].
  destruct (Hk "frequencys") as [v5 E5]; [simpl; tauto |].
  destruct (Hk "start_datetime") as [v6 E6]; [simpl; tauto |].
  destruct (Hk "end_datetime") as [v7 E7]; [simpl; tauto |].
  destruct (Hk "init_balance") as [v8 E8]; [simpl; tauto |].
  destruct (Hk "fee_rate") as [v9 E9]; [simpl; tauto |].
  destruct (Hk "max_pos") as [v10 E10]; [simpl; tauto |].
  destruct (Hk "cl_config") as [v11 E11]; [simpl; tauto |].
  destruct (Hk "is_stock") as [v12 E12]; [simpl; tauto |].
  destruct (Hk "is_futures") as [v13 E13]; [simpl; tauto |].
  destruct (Hk "strategy") as [v14 E14]; [simpl; tauto |].
  rewrite E1, E2, E3, E4, E5, E6, E7, E8, E9, E10, E11, E12, E13, E14 in Hinit.
  cbv beta iota delta [mbind result_bind] in Hinit.
  injection Hinit as <-.
  split.
  { intros k Hin. simpl in Hin.
    repeat (destruct Hin as [<- | Hin];
            [eexists; split; [eassumption | reflexivity] |]).
    destruct Hin. }
  split; [reflexivity |]. split; [reflexivity |]. split; [reflexivity |].
  split; [eexists; reflexivity |]. split; [eexists; reflexivity |].
  intros k Hk'. unfold init_names, check_keys in Hk'. simpl in Hk'.
  repeat (rewrite lookup_insert_ne by (intros <-; apply Hk'; auto 30)).
  apply lookup_singleton_ne. intros <-. apply Hk'. auto 30.
Qed.

(** X10. [save] writes only to a path it was given.  On an object that has
    no attribute [save_file], as the one [BackTest()] builds, it raises
    AttributeError; on an object whose [save_file] is [None], as every
    object built from a configuration without that key, it returns at once:
    no file is written or changed and nothing is logged. *)
Theorem save_without_save_file (self : gmap string attr) (fs : files) :
  (self !! "save_file" = None ->
   save self fs = Raise (AttributeError "save_file"))
  /\ (self !! "save_file" = Some (AVal VNone) -> save self fs = Ok (fs, []))
  /\ (BackTest_init None = Ok self ->
      save self fs = Raise (AttributeError "save_file"))
  /\ (forall config,
        BackTest_init (Some config) = Ok self ->
        config !! "save_file" = None ->
        save self fs = Ok (fs, [])).
Proof.
  assert (H1 : self !! "save_file" = None ->
               save self fs = Raise (AttributeError "save_file")).
  { intros H. unfold save. now rewrite (getattr_None _ _ H). }
  assert (H2 : self !! "save_file" = Some (AVal VNone) ->
               save self fs = Ok (fs, [])).
  { intros H. unfold save. now rewrite (getattr_Some _ _ _ H). }
  split; [exact H1 |]. split; [exact H2 |]. split.
  - intros [= <-]. apply H1. reflexivity.
  - intros config Hinit Hsf. apply H2.
    destruct (BackTest_init_object config self Hinit) as (_ & _ & -> & _).
    unfold py_get. now rewrite Hsf.
Qed.

(** X11. The constructor reads the fourteen required entries and
    [save_file] and nothing else: two configurations that agree on these
    keys build the same object or fail alike; and the object built has
    exactly the attributes [log], [save_file], [trader], [datas],
    [next_frequency] and the fourteen required names, each required name
    holding the entry of the configuration, [save_file] holding [None] when
    the configuration has none. *)
Theorem BackTest_init_reads_only (config : gmap string pyval) :
  (forall config',
     (forall k, In k ("save_file" :: check_keys) -> config !! k = config' !! k) ->
     BackTest_init (Some config) = BackTest_init (Some config'))
  /\ (forall obj,
        BackTest_init (Some config) = Ok obj ->
        (forall k, is_Some (obj !! k) <-> In k init_names)
        /\ (forall k, In k check_keys ->
              exists v, config !! k = Some v /\ obj !! k = Some (AVal v))
        /\ obj !! "save_file" = Some (AVal (py_get config "save_file"))).
Proof.
  split.
  - intros config' Hagree.
    assert (H : forall k, In k ("save_file" :: check_keys) ->
                          config !! k = config' !! k) by exact Hagree.
    unfold BackTest_init, py_getitem, py_get, check_keys. simpl List.find.
    rewrite !(H "save_file"), !(H "mode"), !(H "market"), !(H "base_code"),
      !(H "codes"), !(H "frequencys"), !(H "start_datetime"),
      !(H "end_datetime"), !(H "init_balance"), !(H "fee_rate"),
      !(H "max_pos"), !(H "cl_config"), !(H "is_stock"), !(H "is_futures"),
      !(H "strategy") by (simpl; auto 30).
    reflexivity.
  - intros obj Hinit.
    destruct (BackTest_init_object config obj Hinit)
      as (Hkeys & Hlog & Hsf & Hnf & Htr & Hda & Hother).
    split; [| split; [exact Hkeys | exact Hsf]].
    intros k. split.
    + intros Hk. destruct (in_dec String.string_dec k init_names) as [Hin | Hnot];
        [exact Hin |].
      rewrite (Hother k Hnot) in Hk. now destruct Hk.
    + intros Hin. unfold init_names in Hin. simpl in Hin.
      destruct Hin as [<- | [<- | [<- | [<- | [<- | Hin]]]]];
        try (eexists; eassumption); try assumption.
      destruct (Hkeys k Hin) as (v & _ & Hv). eauto.
Qed.

(** ** The report *)

Lemma mmd_name_known (k : string) :
  In k (map fst mmds) -> exists name, mmd_name k = Ok name /\ In (k, name) mmds.
Proof.
  intros Hin. unfold mmd_name.
  destruct (List.find (fun p => String.eqb p.1 k) mmds) as [p |] eqn:E.
  - apply find_some in E as [Hp Hk]. apply String.eqb_eq in Hk.
    exists p.2. split; [reflexivity |]. destruct p as [k' n]. simpl in *.
    now subst k'.
  - apply in_map_iff in Hin as (p & Hp & Hin).
    pose proof (find_none _ _ E p Hin) as Hk. simpl in Hk.
    rewrite Hp, String.eqb_refl in Hk. discriminate.
Qed.

Lemma mmd_name_unknown (k : string) :
  ~ In k (map fst mmds) -> mmd_name k = Raise (KeyError k).
Proof.
  intros Hnot. unfold mmd_name.
  destruct (List.find (fun p => String.eqb p.1 k) mmds) as [p |] eqn:E;
    [| reflexivity].
  apply find_some in E as [Hp Hk]. apply String.eqb_eq in Hk.
  exfalso. apply Hnot. apply in_map_iff. exists p. now split.
Qed.

(** X12. The table of [result] has a row for a signal type only if the type
    is one of the fourteen labels of [mmds].  When every key of
    [trader.results] is one of them the table has one row per key, in the
    order of the dict, under the display name of the key, and no ratio of a
    row divides by zero; the first key that is not raises KeyError and no
    table is returned. *)
Theorem result_table_spec (results : list (string * MmdResult)) :
  (Forall (fun kr => In kr.1 (map fst mmds)) results ->
   exists tb,
     result_table results = Ok tb
     /\ length tb = length results
     /\ forall i k r, results !! i = Some (k, r) ->
          exists name row,
            tb !! i = Some (name, row)
            /\ In (k, name) mmds
            /\ result_row r = Ok row)
  /\ (forall pre k r post,
        results = (pre ++ (k, r) :: post)%list ->
        Forall (fun kr => In kr.1 (map fst mmds)) pre ->
        ~ In k (map fst mmds) ->
        result_table results = Raise (KeyError k)).
Proof.
  split.
  - induction results as [| [k r] rest IH]; intros Hall.
    + exists []. split; [reflexivity |]. split; [reflexivity |].
      intros i k r H. destruct i; discriminate.
    + apply Forall_cons in Hall as [Hk Hrest].
      destruct (IH Hrest) as (tb & Htb & Hlen & Hrows).
      destruct (mmd_name_known k Hk) as (name & Hname & Hin).
      destruct (result_row_total r) as [row Hrow].
      exists ((name, row) :: tb). split.
      { simpl. rewrite Hname, Hrow, Htb. reflexivity. }
      split; [simpl; now rewrite Hlen |].
      intros [| i] k' r' H.
      * injection H as <- <-. exists name, row. now repeat split.
      * apply (Hrows i k' r' H).
  - intros pre k r post -> Hpre Hk.
    induction pre as [| [k0 r0] pre IH].
    + simpl. now rewrite (mmd_name_unknown k Hk).
    + apply Forall_cons in Hpre as [Hk0 Hpre].
      destruct (mmd_name_known k0 Hk0) as (name & Hname & _).
      destruct (result_row_total r0) as [row Hrow].
      simpl. rewrite Hname, Hrow.
      cbv beta iota delta [mbind result_bind].
      change (result_table (pre ++ (k, r) :: post)) with
        (result_table (pre ++ (k, r) :: post)%list).
      now rewrite (IH Hpre).
Qed.

Lemma Q_of_N_pos (n : N) : n <> 0%N -> 0 < Q_of_N n.
Proof.
  intros H. unfold Q_of_N, Qlt. simpl. lia.
Qed.

Lemma Q_of_N_nonzero (n : N) : n <> 0%N -> ~ Q_of_N n == 0.
Proof.
  intros H E. pose proof (Q_of_N_pos n H) as Hpos. rewrite E in Hpos.
  now apply Qlt_irrefl in Hpos.
Qed.

Lemma Q_of_N_add (n m : N) : Q_of_N (n + m) == Q_of_N n + Q_of_N m.
Proof.
  unfold Q_of_N. rewrite N2Z.inj_add, inject_Z_plus. reflexivity.
Qed.

(** X13. The win rate of a row is a percentage: it is always defined, lies
    between 0 and 100, is 0 exactly when no trade was won and 100 exactly
    when trades were won and none was lost. *)
Theorem shenglv_percentage (r : MmdResult) :
  exists s,
    shenglv r = Ok s
    /\ 0 <= s /\ s <= 100
    /\ (s == 0 <-> win_num r = 0%N)
    /\ (s == 100 <-> win_num r <> 0%N /\ loss_num r = 0%N).
Proof.
  unfold shenglv.
  destruct (N.eqb_spec (win_num r) 0) as [Hw | Hw];
    destruct (N.eqb_spec (loss_num r) 0) as [Hl | Hl]; simpl.
  - exists 0. split; [reflexivity |].
    repeat split; intros; try lra; try tauto; try (intuition congruence).
  - rewrite py_div_defined by (apply Q_of_N_nonzero; lia).
    eexists. split; [reflexivity |].
    assert (E : Q_of_N (win_num r) / Q_of_N (win_num r + loss_num r) * 100
                == 0).
    { rewrite Hw. change (Q_of_N 0) with 0. unfold Qdiv. lra. }
    rewrite E.
    repeat split; intros; try lra; try tauto; try (intuition congruence).
  - pose proof (Q_of_N_pos _ Hw) as Hpos.
    rewrite py_div_defined by (apply Q_of_N_nonzero; lia).
    eexists. split; [reflexivity |].
    assert (E : Q_of_N (win_num r) / Q_of_N (win_num r + loss_num r) * 100
                == 100).
    { rewrite Hl, N.add_0_r. field. lra. }
    rewrite E.
    repeat split; intros; try lra; try tauto; try (intuition congruence).
  - pose proof (Q_of_N_pos _ Hw) as Hpw. pose proof (Q_of_N_pos _ Hl) as Hpl.
    rewrite py_div_defined by (apply Q_of_N_nonzero; lia).
    eexists. split; [reflexivity |].
    assert (Hs : Q_of_N (win_num r + loss_num r)
                 == Q_of_N (win_num r) + Q_of_N (loss_num r))
      by apply Q_of_N_add.
    rewrite Hs.
    set (w := Q_of_N (win_num r)) in *. set (l := Q_of_N (loss_num r)) in *.
    assert (H0 : 0 < w / (w + l)) by (apply Qlt_shift_div_l; lra).
    assert (H1 : w / (w + l) < 1) by (apply Qlt_shift_div_r; lra).
    repeat split; intros; try lra; try tauto; try (intuition congruence).
Qed.

(** ** The drawdown statistics *)

Lemma Qeq_bool_pos_false (h : Q) : 0 < h -> Qeq_bool h 0 = false.
Proof.
  intros H. apply Qeq_bool_false_iff. intros E. rewrite E in H.
  now apply Qlt_irrefl in H.
Qed.

Lemma ddpercent_entry (b h : Q) :
  0 < h ->
  np_mul (np_div (Fin (b - h)) (Fin h)) (Fin 100) = Fin (dd_value b h).
Proof.
  intros H. simpl. now rewrite (Qeq_bool_pos_false h H).
Qed.

Lemma Qmax_pos (h b : Q) : 0 < h -> 0 < Qmax h b.
Proof.
  intros H. apply Qlt_le_trans with h; [exact H | apply Q.le_max_l].
Qed.

Lemma ddpercent_values (h : Q) (l : list Q) :
  0 < h ->
  zip_with (fun b h => np_mul (np_div (Fin (b - h)) (Fin h)) (Fin 100))
           l (running_max h l)
  = map Fin (zip_with dd_value l (running_max h l)).
Proof.
  revert h. induction l as [| b rest IH]; intros h Hh; [reflexivity |].
  simpl running_max. cbn [zip_with map].
  rewrite (IH (Qmax h b) (Qmax_pos h b Hh)).
  now rewrite (ddpercent_entry b (Qmax h b) (Qmax_pos h b Hh)).
Qed.

Lemma dd_value_range (b h : Q) :
  0 < b -> b <= h -> -100 < dd_value b h /\ dd_value b h <= 0.
Proof.
  intros Hb Hbh. assert (Hh : 0 < h) by lra. unfold dd_value.
  assert (H1 : -1 < (b - h) / h) by (apply Qlt_shift_div_l; lra).
  assert (H2 : (b - h) / h <= 0) by (apply Qle_shift_div_r; lra).
  split; lra.
Qed.

Lemma dd_value_zero (b h : Q) :
  0 < h -> b <= h -> (dd_value b h == 0 <-> h <= b).
Proof.
  intros Hh Hbh. unfold dd_value. split.
  - intros E. destruct (Qlt_le_dec b h) as [Hlt | Hle]; [| exact Hle].
    assert (H : (b - h) / h < 0) by (apply Qlt_shift_div_r; lra).
    lra.
  - intros Hle. assert (E : b - h == 0) by lra. rewrite E.
    unfold Qdiv. ring.
Qed.

Lemma dd_values_range (h : Q) (l : list Q) :
  0 < h -> Forall (Qlt 0) l ->
  Forall (fun d => -100 < d /\ d <= 0) (zip_with dd_value l (running_max h l)).
Proof.
  revert h. induction l as [| b rest IH]; intros h Hh Hpos; [constructor |].
  apply Forall_cons in Hpos as [Hb Hrest].
  simpl running_max. cbn [zip_with]. constructor.
  - apply dd_value_range; [exact Hb | apply Q.le_max_r].
  - apply IH; [now apply Qmax_pos | exact Hrest].
Qed.

Lemma Forall_Qle_trans (a b : Q) (l : list Q) :
  a <= b -> Forall (Qle b) l -> Forall (Qle a) l.
Proof.
  intros Hab H. eapply Forall_impl; [exact H |].
  intros x Hx. now apply Qle_trans with b.
Qed.

Lemma dd_values_zero (h : Q) (l : list Q) :
  0 < h ->
  Forall (fun d => d == 0) (zip_with dd_value l (running_max h l))
  <-> Forall (Qle h) l /\ StronglySorted Qle l.
Proof.
  revert h. induction l as [| b rest IH]; intros h Hh.
  { split; [intros _; split; constructor | intros _; constructor]. }
  simpl running_max. cbn [zip_with].
  pose proof (Q.le_max_l h b) as Hl. pose proof (Q.le_max_r h b) as Hr.
  pose proof (Qmax_pos h b Hh) as Hpos.
  split.
  - intros H. apply Forall_cons in H as [Hz Hrest].
    apply (dd_value_zero b (Qmax h b) Hpos Hr) in Hz.
    apply (IH (Qmax h b) Hpos) in Hrest as [Hall Hsorted].
    assert (Hhb : h <= b) by lra.
    assert (Hb : Forall (Qle b) rest)
      by (apply Forall_Qle_trans with (Qmax h b); assumption).
    split.
    + constructor; [exact Hhb |]. now apply Forall_Qle_trans with b.
    + now constructor.
  - intros [Hall Hsorted]. apply Forall_cons in Hall as [Hhb Hall].
    apply StronglySorted_inv in Hsorted as [Hsorted Hb].
    assert (Hm : Qmax h b <= b) by (rewrite (Q.max_r h b Hhb); lra).
    constructor.
    + apply (dd_value_zero b (Qmax h b) Hpos Hr). exact Hm.
    + apply (IH (Qmax h b) Hpos). split; [| exact Hsorted].
      now apply Forall_Qle_trans with b.
Qed.

Lemma series_min_Fin (qs : list Q) :
  qs <> [] ->
  exists m, series_min (map Fin qs) = Fin m /\ In m qs /\ Forall (Qle m) qs.
Proof.
  induction qs as [| q rest IH]; [congruence |]. intros _.
  destruct rest as [| q' rest'].
  - exists q. split; [reflexivity |]. split; [now left |].
    constructor; [lra | constructor].
  - destruct IH as (m & Hm & Hin & Hall); [congruence |].
    unfold series_min in *. cbn [map foldr] in *. rewrite Hm.
    cbn [np_lt]. unfold Qlt_bool.
    destruct (Qle_bool m q) eqn:E; simpl.
    + apply Qle_bool_iff in E. exists m. split; [reflexivity |].
      split; [now right |]. now constructor.
    + assert (Hlt : q < m).
      { apply Qnot_le_lt. intros H. apply Qle_bool_iff in H. congruence. }
      exists q. split; [reflexivity |]. split; [now left |].
      constructor; [lra |]. apply Forall_Qle_trans with m; [lra | exact Hall].
Qed.

(** X14. While every day balance is positive, the largest percentage
    drawdown is a number in (-100, 0], and it is 0 exactly when no balance
    is below an earlier one.  The return/drawdown ratio is then a finite
    number exactly when some balance did fall below an earlier one and the
    initial balance is not 0. *)
Theorem max_ddpercent_positive_balances
    (balances : list Q) (init_balance : Q) :
  balances <> [] ->
  Forall (Qlt 0) balances ->
  exists d v,
    max_ddpercent balances = Fin d
    /\ -100 < d /\ d <= 0
    /\ (d == 0 <-> StronglySorted Qle balances)
    /\ return_drawdown_ratio balances init_balance = Ok v
    /\ (is_finite v = true <-> ~ d == 0 /\ ~ init_balance == 0).
Proof.
  intros Hne Hpos.
  destruct balances as [| b rest] eqn:Eb; [congruence |]. rewrite <- Eb.
  assert (Hb : 0 < b) by (now apply Forall_cons in Hpos as [? _]).
  assert (Hrest : Forall (Qlt 0) rest)
    by (now apply Forall_cons in Hpos as [_ ?]).
  set (qs := dd_value b b :: zip_with dd_value rest (running_max b rest)).
  assert (Hdd : ddpercent balances = map Fin qs).
  { rewrite Eb. unfold ddpercent, highlevel. cbn [zip_with].
    rewrite (ddpercent_entry b b Hb).
    now rewrite (ddpercent_values b rest Hb). }
  assert (Hrange : Forall (fun d => -100 < d /\ d <= 0) qs).
  { constructor; [apply dd_value_range; lra |].
    now apply dd_values_range. }
  assert (Hzero : Forall (fun d => d == 0) qs <-> StronglySorted Qle balances).
  { rewrite Eb. unfold qs. split.
    - intros H. apply Forall_cons in H as [_ H].
      apply (dd_values_zero b rest Hb) in H as [Hall Hsorted].
      now constructor.
    - intros H. apply StronglySorted_inv in H as [Hsorted Hall].
      constructor; [apply dd_value_zero; lra |].
      apply (dd_values_zero b rest Hb). now split. }
  destruct (series_min_Fin qs) as (d & Hd & Hin & Hmin); [discriminate |].
  assert (Hmax : max_ddpercent balances = Fin d).
  { unfold max_ddpercent. now rewrite Hdd. }
  pose proof (proj1 (List.Forall_forall _ _) Hrange d Hin) as [Hlo Hhi].
  assert (Hdz : d == 0 <-> StronglySorted Qle balances).
  { rewrite <- Hzero. split.
    - intros E. apply List.Forall_forall. intros q Hq.
      pose proof (proj1 (List.Forall_forall _ _) Hrange q Hq) as [_ Hq0].
      pose proof (proj1 (List.Forall_forall _ _) Hmin q Hq) as Hdq. lra.
    - intros H. apply (proj1 (List.Forall_forall _ _) H d Hin). }
  destruct (last balances) as [e |] eqn:El;
    [| apply last_None in El; congruence].
  assert (He : 0 < e).
  { assert (Hall : Forall (Qlt 0) balances) by (now rewrite Eb).
    apply last_Some in El as [l' El]. rewrite El in Hall.
    apply (proj1 (List.Forall_forall _ _) Hall e).
    apply in_or_app. right. now left. }
  exists d.
  exists (np_div (np_neg (total_return e init_balance)) (Fin d)).
  split; [exact Hmax |]. split; [exact Hlo |]. split; [exact Hhi |].
  split; [exact Hdz |]. split.
  { unfold return_drawdown_ratio. now rewrite El, Hmax. }
  unfold total_return. cbn [np_div].
  destruct (Qeq_bool init_balance 0) eqn:Ei.
  - apply Qeq_bool_iff in Ei. unfold np_signed_inf.
    assert (E0 : Qlt_bool 0 e = true) by (now apply Qlt_bool_iff).
    rewrite E0. simpl.
    split; [| tauto]. now destruct (Qlt_bool d 0).
  - apply Qeq_bool_false_iff in Ei. simpl.
    destruct (Qeq_bool d 0) eqn:Ed.
    + apply Qeq_bool_iff in Ed. rewrite np_signed_inf_not_finite.
      split; [discriminate | tauto].
    + apply Qeq_bool_false_iff in Ed. simpl. tauto.
Qed.

(** Day balances 100, 90 and 110 from an initial balance of 100: the
    largest drawdown is -10 percent and the ratio is 1. *)
Lemma max_ddpercent_positive_balances_witness :
  exists d v,
    max_ddpercent [100; 90; 110] = Fin d
    /\ -100 < d /\ d <= 0
    /\ (d == 0 <-> StronglySorted Qle [100; 90; 110])
    /\ return_drawdown_ratio [100; 90; 110] 100 = Ok v
    /\ (is_finite v = true <-> ~ d == 0 /\ ~ 100 == 0).
Proof.
  apply (max_ddpercent_positive_balances [100; 90; 110] 100).
  - discriminate.
  - repeat constructor.
Defined.

(** ** Loading a file that lacks a name *)

Lemma assign_from_stops (d : gmap string attr) (pre : list string)
    (n : string) (post : list string) (self : gmap string attr) :
  (forall k, In k pre -> is_Some (d !! k)) ->
  d !! n = None ->
  exists self',
    assign_from d (pre ++ n :: post) self = (self', Raise (KeyError n))
    /\ (forall k, In k pre -> self' !! k = d !! k)
    /\ (forall k, ~ In k pre -> self' !! k = self !! k).
Proof.
  intros Hpre Hn. revert self.
  induction pre as [| p pre IH]; intros self.
  - exists self. simpl. rewrite Hn. split; [reflexivity |].
    split; [intros k [] | reflexivity].
  - destruct (Hpre p) as [a Ha]; [now left |].
    destruct (IH (fun k Hk => Hpre k (or_intror Hk)) (<[ p := a ]> self))
      as (self' & Hrun & Hin & Hout).
    exists self'. split; [simpl; rewrite Ha; exact Hrun |]. split.
    + intros k Hk.
      destruct (in_dec String.string_dec k pre) as [Hk' | Hk'];
        [now apply Hin |].
      destruct Hk as [<- | Hk]; [| contradiction].
      rewrite (Hout p Hk'), lookup_insert_eq. now rewrite Ha.
    + intros k Hk. rewrite Hout by (intros H; apply Hk; now right).
      apply lookup_insert_ne. intros <-. apply Hk. now left.
Qed.

(** X15. [load] is not atomic.  When the dict of the file lacks one of the
    seventeen names, [load] raises KeyError for the first name it lacks,
    and the object is left with every name before it already overwritten
    from the file; the other attributes, [datas] among them, are as they
    were. *)
Theorem load_missing_key
    (self : gmap string attr) (fs : files) (_file : string)
    (d : gmap string attr) (pre : list string) (n : string)
    (post : list string) :
  fs !! _file = Some d ->
  saved_names = (pre ++ n :: post)%list ->
  (forall k, In k pre -> is_Some (d !! k)) ->
  d !! n = None ->
  exists self',
    load self fs _file = (self', Raise (KeyError n))
    /\ (forall k, In k pre -> self' !! k = d !! k)
    /\ (forall k, ~ In k pre -> self' !! k = self !! k).
Proof.
  intros Hfile Hnames Hpre Hn.
  destruct (assign_from_stops d pre n post self Hpre Hn)
    as (self' & Hrun & Hin & Hout).
  exists self'. split; [| split; [exact Hin | exact Hout]].
  unfold load. unfold files in *. rewrite Hfile, Hnames, Hrun. reflexivity.
Qed.

(** A file that holds [save_file] only, loaded into the object built from
    [saved_config]: the path to save to is lost, the mode is kept. *)
Lemma load_missing_key_witness :
  exists self',
    load saved_object truncated_file "old.pkl" = (self', Raise (KeyError "mode"))
    /\ self' !! "save_file" = Some (AVal VNone)
    /\ self' !! "mode" = saved_object !! "mode".
Proof.
  destruct (load_missing_key saved_object truncated_file "old.pkl"
              {[ "save_file" := AVal VNone ]} ["save_file"] "mode"
              (List.tl (List.tl saved_names)))
    as (self' & Hload & Hin & Hout).
  - reflexivity.
  - reflexivity.
  - intros k [<- | []]. eexists. reflexivity.
  - reflexivity.
  - exists self'. split; [exact Hload |]. split.
    + rewrite (Hin "save_file") by (now left). reflexivity.
    + apply Hout. intros [H | []]. discriminate.
Defined.

(** ** The positions table *)

Lemma position_rows_plain (_code : string) (ps : list POSITION) :
  position_rows _code ps None = Ok (map (p_obj _code) ps).
Proof.
  induction ps as [| p ps IH]; [reflexivity |].
  simpl. now rewrite IH.
Qed.

Lemma add_info_defined (p : POSITION) (cols : list string)
    (obj : gmap string cell) :
  (exists row, add_info p cols obj = Ok row) <-> has_columns cols p.
Proof.
  revert obj. induction cols as [| c cols IH]; intros obj.
  - split; [intros _ col [] | intros _; eexists; reflexivity].
  - simpl. split.
    + intros [row Hrow] col Hcol.
      destruct (info_getitem (info p) c) as [v |] eqn:E; [| discriminate].
      destruct Hcol as [<- | Hcol]; [eauto |].
      apply (proj1 (IH _) (ex_intro _ row Hrow) col Hcol).
    + intros H. destruct (H c) as [v Hv]; [now left |]. rewrite Hv.
      apply IH. intros col Hcol. apply H. now right.
Qed.

Lemma position_rows_length (_code : string) (ps : list POSITION)
    (add_columns : option (list string)) (rows : list (gmap string cell)) :
  position_rows _code ps add_columns = Ok rows -> length rows = length ps.
Proof.
  revert rows. induction ps as [| p ps IH]; intros rows; simpl.
  - now intros [= <-].
  - destruct (position_row _code p add_columns) as [row |]; [| discriminate].
    destruct (position_rows _code ps add_columns) as [more |];
      [| discriminate].
    intros [= <-]. simpl. now rewrite (IH more).
Qed.

Lemma position_rows_defined (_code : string) (ps : list POSITION)
    (cols : list string) :
  (exists rows, position_rows _code ps (Some cols) = Ok rows)
  <-> Forall (has_columns cols) ps.
Proof.
  induction ps as [| p ps IH].
  - split; [constructor | intros _; now exists []].
  - simpl. split.
    + intros [rows Hrows].
      destruct (add_info p cols (p_obj _code p)) as [row |] eqn:E;
        [| discriminate].
      destruct (position_rows _code ps (Some cols)) as [more |] eqn:E';
        [| discriminate].
      constructor.
      * apply (add_info_defined p cols (p_obj _code p)). eauto.
      * apply IH. eauto.
    + intros H. apply Forall_cons in H as [Hp Hps].
      apply (add_info_defined p cols (p_obj _code p)) in Hp as [row ->].
      apply IH in Hps as [more ->].
      now exists (row :: more).
Qed.

Lemma positions_length (hist : list (string * list POSITION))
    (add_columns : option (list string)) (rows : list (gmap string cell)) :
  positions hist None add_columns = Ok rows ->
  length rows = length (all_positions hist).
Proof.
  revert rows. induction hist as [| [c ps] hist IH]; intros rows; simpl.
  - now intros [= <-].
  - destruct (position_rows c ps add_columns) as [here |] eqn:E;
      [| discriminate].
    destruct (positions hist None add_columns) as [more |]; [| discriminate].
    intros [= <-]. unfold all_positions. simpl.
    rewrite !length_app, (position_rows_length _ _ _ _ E).
    now rewrite (IH more).
Qed.

(** X16. [positions(code)] is [positions()] of the history restricted to
    that code.  Without added columns the call never fails and gives one
    row per position, in the order of the history, whose [code] is the key
    the position is listed under; with added columns it gives a row per
    position exactly when the [info] of every position holds every column
    asked for, and raises otherwise. *)
Theorem positions_spec (hist : list (string * list POSITION)) :
  (forall c add_columns,
     positions hist (Some c) add_columns
     = positions (List.filter (fun kv => String.eqb kv.1 c) hist) None
                 add_columns)
  /\ positions hist None None
     = Ok (flat_map (fun kv => map (p_obj kv.1) kv.2) hist)
  /\ (forall cols,
        (exists rows, positions hist None (Some cols) = Ok rows
                      /\ length rows = length (all_positions hist))
        <-> Forall (has_columns cols) (all_positions hist))
  /\ (forall c p, p_obj c p !! "code" = Some (CStr c)).
Proof.
  split; [| split; [| split]].
  - intros c add_columns. induction hist as [| [k ps] hist IH];
      [reflexivity |].
    simpl. destruct (String.eqb k c); simpl; [| exact IH].
    now rewrite IH.
  - induction hist as [| [k ps] hist IH]; [reflexivity |].
    simpl. rewrite position_rows_plain, IH. reflexivity.
  - intros cols. split.
    + intros (rows & Hrows & _). revert rows Hrows.
      induction hist as [| [k ps] hist IH]; intros rows Hrows;
        [constructor |].
      simpl in Hrows. unfold all_positions. simpl.
      destruct (position_rows k ps (Some cols)) as [here |] eqn:E;
        [| discriminate].
      destruct (positions hist None (Some cols)) as [more |] eqn:E';
        [| discriminate].
      apply Forall_app. split.
      * apply (position_rows_defined k ps cols). eauto.
      * apply (IH more eq_refl).
    + intros H.
      assert (Hex : exists rows, positions hist None (Some cols) = Ok rows).
      { induction hist as [| [k ps] hist IH]; [now exists [] |].
        unfold all_positions in H. simpl in H.
        apply Forall_app in H as [Hps Hrest].
        apply (position_rows_defined k ps cols) in Hps as [here Hhere].
        destruct (IH Hrest) as [more Hmore].
        exists (here ++ more)%list. simpl. now rewrite Hhere, Hmore. }
      destruct Hex as [rows Hrows]. exists rows.
      split; [exact Hrows | now apply positions_length in Hrows].
  - intros c p. reflexivity.
Qed.

(** ** The series of the profit chart *)

Lemma dict_total_add {K : Type} `{EqDecision K}
    (d : list (K * Q)) (k : K) (v : Q) (k' : K) :
  default 0 (dict_get (dict_add Qplus d k v) k')
  == default 0 (dict_get d k') + (if decide (k = k') then v else 0).
Proof.
  induction d as [| [k0 v0] d IH]; simpl.
  - destruct (decide (k = k')); simpl; lra.
  - destruct (decide (k0 = k)) as [-> | Hk0]; simpl.
    + destruct (decide (k = k')); simpl; lra.
    + destruct (decide (k0 = k')) as [-> | Hk0'].
      * destruct (decide (k = k')); [congruence |]. simpl. lra.
      * exact IH.
Qed.

Lemma total_nps_from (ps : list POSITION) (d : list (option string * Q))
    (k : option string) :
  default 0
    (dict_get
       (foldl (fun d p => dict_add Qplus d (close_datetime p) (net_profit p))
              d ps) k)
  == default 0 (dict_get d k)
     + Qsum (map net_profit
               (List.filter (fun p => bool_decide (close_datetime p = k)) ps)).
Proof.
  revert d. induction ps as [| p ps IH]; intros d; simpl.
  - unfold Qsum. simpl. lra.
  - rewrite IH, dict_total_add.
    destruct (decide (close_datetime p = k)) as [E | E].
    + rewrite (bool_decide_eq_true_2 _ E). unfold Qsum. simpl. lra.
    + rewrite (bool_decide_eq_false_2 _ E). lra.
Qed.

Lemma total_nps_closed_at (ps : list POSITION) (_dt : string) :
  default 0 (dict_get (total_nps ps) (Some _dt)) == closed_at ps _dt.
Proof.
  unfold total_nps, closed_at. rewrite total_nps_from. simpl. lra.
Qed.

Lemma closed_at_perm (ps ps' : list POSITION) (_dt : string) :
  ps ≡ₚ ps' -> closed_at ps _dt == closed_at ps' _dt.
Proof.
  unfold closed_at, Qsum.
  induction 1 as [| p l l' _ IH | p q l | l l' l'' _ IH1 _ IH2]; simpl.
  - reflexivity.
  - destruct (bool_decide (close_datetime p = Some _dt)); simpl;
      [rewrite IH; reflexivity | exact IH].
  - destruct (bool_decide (close_datetime p = Some _dt));
      destruct (bool_decide (close_datetime q = Some _dt)); simpl; lra.
  - now rewrite IH1.
Qed.

Lemma sorted_by_close_perm (ps ps' : list POSITION) :
  sorted_by_close ps = Ok ps' -> ps' ≡ₚ ps.
Proof.
  unfold sorted_by_close. destruct ps as [| p [| q ps]].
  - now intros [= <-].
  - now intros [= <-].
  - destruct (forallb _ _); [| discriminate]. intros [= <-].
    exact (py_sorted_perm close_before (p :: q :: ps)).
Qed.

Lemma chart_after_snoc (bh : gmap string Q)
    (nps : list (option string * Q)) (sums : list (string * (Q * Z)))
    (dts : list string) (_dt : string) :
  chart_after bh nps sums (dts ++ [_dt])
  = chart_step bh nps sums (chart_after bh nps sums dts) _dt.
Proof.
  unfold chart_after. now rewrite foldl_app.
Qed.

Lemma chart_after_shape (bh : gmap string Q)
    (nps : list (option string * Q)) (sums : list (string * (Q * Z)))
    (dts : list string) :
  cs_base_datetime (chart_after bh nps sums dts) = dts
  /\ sr_datetime (cs_balance (chart_after bh nps sums dts)) = dts
  /\ sr_datetime (cs_net_profit (chart_after bh nps sums dts)) = dts
  /\ sr_datetime (cs_hold_profit (chart_after bh nps sums dts)) = dts
  /\ sr_datetime (cs_hold_num (chart_after bh nps sums dts)) = dts
  /\ length (sr_val (cs_balance (chart_after bh nps sums dts))) = length dts
  /\ length (sr_val (cs_net_profit (chart_after bh nps sums dts))) = length dts
  /\ length (sr_val (cs_hold_profit (chart_after bh nps sums dts))) = length dts
  /\ length (sr_val (cs_hold_num (chart_after bh nps sums dts))) = length dts.
Proof.
  induction dts as [| _dt dts IH] using rev_ind.
  - repeat split; reflexivity.
  - destruct IH as (H1 & H2 & H3 & H4 & H5 & H6 & H7 & H8 & H9).
    rewrite chart_after_snoc. unfold chart_step, push. cbn [cs_base_datetime
      cs_balance cs_net_profit cs_hold_profit cs_hold_num sr_datetime sr_val].
    rewrite H1, H2, H3, H4, H5, !length_app, H6, H7, H8, H9.
    repeat split; reflexivity.
Qed.

Lemma chart_total_np (bh : gmap string Q)
    (nps : list (option string * Q)) (sums : list (string * (Q * Z)))
    (dts : list string) :
  cs_total_np (chart_after bh nps sums dts)
  == Qsum (map (fun _dt => default 0 (dict_get nps (Some _dt))) dts).
Proof.
  induction dts as [| _dt dts IH] using rev_ind.
  - reflexivity.
  - rewrite chart_after_snoc. unfold chart_step. cbn [cs_total_np].
    rewrite map_app. unfold Qsum in *. rewrite foldr_app. simpl.
    assert (Hacc : forall (l : list Q) (a : Q),
               foldr Qplus a l == foldr Qplus 0 l + a).
    { induction l as [| x l IHl]; intros a; simpl; [lra |].
      rewrite IHl. lra. }
    rewrite Hacc, <- IH.
    destruct (dict_get nps (Some _dt)); simpl; lra.
Qed.

Lemma chart_net_profit_at (bh : gmap string Q)
    (nps : list (option string * Q)) (sums : list (string * (Q * Z)))
    (dts : list string) (i : nat) :
  (i < length dts)%nat ->
  sr_val (cs_net_profit (chart_after bh nps sums dts)) !! i
  = Some (cs_total_np (chart_after bh nps sums (take (S i) dts))).
Proof.
  induction dts as [| _dt dts IH] using rev_ind; intros Hi.
  - simpl in Hi. lia.
  - rewrite length_app in Hi. simpl in Hi.
    destruct (chart_after_shape bh nps sums dts) as (_ & _ & _ & _ & _ & _ & Hlen & _).
    rewrite chart_after_snoc.
    unfold chart_step at 1, push. cbn [cs_net_profit sr_val].
    destruct (decide (i < length dts)%nat) as [Hlt | Hge].
    + rewrite lookup_app_l by lia. rewrite (IH Hlt).
      now rewrite take_app_le by lia.
    + assert (Ei : i = length dts) by lia. subst i.
      rewrite lookup_app_r by lia. rewrite Hlen, Nat.sub_diag. simpl.
      rewrite take_ge by (rewrite length_app; simpl; lia).
      rewrite chart_after_snoc. reflexivity.
Qed.

Lemma chart_balance_at (bh : gmap string Q)
    (nps : list (option string * Q)) (sums : list (string * (Q * Z)))
    (dts : list string) (i : nat) (_dt : string) :
  dts !! i = Some _dt ->
  sr_val (cs_balance (chart_after bh nps sums dts)) !! i
  = Some match bh !! _dt with
         | Some b => b
         | None =>
             match i with
             | O => 0
             | S j => default 0 (sr_val (cs_balance (chart_after bh nps sums dts)) !! j)
             end
         end.
Proof.
  revert i _dt. induction dts as [| d dts IH] using rev_ind; intros i _dt Hi.
  - discriminate.
  - destruct (chart_after_shape bh nps sums dts) as (_ & _ & _ & _ & _ & Hlen & _).
    rewrite chart_after_snoc.
    unfold chart_step, push. cbn [cs_balance sr_val].
    set (vals := sr_val (cs_balance (chart_after bh nps sums dts))) in *.
    destruct (decide (i < length dts)%nat) as [Hlt | Hge].
    + rewrite lookup_app_l in Hi by lia.
      rewrite lookup_app_l by lia. rewrite (IH i _dt Hi).
      destruct (bh !! _dt); [reflexivity |].
      destruct i as [| j]; [reflexivity |].
      now rewrite (lookup_app_l vals _ j) by lia.
    + assert (Hlen' : (length (dts ++ [d]) = S (length dts))%nat)
        by (rewrite length_app; simpl; lia).
      pose proof (lookup_lt_Some _ _ _ Hi) as Hb.
      assert (Ei : i = length dts) by lia. subst i.
      rewrite lookup_app_r in Hi by lia.
      rewrite Nat.sub_diag in Hi. simpl in Hi.
      assert (Ed : d = _dt) by congruence. subst d. clear Hi.
      rewrite lookup_app_r by lia. rewrite Hlen.
      replace (length dts - length dts)%nat with O by lia. simpl.
      destruct (bh !! _dt); [reflexivity |].
      clear IH. clearbody vals.
      destruct dts as [| d0 dts'] using rev_ind.
      * destruct vals as [| v0 vals0]; [reflexivity | simpl in Hlen; lia].
      * clear IHdts'. rewrite length_app in *. simpl in *.
        destruct vals as [| v vals'] using rev_ind;
          [simpl in Hlen; lia |].
        clear IHvals'. rewrite length_app in Hlen. simpl in Hlen.
        rewrite last_snoc.
        replace (length dts' + 1)%nat with (S (length dts')) by lia.
        rewrite lookup_app_l by (rewrite length_app; simpl; lia).
        rewrite lookup_app_r by lia.
        replace (length dts' - length vals')%nat with O by lia.
        reflexivity.
Qed.

Lemma Qsum_map_ext {A : Type} (f g : A -> Q) (l : list A) :
  (forall x, f x == g x) -> Qsum (map f l) == Qsum (map g l).
Proof.
  intros H. unfold Qsum. induction l as [| x l IH]; simpl; [reflexivity |].
  now rewrite IH, (H x).
Qed.

(** X17. The net profit series of the chart is cumulative: its value at a
    bar is the sum, over the bars up to and including it, of the net profit
    [profit_rate / 100 * balance] of the positions closed at the time of
    that bar.  A position closed at a time that is no bar of the base code
    is never counted. *)
Theorem backtest_charts_net_profit
    (base_klines : list (string * Q))
    (positions_history : list (string * list POSITION))
    (hold_profit_history : list (string * list (string * Q)))
    (balance_history : gmap string Q) (ch : Charts) :
  backtest_charts base_klines positions_history hold_profit_history
                  balance_history = Ok ch ->
  sr_datetime (ch_net_profit_history ch) = map fst base_klines
  /\ forall i, (i < length base_klines)%nat ->
       exists v,
         sr_val (ch_net_profit_history ch) !! i = Some v
         /\ v == Qsum (map (closed_at (all_positions positions_history))
                           (take (S i) (map fst base_klines))).
Proof.
  unfold backtest_charts. intros H.
  destruct (sorted_by_close (all_positions positions_history))
    as [ps |] eqn:Es; [| discriminate].
  cbv beta iota delta [mbind result_bind] in H. injection H as <-.
  cbn [ch_net_profit_history].
  set (nps := total_nps ps). set (sums := hold_sums hold_profit_history).
  split.
  - apply (chart_after_shape balance_history nps sums (map fst base_klines)).
  - intros i Hi. eexists. split.
    + apply chart_net_profit_at. now rewrite length_map.
    + rewrite chart_total_np. apply Qsum_map_ext. intros _dt.
      unfold nps. rewrite total_nps_closed_at.
      apply closed_at_perm. now apply sorted_by_close_perm.
Qed.

Lemma backtest_charts_net_profit_witness :
  sr_datetime (ch_net_profit_history sample_charts) = map fst sample_klines
  /\ forall i, (i < length sample_klines)%nat ->
       exists v,
         sr_val (ch_net_profit_history sample_charts) !! i = Some v
         /\ v == Qsum (map (closed_at (all_positions sample_history))
                           (take (S i) (map fst sample_klines))).
Proof.
  apply (backtest_charts_net_profit sample_klines sample_history []
           sample_balances sample_charts).
  vm_compute. reflexivity.
Defined.

Lemma balance_carried (bh : gmap string Q)
    (nps : list (option string * Q)) (sums : list (string * (Q * Z)))
    (dts : list string) (j : nat) (dtj : string) (b : Q) (i : nat) :
  (j <= i)%nat -> (i < length dts)%nat ->
  dts !! j = Some dtj -> bh !! dtj = Some b ->
  (forall k dtk, (j < k <= i)%nat -> dts !! k = Some dtk -> bh !! dtk = None) ->
  sr_val (cs_balance (chart_after bh nps sums dts)) !! i = Some b.
Proof.
  intros Hji Hi Hj Hb. induction i as [| i IH]; intros Hgap.
  - assert (j = O) by lia. subst j.
    rewrite (chart_balance_at bh nps sums dts O dtj Hj). now rewrite Hb.
  - destruct (decide (j = S i)) as [-> | Hne].
    + rewrite (chart_balance_at bh nps sums dts (S i) dtj Hj). now rewrite Hb.
    + destruct (lookup_lt_is_Some_2 dts (S i) Hi) as [dti Hdti].
      rewrite (chart_balance_at bh nps sums dts (S i) dti Hdti).
      rewrite (Hgap (S i) dti) by (lia || assumption).
      rewrite IH; [reflexivity | lia | lia |].
      intros k dtk Hk. apply Hgap. lia.
Qed.

Lemma balance_unset (bh : gmap string Q)
    (nps : list (option string * Q)) (sums : list (string * (Q * Z)))
    (dts : list string) (i : nat) :
  (i < length dts)%nat ->
  (forall k dtk, (k <= i)%nat -> dts !! k = Some dtk -> bh !! dtk = None) ->
  sr_val (cs_balance (chart_after bh nps sums dts)) !! i = Some 0.
Proof.
  induction i as [| i IH]; intros Hi Hgap;
    destruct (lookup_lt_is_Some_2 dts _ Hi) as [dti Hdti];
    rewrite (chart_balance_at bh nps sums dts _ dti Hdti).
  - now rewrite (Hgap O dti) by (lia || assumption).
  - rewrite (Hgap (S i) dti) by (lia || assumption).
    rewrite IH; [reflexivity | lia |].
    intros k dtk Hk. apply Hgap. lia.
Qed.

(** X18. Every series of the chart has one point per bar of the base code,
    dated like the bars and in their order; the base series holds the
    closes.  The balance series is filled forward: its value at a bar is the
    balance recorded at the latest bar up to it that has one, and 0 while
    no bar has had one. *)
Theorem backtest_charts_series
    (base_klines : list (string * Q))
    (positions_history : list (string * list POSITION))
    (hold_profit_history : list (string * list (string * Q)))
    (balance_history : gmap string Q) (ch : Charts) :
  backtest_charts base_klines positions_history hold_profit_history
                  balance_history = Ok ch ->
  (sr_datetime (ch_base_prices ch) = map fst base_klines
   /\ sr_datetime (ch_balance_history ch) = map fst base_klines
   /\ sr_datetime (ch_net_profit_history ch) = map fst base_klines
   /\ sr_datetime (ch_hold_profit_history ch) = map fst base_klines
   /\ sr_datetime (ch_hold_num_history ch) = map fst base_klines)
  /\ (sr_val (ch_base_prices ch) = map snd base_klines
      /\ length (sr_val (ch_balance_history ch)) = length base_klines
      /\ length (sr_val (ch_net_profit_history ch)) = length base_klines
      /\ length (sr_val (ch_hold_profit_history ch)) = length base_klines
      /\ length (sr_val (ch_hold_num_history ch)) = length base_klines)
  /\ (forall i j dtj b,
        (j <= i < length base_klines)%nat ->
        map fst base_klines !! j = Some dtj ->
        balance_history !! dtj = Some b ->
        (forall k dtk, (j < k <= i)%nat ->
           map fst base_klines !! k = Some dtk ->
           balance_history !! dtk = None) ->
        sr_val (ch_balance_history ch) !! i = Some b)
  /\ (forall i,
        (i < length base_klines)%nat ->
        (forall k dtk, (k <= i)%nat ->
           map fst base_klines !! k = Some dtk ->
           balance_history !! dtk = None) ->
        sr_val (ch_balance_history ch) !! i = Some 0).
Proof.
  unfold backtest_charts. intros H.
  destruct (sorted_by_close (all_positions positions_history))
    as [ps |] eqn:Es; [| discriminate].
  cbv beta iota delta [mbind result_bind] in H. injection H as <-.
  cbn [ch_base_prices ch_balance_history ch_net_profit_history
       ch_hold_profit_history ch_hold_num_history sr_datetime sr_val].
  set (nps := total_nps ps). set (sums := hold_sums hold_profit_history).
  destruct (chart_after_shape balance_history nps sums (map fst base_klines))
    as (H1 & H2 & H3 & H4 & H5 & H6 & H7 & H8 & H9).
  rewrite length_map in H6, H7, H8, H9.
  split; [now repeat split |]. split; [now repeat split |]. split.
  - intros i j dtj b [Hji Hi] Hj Hb Hgap.
    apply (balance_carried balance_history nps sums _ j dtj b i);
      try assumption.
    now rewrite length_map.
  - intros i Hi Hgap. apply balance_unset; [now rewrite length_map |].
    exact Hgap.
Qed.

Lemma backtest_charts_series_witness :
  sr_datetime (ch_balance_history sample_charts) = map fst sample_klines
  /\ sr_val (ch_base_prices sample_charts) = [10; 11; 12]
  /\ sr_val (ch_balance_history sample_charts) !! 2%nat = Some 1000.
Proof.
  destruct (backtest_charts_series sample_klines sample_history []
              sample_balances sample_charts)
    as ((_ & Hdt & _) & (Hbase & _) & Hfill & _).
  - vm_compute. reflexivity.
  - split; [exact Hdt |]. split; [exact Hbase |].
    apply (Hfill 2%nat 0%nat "2023-01-03 00:00:00" 1000).
    + simpl. lia.
    + reflexivity.
    + reflexivity.
    + intros k dtk Hk Hdtk.
      destruct k as [| [| [| k]]]; try lia; simpl in Hdtk;
        injection Hdtk as <-; reflexivity.
Defined.

Lemma hold_dict_add (d : list (string * (Q * Z))) (k : string) (v : Q * Z)
    (k' : string) :
  let add := fun a b : Q * Z => (a.1 + b.1, (a.2 + b.2)%Z) in
  let r := default (0, 0%Z) (dict_get (dict_add add d k v) k') in
  let r0 := default (0, 0%Z) (dict_get d k') in
  r.1 == r0.1 + (if decide (k = k') then v.1 else 0)
  /\ r.2 = (r0.2 + (if decide (k = k') then v.2 else 0))%Z.
Proof.
  induction d as [| [k0 v0] d IH]; simpl.
  - destruct (decide (k = k')); simpl; split; lra || lia.
  - destruct (decide (k0 = k)) as [-> | Hk0]; simpl.
    + destruct (decide (k = k')); simpl; split; lra || lia.
    + destruct (decide (k0 = k')) as [-> | Hk0'].
      * destruct (decide (k = k')); [congruence |]. simpl. split; lra || lia.
      * exact IH.
Qed.

Lemma hold_sums_from (entries : list (string * Q))
    (d : list (string * (Q * Z))) (k : string) :
  let step := fun d (dp : string * Q) =>
    dict_add (fun a b : Q * Z => (a.1 + b.1, (a.2 + b.2)%Z)) d dp.1
             (dp.2, if Qeq_bool dp.2 0 then 0%Z else 1%Z) in
  let r := default (0, 0%Z) (dict_get (foldl step d entries) k) in
  let r0 := default (0, 0%Z) (dict_get d k) in
  let here := map snd (List.filter (fun dp => bool_decide (dp.1 = k)) entries) in
  r.1 == r0.1 + Qsum here
  /\ r.2 = (r0.2
            + Z.of_nat (length (List.filter (fun p => negb (Qeq_bool p 0)) here)))%Z.
Proof.
  cbv zeta. revert d. induction entries as [| [dt p] entries IH]; intros d.
  - simpl. unfold Qsum. simpl. split; lra || lia.
  - cbn [foldl]. destruct (IH (dict_add
        (fun a b : Q * Z => (a.1 + b.1, (a.2 + b.2)%Z)) d dt
        (p, if Qeq_bool p 0 then 0%Z else 1%Z))) as [IH1 IH2].
    destruct (hold_dict_add d dt (p, if Qeq_bool p 0 then 0%Z else 1%Z) k)
      as [H1 H2].
    cbn [fst snd] in *. rewrite IH1, IH2, H1, H2. clear IH IH1 IH2 H1 H2.
    cbn [List.filter fst].
    destruct (decide (dt = k)) as [E | E].
    + rewrite (bool_decide_eq_true_2 _ E). cbn [map snd List.filter].
      unfold Qsum. cbn [foldr].
      destruct (Qeq_bool p 0); cbn [negb length]; split; lra || lia.
    + rewrite (bool_decide_eq_false_2 _ E). split; lra || lia.
Qed.

Lemma chart_hold_at (bh : gmap string Q)
    (nps : list (option string * Q)) (sums : list (string * (Q * Z)))
    (dts : list string) (i : nat) (_dt : string) :
  dts !! i = Some _dt ->
  sr_val (cs_hold_profit (chart_after bh nps sums dts)) !! i
  = Some (default (0, 0%Z) (dict_get sums _dt)).1
  /\ sr_val (cs_hold_num (chart_after bh nps sums dts)) !! i
     = Some (default (0, 0%Z) (dict_get sums _dt)).2.
Proof.
  revert i _dt. induction dts as [| d dts IH] using rev_ind; intros i _dt Hi.
  - discriminate.
  - destruct (chart_after_shape bh nps sums dts)
      as (_ & _ & _ & _ & _ & _ & _ & Hlen1 & Hlen2).
    rewrite chart_after_snoc.
    unfold chart_step, push. cbn [cs_hold_profit cs_hold_num sr_val].
    destruct (decide (i < length dts)%nat) as [Hlt | Hge].
    + rewrite lookup_app_l in Hi by lia.
      rewrite !lookup_app_l by lia. now apply IH.
    + pose proof (lookup_lt_Some _ _ _ Hi) as Hb.
      rewrite length_app in Hb. simpl in Hb.
      assert (Ei : i = length dts) by lia. subst i.
      rewrite lookup_app_r in Hi by lia.
      replace (length dts - length dts)%nat with O in Hi by lia.
      simpl in Hi. assert (Ed : d = _dt) by congruence. subst d.
      rewrite !lookup_app_r by lia. rewrite Hlen1, Hlen2.
      replace (length dts - length dts)%nat with O by lia. simpl.
      now destruct (dict_get sums _dt).
Qed.

(** X19. The holding series of the chart: at each bar the open profit is the
    sum of the open profit recorded at the time of the bar over all codes,
    and the number of holdings is the number of those records that are not
    0; both are 0 at a bar for which nothing is recorded. *)
Theorem backtest_charts_holdings
    (base_klines : list (string * Q))
    (positions_history : list (string * list POSITION))
    (hold_profit_history : list (string * list (string * Q)))
    (balance_history : gmap string Q) (ch : Charts) :
  backtest_charts base_klines positions_history hold_profit_history
                  balance_history = Ok ch ->
  forall i _dt,
    map fst base_klines !! i = Some _dt ->
    exists v n,
      sr_val (ch_hold_profit_history ch) !! i = Some v
      /\ sr_val (ch_hold_num_history ch) !! i = Some n
      /\ v == Qsum (held_at hold_profit_history _dt)
      /\ n = Z.of_nat
               (length (List.filter (fun p => negb (Qeq_bool p 0))
                                    (held_at hold_profit_history _dt))).
Proof.
  unfold backtest_charts. intros H i _dt Hi.
  destruct (sorted_by_close (all_positions positions_history))
    as [ps |] eqn:Es; [| discriminate].
  cbv beta iota delta [mbind result_bind] in H. injection H as <-.
  cbn [ch_hold_profit_history ch_hold_num_history].
  destruct (chart_hold_at balance_history (total_nps ps)
              (hold_sums hold_profit_history) _ i _dt Hi) as [Hv Hn].
  eexists. eexists. split; [exact Hv |]. split; [exact Hn |].
  destruct (hold_sums_from (flat_map snd hold_profit_history) [] _dt)
    as [H1 H2].
  unfold hold_sums, held_at. cbn [dict_get default fst snd] in H1, H2.
  split.
  - rewrite H1. lra.
  - rewrite H2. lia.
Qed.

(** Two codes with an open profit of 5 and 0 at the second bar. *)
Lemma backtest_charts_holdings_witness :
  exists ch,
    backtest_charts sample_klines sample_history
      [("SH.600519", [("2023-01-04 00:00:00", 5)]);
       ("SZ.000001", [("2023-01-04 00:00:00", 0)])] sample_balances = Ok ch
    /\ exists v n,
         sr_val (ch_hold_profit_history ch) !! 1%nat = Some v
         /\ sr_val (ch_hold_num_history ch) !! 1%nat = Some n
         /\ v == 5 /\ n = 1%Z.
Proof.
  eexists. split; [vm_compute; reflexivity |].
  match goal with
  | |- context [ch_hold_profit_history ?c] =>
      destruct (backtest_charts_holdings sample_klines sample_history
                  [("SH.600519", [("2023-01-04 00:00:00", 5)]);
                   ("SZ.000001", [("2023-01-04 00:00:00", 0)])]
                  sample_balances c) with (i := 1%nat)
                  (_dt := "2023-01-04 00:00:00")
        as (v & n & Hv & Hn & Ev & En)
  end.
  - vm_compute. reflexivity.
  - reflexivity.
  - exists v, n. split; [exact Hv |]. split; [exact Hn |].
    split; [rewrite Ev; reflexivity | rewrite En; reflexivity].
Defined.
